(** * jcblock.py: junk call blocker on an AT modem

    A shallow embedding of [src/jcblock.py] and the properties of its
    Caller-ID accumulator, its allow/block lists, their history and purge
    files, the star-key detector and the screening step of the main loop.

    Conventions of the embedding:
    - a Python [str] is a [string]; characters are the code points below
      256, and the classes [\w] and [\s] are given on the ASCII range;
    - a Python [dict] is an association list in insertion order (the
      order [items()] iterates in), keys unique;
    - files live in a finite map from path to contents;
    - console output ([print]) is not modelled;
    - clock readings ([time.time], [time.monotonic]) are rationals handed
      to the functions that read the clock;
    - the [re] module is an interface ([RegexLib]); a small instance
      ([PyRe]) covers the patterns of the examples. *)

From Stdlib Require Import ZArith QArith List String Ascii Bool Lia.
From Stdlib Require Import DecimalString DecimalZ DecimalPos.
From stdpp Require Import base gmap strings.
Import ListNotations.
Open Scope string_scope.
Open Scope list_scope.

(** ** Python string operations used by the program *)

Module PyStr.

(** [s.startswith(p)] *)
Fixpoint startswith (s p : string) : bool :=
  match p, s with
  | EmptyString, _ => true
  | String a p', String b s' => Ascii.eqb a b && startswith s' p'
  | String _ _, EmptyString => false
  end.

(** [s.endswith("\\")] *)
Fixpoint ends_with_backslash (s : string) : bool :=
  match s with
  | EmptyString => false
  | String c EmptyString => Ascii.eqb c "\"
  | String _ s' => ends_with_backslash s'
  end.

(** [s[:-1]] *)
Fixpoint drop_last (s : string) : string :=
  match s with
  | EmptyString => EmptyString
  | String _ EmptyString => EmptyString
  | String c s' => String c (drop_last s')
  end.

(** [bool(s)]: a string is true when it is not empty *)
Definition truthy (s : string) : bool :=
  match s with EmptyString => false | String _ _ => true end.

(** [c in s] for a one-character [c] *)
Fixpoint has_char (c : ascii) (s : string) : bool :=
  match s with
  | EmptyString => false
  | String a s' => Ascii.eqb a c || has_char c s'
  end.

Definition LF : ascii := ascii_of_nat 10.
Definition CR : ascii := ascii_of_nat 13.

(** [re.sub('\n|\r', '', s)]: every line feed and carriage return removed *)
Fixpoint remove_nl (s : string) : string :=
  match s with
  | EmptyString => EmptyString
  | String c s' =>
      if Ascii.eqb c LF || Ascii.eqb c CR then remove_nl s'
      else String c (remove_nl s')
  end.

(** [s.split(sep)] for a one-character [sep]: the fields between the
    separators, always at least one field. *)
Fixpoint split (sep : ascii) (s : string) : list string :=
  match s with
  | EmptyString => [EmptyString]
  | String c s' =>
      if Ascii.eqb c sep then EmptyString :: split sep s'
      else match split sep s' with
           | f :: fs => String c f :: fs
           | [] => [String c EmptyString]
           end
  end.

(** [s.split(sep, maxsplit)]: at most [maxsplit] cuts, the last field
    keeps the rest of the string with its separators. *)
Fixpoint split_max (sep : ascii) (maxsplit : nat) (s : string) : list string :=
  match maxsplit with
  | O => [s]
  | S n =>
      match s with
      | EmptyString => [EmptyString]
      | String c s' =>
          if Ascii.eqb c sep then EmptyString :: split_max sep n s'
          else match split_max sep maxsplit s' with
               | f :: fs => String c f :: fs
               | [] => [String c EmptyString]
               end
      end
  end.

(** [sep.join(fields)] *)
Fixpoint join (sep : string) (fields : list string) : string :=
  match fields with
  | [] => EmptyString
  | [f] => f
  | f :: fs => f +:+ sep +:+ join sep fs
  end.

(** [" " * n] *)
Fixpoint spaces (n : nat) : string :=
  match n with O => EmptyString | S n' => String " " (spaces n') end.

(** [s[i:j]] for [0 <= i <= j]: the slice is cut short at the end of [s]. *)
Definition slice (i j : nat) (s : string) : string := substring i (j - i)%nat s.

(** The class [\w] on the ASCII range: letters, digits and underscore. *)
Definition is_word (c : ascii) : bool :=
  let n := nat_of_ascii c in
  (((48 <=? n) && (n <=? 57)) || ((65 <=? n) && (n <=? 90))
   || ((97 <=? n) && (n <=? 122)) || (n =? 95))%nat.

(** The class [\s] of a [str] pattern on the ASCII range: tab, line feed,
    vertical tab, form feed, carriage return, the four separators 28..31
    and the space. *)
Definition is_space (c : ascii) : bool :=
  let n := nat_of_ascii c in
  (((9 <=? n) && (n <=? 13)) || ((28 <=? n) && (n <=? 31)) || (n =? 32))%nat.

Fixpoint skip_while (p : ascii -> bool) (s : string) : string :=
  match s with
  | String c s' => if p c then skip_while p s' else s
  | EmptyString => EmptyString
  end.

End PyStr.
Import PyStr.

(** [space_fill(s, count)]: [s], one space, and [count - len(s) - 1] more
    (none when that is negative). *)
Definition space_fill (s : string) (count : nat) : string :=
  s +:+ " " +:+ spaces (count - String.length s - 1)%nat.

(** ** The Caller-ID accumulator of [main] (lines 119-122, 154-177, 224-227) *)

(** [re.sub('^\w+\s*=\s*', '', line)]: a leading run of word characters,
    optional blanks, an equals sign and optional blanks are removed; a
    line that does not start that way is returned unchanged.  The greedy
    runs are maximal and backtracking cannot help: a shorter run of word
    characters is followed by a word character, never by [=]. *)
Definition strip_key (line : string) : string :=
  match line with
  | String c _ =>
      if is_word c then
        match skip_while is_space (skip_while is_word line) with
        | String e rest =>
            if Ascii.eqb e "=" then skip_while is_space rest else line
        | EmptyString => line
        end
      else line
  | EmptyString => line
  end.

(** The four variables [call_date], [call_time], [call_number] and
    [call_name] of [main]. *)
Record CallerId := mkCallerId {
  call_date : string;
  call_time : string;
  call_number : string;
  call_name : string
}.

(** Their values before the loop and after lines 224-227. *)
Definition no_call : CallerId := mkCallerId "" "" "" "".

(** Lines 154-174: the effect of one modem line on the four fields, and
    whether control falls through to the screening code ([true]) or the
    loop [continue]s ([false]). *)
Definition accumulate (st : CallerId) (line : string) : CallerId * bool :=
  if startswith line "RING" then
    (st, truthy (call_date st))
  else if startswith line "DATE" then
    (mkCallerId (strip_key line) (call_time st) (call_number st) (call_name st), false)
  else if startswith line "TIME" then
    (mkCallerId (call_date st) (strip_key line) (call_number st) (call_name st), false)
  else if startswith line "NMBR" then
    (mkCallerId (call_date st) (call_time st) (strip_key line) (call_name st), false)
  else if startswith line "NAME" then
    let st' := mkCallerId (call_date st) (call_time st) (call_number st) (strip_key line) in
    (st', truthy (call_date st'))
  else
    (st, false).

(** One pass of the loop as far as the fields go: the record handed to
    the screening code, if any, and the fields the next pass starts from
    (reset by lines 224-227 after a hand-off). *)
Definition feed (st : CallerId) (line : string) : CallerId * option CallerId :=
  match accumulate st line with
  | (st', true) => (no_call, Some st')
  | (st', false) => (st', None)
  end.

(** The loop over a sequence of modem lines: the records handed off, in
    order, and the fields left at the end. *)
Fixpoint feed_lines (st : CallerId) (lines : list string) : CallerId * list CallerId :=
  match lines with
  | [] => (st, [])
  | line :: rest =>
      match feed st line with
      | (st', Some r) => let '(st'', rs) := feed_lines st' rest in (st'', r :: rs)
      | (st', None) => feed_lines st' rest
      end
  end.

(** ** Integers as text *)

(** [str(n)] for an [int]: decimal digits, a minus sign when negative. *)
Definition py_str (n : Z) : string := NilZero.string_of_int (Z.to_int n).

Definition digit_of (c : ascii) : option Z :=
  let n := nat_of_ascii c in
  if ((48 <=? n) && (n <=? 57))%nat then Some (Z.of_nat (n - 48)) else None.

Fixpoint all_space (s : string) : bool :=
  match s with
  | EmptyString => true
  | String c s' => is_space c && all_space s'
  end.

(** The digits of an [int(...)] argument, most significant first: single
    underscores may separate digits, and blanks may follow the last one. *)
Fixpoint int_digits (acc : Z) (after_digit : bool) (s : string) : option Z :=
  match s with
  | EmptyString => if after_digit then Some acc else None
  | String c s' =>
      match digit_of c with
      | Some d => int_digits (10 * acc + d) true s'
      | None =>
          if after_digit && Ascii.eqb c "_" then
            match s' with
            | String c' _ =>
                match digit_of c' with
                | Some _ => int_digits acc false s'
                | None => None
                end
            | EmptyString => None
            end
          else if after_digit && all_space s then Some acc
          else None
      end
  end.

(** [int(s)] for a string: surrounding blanks, an optional sign, decimal
    digits; [None] stands for [ValueError]. *)
Definition py_int (s : string) : option Z :=
  match skip_while is_space s with
  | String c s' =>
      if Ascii.eqb c "-" then option_map Z.opp (int_digits 0 false s')
      else if Ascii.eqb c "+" then int_digits 0 false s'
      else int_digits 0 false (String c s')
  | EmptyString => None
  end.

(** ** Text files *)

Definition NL : string := String LF EmptyString.

(** Universal newlines of a text-mode read: [\r\n] and a lone [\r]
    both arrive as [\n]. *)
Fixpoint translate_newlines (s : string) : string :=
  match s with
  | EmptyString => EmptyString
  | String c s' =>
      if Ascii.eqb c CR then
        match s' with
        | String c' s'' =>
            if Ascii.eqb c' LF then String LF (translate_newlines s'')
            else String LF (translate_newlines s')
        | EmptyString => String LF EmptyString
        end
      else String c (translate_newlines s')
  end.

(** The lines of an already translated text, each with its line feed; a
    last line without one is kept as it is. *)
Fixpoint lines_of (s : string) : list string :=
  match s with
  | EmptyString => []
  | String c s' =>
      if Ascii.eqb c LF then NL :: lines_of s'
      else match lines_of s' with
           | l :: ls => String c l :: ls
           | [] => [String c EmptyString]
           end
  end.

(** [for line in file] on a file opened for reading in text mode. *)
Definition file_lines (content : string) : list string :=
  lines_of (translate_newlines content).

(** The file system: path to contents; a path is present exactly when
    [os.path.exists] holds. *)
Abbreviation FS := (gmap string string).

(** ** The [re] module as an interface *)

(** What the program uses of [re]: [re.compile(text, re.IGNORECASE)],
    which raises [re.error] ([None]) on a malformed pattern, and
    [compiled.match(candidate)], tested for truth. *)
Class RegexLib (pattern : Type) := {
  re_compile : string -> option pattern;
  re_match : pattern -> string -> bool
}.

(** ** Allow and block lists *)

Section Lists.
Context {pattern : Type} `{RegexLib pattern}.

(** The inner dictionary of a list entry. *)
Record Item := mkItem {
  regex : pattern;
  timestamp : string;
  count : Z;
  permanent : bool;
  note : string
}.

(** A list: the outer dictionary, keyed on the pattern text, in insertion
    order. *)
Definition PList := list (string * Item).

(** [list[key]] as an optional value: [None] when [key in list] is
    false. *)
Fixpoint dict_get (key : string) (l : PList) : option Item :=
  match l with
  | [] => None
  | (k, it) :: rest => if String.eqb k key then Some it else dict_get key rest
  end.

(** [list[key] = it]: a present key keeps its place, a new one goes last. *)
Fixpoint dict_set (key : string) (it : Item) (l : PList) : PList :=
  match l with
  | [] => [(key, it)]
  | (k, old) :: rest =>
      if String.eqb k key then (k, it) :: rest
      else (k, old) :: dict_set key it rest
  end.

(** [del list[key]] *)
Fixpoint dict_del (key : string) (l : PList) : PList :=
  match l with
  | [] => []
  | (k, it) :: rest =>
      if String.eqb k key then rest else (k, it) :: dict_del key rest
  end.

(** A dictionary holds each key once. *)
Fixpoint dict_wf (l : PList) : Prop :=
  match l with
  | [] => True
  | (k, _) :: rest => dict_get k rest = None /\ dict_wf rest
  end.

(** Lines 261-263 and 343-345: a pattern field that ends in a backslash
    takes the next field back, the backslash replaced by the semicolon
    that [split] removed. *)
Fixpoint join_escaped (regex : string) (line_list : list string) : string * list string :=
  match line_list with
  | field :: rest =>
      if truthy regex && ends_with_backslash regex then
        join_escaped (drop_last regex +:+ ";" +:+ field) rest
      else (regex, line_list)
  | [] => (regex, [])
  end.

(** Lines 251-276: one line of the [.dat] file. *)
Definition read_dat_line (now : string) (l : PList) (line : string) : PList :=
  let line := remove_nl line in
  if startswith line "#" then l
  else
    match split ";" line with
    | [] => l
    | regex :: line_list =>
        if negb (truthy regex) then l
        else
          let '(regex, line_list) := join_escaped regex line_list in
          match re_compile regex with
          | None => l
          | Some compiled =>
              if truthy regex then
                let flags := match line_list with f :: _ => f | [] => "" end in
                let line_list := tl line_list in
                dict_set regex
                  {| regex := compiled;
                     permanent := has_char "p" flags || has_char "P" flags;
                     note := join ";" line_list;
                     timestamp := now;
                     count := 0 |} l
              else l
          end
    end.

(** Lines 286-297: one line of the [.dat-match] file; [None] when
    [int(count)] raises. *)
Definition read_match_line (l : PList) (line : string) : option PList :=
  let line := remove_nl line in
  match split_max ";" 3 line with
  | [ts; cnt; key] =>
      match dict_get key l with
      | Some it =>
          match py_int cnt with
          | Some n =>
              Some (dict_set key (mkItem (regex it) ts n (permanent it) (note it)) l)
          | None => None
          end
      | None => Some l
      end
  | _ => Some l
  end.

Fixpoint read_match_lines (l : PList) (lines : list string) : option PList :=
  match lines with
  | [] => Some l
  | line :: rest =>
      match read_match_line l line with
      | Some l' => read_match_lines l' rest
      | None => None
      end
  end.

(** [read_list(list_file)], with [now] the value of
    [time.strftime("%Y-%m-%d %H:%M")] at line 248. *)
Definition read_list (fs : FS) (now : string) (list_file : string) : option PList :=
  match fs !! list_file with
  | None => Some []
  | Some content =>
      let l := fold_left (read_dat_line now) (file_lines content) [] in
      match fs !! (list_file +:+ "-match") with
      | None => Some l
      | Some history => read_match_lines l (file_lines history)
      end
  end.

(** Line 305: the line written for one entry. *)
Definition match_line (entry : string * Item) : string :=
  timestamp (snd entry) +:+ ";" +:+ py_str (count (snd entry)) +:+ ";" +:+ fst entry +:+ NL.

(** [update_list_match(list, list_file)] *)
Definition update_list_match (l : PList) (list_file : string) (fs : FS) : FS :=
  <[list_file +:+ "-match" := String.concat "" (map match_line l)]> fs.

(** [match_list(list, string, timestamp)]: the list as the call leaves it
    and the value returned. *)
Fixpoint match_list (l : PList) (candidate : string) (ts : string) : PList * bool :=
  match l with
  | [] => ([], false)
  | (k, it) :: rest =>
      if re_match (regex it) candidate then
        ((k, mkItem (regex it) ts (count it + 1) (permanent it) (note it)) :: rest, true)
      else
        let '(rest', hit) := match_list rest candidate ts in
        ((k, it) :: rest', hit)
  end.

(** [match_list_both(list, list_type, number, name, timestamp)] *)
Definition match_list_both (l : PList) (number name ts : string) : PList * bool :=
  match match_list l number ts with
  | (l', true) => (l', true)
  | (l', false) => match_list l' name ts
  end.

(** The entry as [match_list] leaves it after a hit, and what it is for
    an entry not to match a candidate. *)
Definition matched (ts : string) (it : Item) : Item :=
  mkItem (regex it) ts (count it + 1) (permanent it) (note it).

Definition misses (candidate : string) (entry : string * Item) : Prop :=
  re_match (regex (snd entry)) candidate = false.

(** The invariant of a list: every key compiles, to the pattern stored
    with it. *)
Definition compiled_ok (l : PList) : Prop :=
  Forall (fun entry => re_compile (fst entry) = Some (regex (snd entry))) l.

(** No line of a history file is a well-formed line for the key. *)
Definition no_history (key : string) (lines : list string) : Prop :=
  Forall (fun line => forall ts cnt, split_max ";" 3 (remove_nl line) <> [ts; cnt; key])
         lines.

(** [day_secs] *)
Definition day_secs : Z := 24 * 60 * 60.

Definition Qlt_bool (x y : Q) : bool := negb (Qle_bool y x).

(** [time.mktime(time.strptime(text, "%Y-%m-%d %H:%M"))] depends on the
    time zone of the host; it is a parameter, [None] when it raises. *)
Variable parse_time : string -> option Q.

(** The state of the loop of [purge_list]: the list, [new_contents] and
    [file_changed]. *)
Definition PurgeState : Type := PList * string * bool.

(** Lines 338-358: one line of the [.dat] file; [None] when the stored
    timestamp of a listed pattern does not parse. *)
Definition purge_line (now : Q) (lifetime_days : Z) (st : PurgeState) (line : string)
  : option PurgeState :=
  let '(l, new_contents, file_changed) := st in
  if startswith line "#" then Some (l, new_contents +:+ line, file_changed)
  else
    match split ";" (remove_nl line) with
    | [] => Some (l, new_contents +:+ line, file_changed)
    | regex :: line_list =>
        let '(regex, _) := join_escaped regex line_list in
        match dict_get regex l with
        | Some item =>
            match parse_time (timestamp item) with
            | None => None
            | Some last_time =>
                if negb (permanent item)
                   && Qlt_bool (inject_Z (lifetime_days * day_secs)) (now - last_time)
                then
                  let line := "# last blocked on " +:+ timestamp item +:+ " count "
                              +:+ py_str (count item) +:+ " #" +:+ line in
                  Some (dict_del regex l, new_contents +:+ line, true)
                else Some (l, new_contents +:+ line, file_changed)
            end
        | None => Some (l, new_contents +:+ line, file_changed)
        end
    end.

Fixpoint purge_lines (now : Q) (lifetime_days : Z) (st : PurgeState) (lines : list string)
  : option PurgeState :=
  match lines with
  | [] => Some st
  | line :: rest =>
      match purge_line now lifetime_days st line with
      | Some st' => purge_lines now lifetime_days st' rest
      | None => None
      end
  end.

(** Lines 360-369: the old file becomes the backup (a previous backup is
    removed first) and the new contents are written. *)
Definition write_with_backup (list_file old_contents new_contents : string) (fs : FS) : FS :=
  let backup_file := list_file +:+ "-backup" in
  let fs := match fs !! backup_file with Some _ => delete backup_file fs | None => fs end in
  let fs := <[backup_file := old_contents]> (delete list_file fs) in
  <[list_file := new_contents]> fs.

(** [purge_list(list, list_file, lifetime_days)], with [now] the value of
    [time.time()] at line 333: the list and the files afterwards. *)
Definition purge_list (l : PList) (list_file : string) (lifetime_days : Z) (now : Q) (fs : FS)
  : option (PList * FS) :=
  match fs !! list_file with
  | None => Some (l, fs)
  | Some content =>
      match purge_lines now lifetime_days (l, "", false) (file_lines content) with
      | None => None
      | Some (l', new_contents, file_changed) =>
          if file_changed then Some (l', write_with_backup list_file content new_contents fs)
          else Some (l', fs)
      end
  end.

(** The vocabulary of the purge properties: the pattern a line of the
    [.dat] file stands for (none for a comment line), whether an entry is
    older than the lifetime, whether the purge takes it, and the line
    that replaces its line in the file. *)
Definition line_key (line : string) : option string :=
  if startswith line "#" then None
  else match split ";" (remove_nl line) with
       | regex :: line_list => Some (fst (join_escaped regex line_list))
       | [] => None
       end.

Definition expired (now : Q) (lifetime_days : Z) (it : Item) : bool :=
  match parse_time (timestamp it) with
  | Some last_time => Qlt_bool (inject_Z (lifetime_days * day_secs)) (now - last_time)
  | None => false
  end.

Definition purgeable (now : Q) (lifetime_days : Z) (it : Item) : bool :=
  negb (permanent it) && expired now lifetime_days it.

Definition commented_out (it : Item) (line : string) : string :=
  "# last blocked on " +:+ timestamp it +:+ " count " +:+ py_str (count it) +:+ " #" +:+ line.

(** How a line of the old file stands in the new one: copied, or
    commented out for an entry of the list that the purge takes. *)
Definition purged_line (now : Q) (lifetime_days : Z) (l : PList) (line out : string) : Prop :=
  out = line
  \/ exists key it,
       line_key line = Some key /\ dict_get key l = Some it
       /\ purgeable now lifetime_days it = true /\ out = commented_out it line.

End Lists.

Arguments Item pattern : clear implicits.
Arguments PList pattern : clear implicits.
Arguments PurgeState pattern : clear implicits.

(** ** The modem *)

(** What the program does to the serial port, oldest first: a command
    written by [send_command] (with its [wait] flag) and a [time.sleep].
    The replies that [send_command] reads are never used by its callers
    and are not modelled. *)
Inductive ModemOp :=
| Sent (command : string) (wait : bool)
| Slept (seconds : nat).

(** The port: what was done to it, and its read [timeout] attribute
    ([None] blocks for ever). *)
Record Modem := mkModem {
  ops : list ModemOp;
  timeout : option Q
}.

Definition send_command (command : string) (wait : bool) (m : Modem) : Modem :=
  mkModem (ops m ++ [Sent command wait]) (timeout m).

Definition sleep (seconds : nat) (m : Modem) : Modem :=
  mkModem (ops m ++ [Slept seconds]) (timeout m).

Definition set_timeout (t : option Q) (m : Modem) : Modem := mkModem (ops m) t.

(** [Modem.terminate_call] *)
Definition terminate_call (m : Modem) : Modem :=
  let m := send_command "AT+FCLASS=1" true m in
  let m := send_command "ATA" false m in
  let m := sleep 2 m in
  let m := send_command "ATH" true m in
  let m := sleep 1 m in
  send_command "ATH" true m.

(** ** The star-key detector *)

Module Bytes.

Definition bytes := list Byte.byte.

Fixpoint starts_with (needle hay : bytes) : bool :=
  match needle, hay with
  | [], _ => true
  | n :: needle', h :: hay' => Byte.eqb n h && starts_with needle' hay'
  | _ :: _, [] => false
  end.

(** [needle in hay] *)
Fixpoint contains (needle hay : bytes) : bool :=
  starts_with needle hay ||
  match hay with
  | [] => false
  | _ :: hay' => contains needle hay'
  end.

(** [hay.replace(needle, b'')] for a non-empty [needle]: the occurrences
    found from the left, each search resuming after the previous one. *)
Fixpoint remove_fuel (fuel : nat) (needle hay : bytes) : bytes :=
  match fuel with
  | O => hay
  | S fuel' =>
      match hay with
      | [] => []
      | h :: hay' =>
          if starts_with needle hay then remove_fuel fuel' needle (skipn (length needle) hay)
          else h :: remove_fuel fuel' needle hay'
      end
  end.

Definition remove (needle hay : bytes) : bytes := remove_fuel (length hay) needle hay.

End Bytes.
Import Bytes.

Definition DLE : Byte.byte := Byte.x10.

(** [b'\x10/\x10*\x10~'], [b'\x10R'], [b'\x10r'] and the byte [b'\n'] *)
Definition star_bytes : bytes := [DLE; Byte.x2f; DLE; Byte.x2a; DLE; Byte.x7e].
Definition ring_bytes1 : bytes := [DLE; Byte.x52].
Definition ring_bytes2 : bytes := [DLE; Byte.x72].
Definition newline_byte : Byte.byte := Byte.x0a.

(** What one pass of the loop of [wait_for_star] observes: the clock in
    the loop condition, the result of [self.read(1)] (one byte, or none
    when the read timed out), and the clock at line 419, read only when a
    ring was seen. *)
Record StarObs := mkStarObs {
  at_check : Q;
  got : option Byte.byte;
  at_ring : Q
}.

(** The variables of the loop. *)
Record StarState := mkStarState {
  star_modem : Modem;
  read_bytes : bytes;
  last_ring : Q
}.

(** Line 408: the loop condition. *)
Definition star_continue (st : StarState) (o : StarObs) : bool :=
  Qlt_bool (at_check o - last_ring st) 10 && negb (contains star_bytes (read_bytes st)).

(** Lines 409-419: the loop body. *)
Definition star_body (st : StarState) (o : StarObs) : StarState :=
  let buf := read_bytes st ++ match got o with Some b => [b] | None => [] end in
  let '(m, buf) :=
    if contains [newline_byte] buf then
      (send_command "AT+VLS=4" true (send_command "AT+VIP" true (star_modem st)), [])
    else (star_modem st, buf) in
  if contains ring_bytes1 buf || contains ring_bytes2 buf then
    mkStarState m (remove ring_bytes2 (remove ring_bytes1 buf)) (at_ring o)
  else mkStarState m buf (last_ring st).

(** The loop, driven by the observations it makes; [None] when they run
    out before the condition fails.  The observation at which the
    condition fails contributes its clock reading only. *)
Fixpoint star_loop (st : StarState) (obs : list StarObs) : option StarState :=
  match obs with
  | [] => None
  | o :: rest =>
      if star_continue st o then star_loop (star_body st o) rest
      else Some st
  end.

(** [Modem.wait_for_star], with [t0] the clock at line 407: the modem
    afterwards and the value returned. *)
Definition wait_for_star (m : Modem) (t0 : Q) (obs : list StarObs) : option (Modem * bool) :=
  let m := send_command "AT+FCLASS=8" true m in
  let m := send_command "AT+VIP" true m in
  let m := send_command "AT+VLS=4" true m in
  let m := set_timeout (Some 1%Q) m in
  match star_loop (mkStarState m [] t0) obs with
  | None => None
  | Some st =>
      let m := set_timeout None (star_modem st) in
      let m := send_command "ATH" true m in
      Some (m, contains star_bytes (read_bytes st))
  end.

(** The vocabulary of the detector's properties: the state on entry to
    the loop; the state after the passes that a list of observations
    drives, and whether the loop condition held before each of them; the
    buffer of a pass after its read and its line-feed check, and whether
    a ring is seen in it; a buffer free of ring sequences; the bytes a
    list of observations delivers; and a byte stream made of ring
    sequences only, possibly cut after the first byte of the last. *)
Definition star_start (m : Modem) (t0 : Q) : StarState :=
  let m := send_command "AT+FCLASS=8" true m in
  let m := send_command "AT+VIP" true m in
  let m := send_command "AT+VLS=4" true m in
  mkStarState (set_timeout (Some 1%Q) m) [] t0.

Definition star_run (st : StarState) (obs : list StarObs) : StarState :=
  fold_left star_body obs st.

Fixpoint admitted (st : StarState) (obs : list StarObs) : bool :=
  match obs with
  | [] => true
  | o :: rest => star_continue st o && admitted (star_body st o) rest
  end.

Definition incoming (st : StarState) (o : StarObs) : bytes :=
  let buf := read_bytes st ++ match got o with Some b => [b] | None => [] end in
  if contains [newline_byte] buf then [] else buf.

Definition seen_ring (st : StarState) (o : StarObs) : bool :=
  contains ring_bytes1 (incoming st o) || contains ring_bytes2 (incoming st o).

Definition ring_free (buf : bytes) : Prop :=
  contains ring_bytes1 buf = false /\ contains ring_bytes2 buf = false.

Definition bytes_of (obs : list StarObs) : bytes :=
  flat_map (fun o => match got o with Some b => [b] | None => [] end) obs.

Definition is_ring_letter (b : Byte.byte) : bool :=
  Byte.eqb b Byte.x52 || Byte.eqb b Byte.x72.

Fixpoint only_rings (bs : bytes) : bool :=
  match bs with
  | [] => true
  | d :: rest =>
      Byte.eqb d DLE &&
      match rest with
      | [] => true
      | letter :: rest' => is_ring_letter letter && only_rings rest'
      end
  end.

(** ** The screening code and the main loop *)

(** The configuration, lines 75-82. *)
Definition allowlist_file : string := "allowlist.dat".
Definition blocklist_file : string := "blocklist.dat".
Definition calllog_file : string := "calllog.log".
Definition blocklist_purge_days : Z := 1.
Definition blocklist_lifetime_days : Z := 9 * 30.

(** [open(path, 'a')] followed by one [write]. *)
Definition append_file (path text : string) (fs : FS) : FS :=
  <[path := match fs !! path with Some old => old | None => "" end +:+ text]> fs.

(** Line 180, with [year] the value of [time.strftime('%Y')]. *)
Definition make_timestamp (year : string) (c : CallerId) : string :=
  year +:+ "-" +:+ slice 0 2 (call_date c) +:+ "-" +:+ slice 2 4 (call_date c)
  +:+ " " +:+ slice 0 2 (call_time c) +:+ ":" +:+ slice 2 4 (call_time c).

(** Line 221: the line written to the call log. *)
Definition log_line (ts : string) (c : CallerId) (outcome : string) : string :=
  ts +:+ "  " +:+ space_fill (call_number c) 12 +:+ space_fill (call_name c) 17
  +:+ " : " +:+ outcome +:+ NL.

Section Screening.
Context {pattern : Type} `{RegexLib pattern}.
Variable parse_time : string -> option Q.

(** The objects the loop works on: the two lists, the files and the
    modem. *)
Record World := mkWorld {
  allowlist : PList pattern;
  blocklist : PList pattern;
  files : FS;
  modem : Modem
}.

(** What one screening reads from outside: [time.strftime('%Y')] at line
    180, the clock and the observations of [wait_for_star], and
    [time.strftime("%Y-%m-%d %H:%M")] at line 208. *)
Record ScreenEnv := mkScreenEnv {
  year : string;
  star_t0 : Q;
  star_obs : list StarObs;
  added_at : string
}.

(** Lines 199-217, after a star key was seen: the block list, the files
    and the value of [match]. *)
Definition add_by_star (env : ScreenEnv) (c : CallerId) (bl : PList pattern) (fs : FS)
  : PList pattern * FS * string :=
  match re_compile (call_number c) with
  | None => (bl, fs, "no match")
  | Some compiled =>
      let regex := call_number c in
      if truthy regex then
        let item := mkItem compiled (added_at env) 0 false "added by user * key" in
        (dict_set regex item bl,
         append_file blocklist_file (regex +:+ ";;added by user * key" +:+ NL) fs,
         "added to block by user * key")
      else (bl, fs, "no match")
  end.

(** Lines 177-222: a completed Caller ID is matched against the lists,
    acted upon and logged; [None] when the star-key detector has not
    returned within its observations. *)
Definition screen (env : ScreenEnv) (w : World) (c : CallerId) : option World :=
  let ts := make_timestamp (year env) c in
  let '(al, allowed) := match_list_both (allowlist w) (call_number c) (call_name c) ts in
  if allowed then
    let fs := update_list_match al allowlist_file (files w) in
    Some (mkWorld al (blocklist w) (append_file calllog_file (log_line ts c "allow") fs)
            (modem w))
  else
    let '(bl, blocked) := match_list_both (blocklist w) (call_number c) (call_name c) ts in
    if blocked then
      let fs := update_list_match bl blocklist_file (files w) in
      let m := terminate_call (modem w) in
      Some (mkWorld al bl (append_file calllog_file (log_line ts c "block") fs) m)
    else
      match wait_for_star (modem w) (star_t0 env) (star_obs env) with
      | None => None
      | Some (m, star) =>
          let '(bl, fs, outcome) :=
            if star then add_by_star env c bl (files w)
            else (bl, files w, "no match") in
          Some (mkWorld al bl (append_file calllog_file (log_line ts c outcome) fs) m)
      end.

(** Lines 101-112 and 139-151: both lists are read again and their
    history files rewritten; [now_allow] and [now_block] are the values
    of [time.strftime] in the two calls of [read_list]. *)
Definition reload_lists (now_allow now_block : string) (w : World) : option World :=
  match read_list (files w) now_allow allowlist_file with
  | None => None
  | Some al =>
      let fs := update_list_match al allowlist_file (files w) in
      match read_list fs now_block blocklist_file with
      | None => None
      | Some bl =>
          Some (mkWorld al bl (update_list_match bl blocklist_file fs) (modem w))
      end
  end.

(** The variables of [main] that live across passes of the loop. *)
Record MainState := mkMainState {
  world : World;
  fields : CallerId;
  blocklist_purge_time : Q
}.

(** What one pass of the loop reads from outside: [time.time()] at lines
    128, 129 and 333, the line returned by [modem.read_line()], whether
    [reload_config] is found set at line 136, the times of a reload, and
    the inputs of a screening. *)
Record PassInput := mkPassInput {
  wall_check : Q;
  wall_mark : Q;
  wall_purge : Q;
  line : string;
  reload_config : bool;
  reload_allow_at : string;
  reload_block_at : string;
  screen_env : ScreenEnv
}.

(** Lines 128-130. *)
Definition purge_if_due (i : PassInput) (s : MainState) : option MainState :=
  if Qlt_bool (inject_Z (blocklist_purge_days * day_secs))
              (wall_check i - blocklist_purge_time s)
  then
    let w := world s in
    match purge_list parse_time (blocklist w) blocklist_file blocklist_lifetime_days
                     (wall_purge i) (files w) with
    | None => None
    | Some (bl, fs) =>
        Some (mkMainState (mkWorld (allowlist w) bl fs (modem w)) (fields s) (wall_mark i))
    end
  else Some s.

(** Lines 127-228: one pass of the loop of [main]; [None] when the pass
    raises or does not come back. *)
Definition main_pass (i : PassInput) (s : MainState) : option MainState :=
  match purge_if_due i s with
  | None => None
  | Some s =>
      match (if reload_config i
             then reload_lists (reload_allow_at i) (reload_block_at i) (world s)
             else Some (world s)) with
      | None => None
      | Some w =>
          match accumulate (fields s) (line i) with
          | (c, false) => Some (mkMainState w c (blocklist_purge_time s))
          | (c, true) =>
              match screen (screen_env i) w c with
              | None => None
              | Some w' => Some (mkMainState w' no_call (blocklist_purge_time s))
              end
          end
      end
  end.

(** The loop over the inputs of successive passes. *)
Fixpoint main_run (inputs : list PassInput) (s : MainState) : option MainState :=
  match inputs with
  | [] => Some s
  | i :: rest =>
      match main_pass i s with
      | Some s' => main_run rest s'
      | None => None
      end
  end.

(** Lines 91-122: the modem is opened (no read timeout), reset and told
    to report Caller ID, both lists are loaded, and the loop starts with
    empty fields and a purge due at once. *)
Definition main_start (now_allow now_block : string) (fs : FS) : option MainState :=
  let m := send_command "AT+VCID=1" true (send_command "ATZ" true (mkModem [] None)) in
  match reload_lists now_allow now_block (mkWorld [] [] fs m) with
  | Some w => Some (mkMainState w no_call 0)
  | None => None
  end.

End Screening.

Arguments World pattern : clear implicits.
Arguments MainState pattern : clear implicits.

(** ** An instance of the [re] interface

    A fragment of Python's pattern language, enough for the patterns the
    examples use: ordinary characters (compared without regard to case),
    [.], the anchors [^] and [$], the escapes [\d \w \s \D \W \S] and an
    escaped punctuation character, and the repeats [*], [+], [?] with
    their lazy forms.  Inside the fragment the instance answers as [re]
    does; a quantifier with nothing to repeat, a repeated repeat, an
    unbalanced [)] and a trailing backslash are the [re.error]s of
    Python.  Groups, alternation, bracket classes, counted repeats and
    the other escapes of letters and digits are outside the fragment and
    are rejected here, which is not what Python does with them. *)

Module PyRe.

Inductive atom :=
| Lit (c : ascii)
| AnyChar
| CharClass (cls : ascii -> bool) (negated : bool).

Inductive piece :=
| One (a : atom)
| Star (a : atom)
| Plus (a : atom)
| Opt (a : atom)
| Bol
| Eol.

Definition lower (c : ascii) : ascii :=
  let n := nat_of_ascii c in
  if ((65 <=? n) && (n <=? 90))%nat then ascii_of_nat (n + 32) else c.

Definition is_digit (c : ascii) : bool :=
  let n := nat_of_ascii c in ((48 <=? n) && (n <=? 57))%nat.

Definition is_alnum (c : ascii) : bool :=
  is_word c && negb (Ascii.eqb c "_").

Definition atom_ok (a : atom) (c : ascii) : bool :=
  match a with
  | Lit l => Ascii.eqb (lower l) (lower c)
  | AnyChar => negb (Ascii.eqb c LF)
  | CharClass cls negated => xorb negated (cls c)
  end.

(** Is there a match of the pieces that starts here?  [at_start] tells
    whether no character has been consumed yet. *)
Fixpoint match_here (ps : list piece) (at_start : bool) (s : string) : bool :=
  match ps with
  | [] => true
  | p :: ps' =>
      let step (a : atom) (k : string -> bool) (s : string) : bool :=
        match s with
        | String c s' => atom_ok a c && k s'
        | EmptyString => false
        end in
      let repeat (a : atom) :=
        fix repeat (at_start : bool) (s : string) : bool :=
          match_here ps' at_start s ||
          match s with
          | String c s' => atom_ok a c && repeat false s'
          | EmptyString => false
          end in
      match p with
      | One a => step a (match_here ps' false) s
      | Opt a => match_here ps' at_start s || step a (match_here ps' false) s
      | Star a => repeat a at_start s
      | Plus a => step a (repeat a false) s
      | Bol => at_start && match_here ps' at_start s
      | Eol => (String.eqb s "" || String.eqb s NL) && match_here ps' at_start s
      end
  end.

(** Where the parser stands: nothing to repeat, an atom that may still
    take a repeat, a repeat that may still be made lazy, or just after a
    backslash. *)
Inductive mode :=
| Fresh
| AfterAtom (a : atom)
| AfterRepeat
| Escaped.

Definition flush (m : mode) (acc : list piece) : list piece :=
  match m with
  | AfterAtom a => One a :: acc
  | _ => acc
  end.

Definition escape_atom (c : ascii) : option atom :=
  if Ascii.eqb c "d" then Some (CharClass is_digit false)
  else if Ascii.eqb c "D" then Some (CharClass is_digit true)
  else if Ascii.eqb c "w" then Some (CharClass is_word false)
  else if Ascii.eqb c "W" then Some (CharClass is_word true)
  else if Ascii.eqb c "s" then Some (CharClass is_space false)
  else if Ascii.eqb c "S" then Some (CharClass is_space true)
  else if is_alnum c then None
  else Some (Lit c).

Definition repeat_piece (c : ascii) (a : atom) : piece :=
  if Ascii.eqb c "*" then Star a
  else if Ascii.eqb c "+" then Plus a
  else Opt a.

(** The pieces of a pattern, last one first in [acc]. *)
Fixpoint parse (m : mode) (acc : list piece) (s : string) : option (list piece) :=
  match s with
  | EmptyString =>
      match m with
      | Escaped => None
      | _ => Some (rev (flush m acc))
      end
  | String c s' =>
      match m with
      | Escaped =>
          match escape_atom c with
          | Some a => parse (AfterAtom a) acc s'
          | None => None
          end
      | _ =>
          if Ascii.eqb c "*" || Ascii.eqb c "+" || Ascii.eqb c "?" then
            match m with
            | AfterAtom a => parse AfterRepeat (repeat_piece c a :: acc) s'
            | AfterRepeat => if Ascii.eqb c "?" then parse Fresh acc s' else None
            | _ => None
            end
          else
            let acc := flush m acc in
            if Ascii.eqb c "\" then parse Escaped acc s'
            else if Ascii.eqb c "." then parse (AfterAtom AnyChar) acc s'
            else if Ascii.eqb c "^" then parse Fresh (Bol :: acc) s'
            else if Ascii.eqb c "$" then parse Fresh (Eol :: acc) s'
            else if Ascii.eqb c "(" || Ascii.eqb c ")" || Ascii.eqb c "["
                    || Ascii.eqb c "{" || Ascii.eqb c "|" then None
            else parse (AfterAtom (Lit c)) acc s'
      end
  end.

(** The vocabulary of the matching properties: a text made of letters
    and digits only, the pieces it compiles to, and [s] starting with
    [p] when case is ignored. *)
Fixpoint all_alnum (s : string) : bool :=
  match s with
  | EmptyString => true
  | String c s' => is_alnum c && all_alnum s'
  end.

Fixpoint literal (p : string) : list piece :=
  match p with
  | EmptyString => []
  | String c p' => One (Lit c) :: literal p'
  end.

Fixpoint startswith_nocase (s p : string) : bool :=
  match p, s with
  | EmptyString, _ => true
  | String a p', String b s' => Ascii.eqb (lower a) (lower b) && startswith_nocase s' p'
  | String _ _, EmptyString => false
  end.

#[export] Instance engine : RegexLib (list piece) := {|
  re_compile := parse Fresh [];
  re_match := fun ps s => match_here ps true s
|}.

End PyRe.

#[global] Existing Instance PyRe.engine.

(** A clock table for the examples: the minutes it knows, as seconds
    since the epoch in UTC; any other text fails to parse. *)
Definition example_parse_time (text : string) : option Q :=
  if String.eqb text "2021-01-01 00:00" then Some (inject_Z 1609459200)
  else if String.eqb text "2021-10-06 17:01" then Some (inject_Z 1633539660)
  else if String.eqb text "2021-10-06 17:02" then Some (inject_Z 1633539720)
  else None.

(** ** Data of the examples *)

Module Sample.

(** An allow list with one permanent entry, and a block list with the
    entry [^555] and one entry whose pattern holds an escaped
    semicolon. *)
Definition files0 : FS :=
  <["allowlist.dat" := "^Mom;p;family" +:+ NL]>
    (<["blocklist.dat" := "^555;;robocalls" +:+ NL +:+ "a\;b;;two parts" +:+ NL]> ∅).

Definition modem0 : Modem := mkModem [] None.

(** The lists as [main] loads them at 17:01 on 2021-10-06. *)
Definition world0 : option (World (list PyRe.piece)) :=
  reload_lists "2021-10-06 17:01" "2021-10-06 17:01"
    (mkWorld (pattern := list PyRe.piece) [] [] files0 modem0).

(** A call from 5551234 at 15:30 on April 12th. *)
Definition call0 : CallerId := mkCallerId "0412" "1530" "5551234" "BOB".

(** A screening in 2021 during which nothing comes from the modem. *)
Definition env0 : ScreenEnv := mkScreenEnv "2021" 0 [] "2021-04-12 15:31".

(** The handset is picked up and the star key pressed: the six bytes of
    the marker arrive one a second, and the loop condition is read once
    more. *)
Definition star_pressed : list StarObs :=
  [mkStarObs 1 (Some DLE) 1; mkStarObs 2 (Some Byte.x2f) 2;
   mkStarObs 3 (Some DLE) 3; mkStarObs 4 (Some Byte.x2a) 4;
   mkStarObs 5 (Some DLE) 5; mkStarObs 6 (Some Byte.x7e) 6;
   mkStarObs 7 None 7].

(** The phone rings once, two seconds in, and nothing else comes: the
    reads time out second after second, and the loop condition fails at
    the twelfth second, ten seconds after the ring. *)
Definition ring_then_silence : list StarObs :=
  [mkStarObs 1 (Some DLE) 1; mkStarObs 2 (Some Byte.x52) 2;
   mkStarObs 3 None 3; mkStarObs 4 None 4; mkStarObs 5 None 5; mkStarObs 6 None 6;
   mkStarObs 7 None 7; mkStarObs 8 None 8; mkStarObs 9 None 9; mkStarObs 10 None 10;
   mkStarObs 11 None 11; mkStarObs 12 None 12].

Definition env_star : ScreenEnv := mkScreenEnv "2021" 0 star_pressed "2021-04-12 15:31".

(** A world with both lists empty and no files. *)
Definition empty_world : World (list PyRe.piece) :=
  mkWorld (pattern := list PyRe.piece) [] [] ∅ modem0.

(** A call that came without a number, and calls from numbers that are
    not patterns. *)
Definition call_no_number : CallerId := mkCallerId "0412" "1530" "" "".
Definition call_plus : CallerId := mkCallerId "0412" "1530" "+15551234" "".
Definition call_new : CallerId := mkCallerId "0412" "1530" "8005550100" "".

(** A block list whose only entry, not permanent, was last matched on the
    first day of 2021, and a [.dat] file that no longer names it. *)
Definition stale_list : PList (list PyRe.piece) :=
  [("abc", mkItem
             [PyRe.One (PyRe.Lit "a"); PyRe.One (PyRe.Lit "b"); PyRe.One (PyRe.Lit "c")]
             "2021-01-01 00:00" 3 false "telemarketer")].

Definition edited_files : FS := <["blocklist.dat" := "xyz;;somebody else" +:+ NL]> ∅.

(** The same list with its [.dat] file, which also holds a permanent
    entry and a comment. *)
Definition stale_files : FS :=
  <["blocklist.dat" := "# my block list" +:+ NL +:+ "abc;;telemarketer" +:+ NL
                       +:+ "^Mom;p;family" +:+ NL]> ∅.

Definition stale_list2 : PList (list PyRe.piece) :=
  stale_list ++
  [("^Mom", mkItem
              [PyRe.Bol; PyRe.One (PyRe.Lit "M"); PyRe.One (PyRe.Lit "o");
               PyRe.One (PyRe.Lit "m")]
              "2021-01-01 00:00" 0 true "family")].

(** A purge in November 2023. *)
Definition late : Q := inject_Z 1700000000.

(** A [.dat] file whose first pattern is not a regular expression (a
    repeat with nothing to repeat). *)
Definition bad_files : FS :=
  <["blocklist.dat" := "*67;;not a pattern" +:+ NL +:+ "^555;;robocalls" +:+ NL]> ∅.

(** The block list of [files0] as [read_list] builds it. *)
Definition loaded_block : PList (list PyRe.piece) :=
  [("^555", mkItem [PyRe.Bol; PyRe.One (PyRe.Lit "5"); PyRe.One (PyRe.Lit "5");
                    PyRe.One (PyRe.Lit "5")]
              "2021-10-06 17:01" 0 false "robocalls");
   ("a;b", mkItem [PyRe.One (PyRe.Lit "a"); PyRe.One (PyRe.Lit ";");
                   PyRe.One (PyRe.Lit "b")]
             "2021-10-06 17:01" 0 false "two parts")].

(** The files after [update_list_match] has written the history of the
    block list just loaded, and after it has written it with one match
    of [a;b] recorded. *)
Definition files_written : FS := update_list_match loaded_block "blocklist.dat" files0.

Definition matched_block : PList (list PyRe.piece) :=
  fst (match_list loaded_block "a;b again" "2021-04-12 15:30").

Definition files_matched : FS := update_list_match matched_block "blocklist.dat" files0.

(** The screening of a call by a world that was loaded. *)
Definition screened (env : ScreenEnv) (c : CallerId)
    (w : option (World (list PyRe.piece))) : option (World (list PyRe.piece)) :=
  match w with
  | Some w => screen env w c
  | None => None
  end.

(** The passes of the loop for one call from 5551234, a RING before its
    Caller ID, with nothing to purge and no reload. *)
Definition pass (text : string) : PassInput := mkPassInput 0 0 0 text false "" "" env0.

Definition call_passes : list PassInput :=
  map pass ["RING"; "DATE = 0412"; "TIME = 1530"; "NMBR = 5551234"; "NAME = BOB"].

(** The program started on [files0] and run over these passes. *)
Definition started : option (MainState (list PyRe.piece)) :=
  main_start "2021-10-06 17:01" "2021-10-06 17:01" files0.

Definition run_call : option (MainState (list PyRe.piece)) :=
  match started with
  | Some s0 => main_run example_parse_time call_passes s0
  | None => None
  end.

(** What an entry remembers of its matches. *)
Definition history {pattern : Type} (key : string) (l : PList pattern)
  : option (string * Z) :=
  option_map (fun it => (timestamp it, count it)) (dict_get key l).

End Sample.

(** ** The replies of the modem *)

Module Link.

(** [Modem.read_line], with [reads] the texts that the successive calls
    of [self.readline(200).decode()] give (an empty text when a read
    timed out): the first of them that is not empty once its line ends
    are removed, and the reads left over; [None] when the loop is still
    waiting as the reads run out. *)
Fixpoint read_line (reads : list string) : option (string * list string) :=
  match reads with
  | [] => None
  | r :: rest =>
      let line := remove_nl r in
      if truthy line then Some (line, rest) else read_line rest
  end.

(** [Modem.send_command] with its replies: the port after the write, the
    value returned and the reads left over.  [reads] are the texts that
    arrive after [reset_input_buffer]. *)
Definition send_command (command : string) (wait : bool) (m : Modem) (reads : list string)
  : option (Modem * bool * list string) :=
  let m := send_command command wait m in
  if negb wait then Some (m, true, reads)
  else
    match read_line reads with
    | None => None
    | Some (line, rest) =>
        if String.eqb line command then
          match read_line rest with
          | None => None
          | Some (line, rest) => Some (m, String.eqb line "OK", rest)
          end
        else Some (m, String.eqb line "OK", rest)
    end.

(** The reads that count: the lines that are not blank, without their
    line ends. *)
Definition replies (reads : list string) : list string :=
  List.filter truthy (map remove_nl reads).

End Link.

(** ** Further vocabulary of the properties *)


(** A text without line feed and carriage return. *)
Definition nl_free (s : string) : Prop :=
  has_char LF s = false /\ has_char CR s = false.

(** The four fields of a record are free of line ends. *)
Definition clean_call (c : CallerId) : Prop :=
  nl_free (call_date c) /\ nl_free (call_time c)
  /\ nl_free (call_number c) /\ nl_free (call_name c).

(** A pattern as a [.dat] file writes it: a backslash before every
    semicolon. *)
Fixpoint escape_semicolons (p : string) : string :=
  match p with
  | EmptyString => EmptyString
  | String c p' =>
      if Ascii.eqb c ";" then String "\" (String ";" (escape_semicolons p'))
      else String c (escape_semicolons p')
  end.

(** The contents of the call log, empty while the file does not exist. *)
Definition log_text (fs : FS) : string :=
  match fs !! calllog_file with Some text => text | None => "" end.

(** Two entries with the same pattern, flags and note. *)
Definition same_entry {pattern : Type} (a b : Item pattern) : Prop :=
  regex a = regex b /\ permanent a = permanent b /\ note a = note b.

(** An entry as a load without history gives it: the time of the load
    and a count of zero. *)
Definition restarted {pattern : Type} (now : string) (it : Item pattern) : Item pattern :=
  mkItem (regex it) now 0 (permanent it) (note it).


(** An entry whose history line is one line of the history file: no
    line end in the pattern text or in the timestamp, and no semicolon
    in the timestamp. *)
Definition clean_entry {pattern : Type} (e : string * Item pattern) : Prop :=
  nl_free (fst e) /\ nl_free (timestamp (snd e))
  /\ has_char ";" (timestamp (snd e)) = false.

(** The history that the lines written for the entries [es] give back
    to a list [cur]: entry by entry, the timestamp and the count of a
    pattern without a semicolon that [cur] holds. *)
Definition apply_history {pattern : Type} (es cur : PList pattern) : PList pattern :=
  fold_left
    (fun cur e =>
       if has_char ";" (fst e) then cur
       else match dict_get (fst e) cur with
            | Some old =>
                dict_set (fst e)
                  (mkItem (regex old) (timestamp (snd e)) (count (snd e))
                     (permanent old) (note old)) cur
            | None => cur
            end)
    es cur.

(** The sum of the counts of a list. *)
Definition total_count {pattern : Type} (l : PList pattern) : Z :=
  fold_right (fun e acc => (count (snd e) + acc)%Z) 0%Z l.

(** The values of [match] that line 221 writes to the call log. *)
Definition outcomes : list string :=
  ["allow"; "block"; "no match"; "added to block by user * key"].

(** A text that is one line: a body without a line feed, and the line
    feed that ends it. *)
Definition one_line (text : string) : Prop :=
  exists body, text = body +:+ NL /\ has_char LF body = false.


(** The shape of the lines of a text file: every line but the last is
    a body and its line feed; the last may lack the line feed. *)
Definition whole_line (x : string) : Prop :=
  exists body, x = body +:+ NL /\ nl_free body.

Definition open_line (x : string) : Prop := x <> "" /\ nl_free x.

Fixpoint lines_shaped (xs : list string) : Prop :=
  match xs with
  | [] => True
  | [x] => whole_line x \/ open_line x
  | x :: rest => whole_line x /\ lines_shaped rest
  end.

(** A text without line ends and without a semicolon: one that can be a
    field of a history line. *)
Definition plain (s : string) : Prop := nl_free s /\ has_char ";" s = false.

(** * Properties *)

(** ** Strings *)

Lemma ascii_eqb_true (a b : ascii) : Ascii.eqb a b = true -> a = b.
Proof. apply Ascii.eqb_eq. Qed.

Lemma startswith_app (s p : string) :
  startswith s p = true -> exists rest, s = p +:+ rest.
Proof.
  revert s. induction p as [|a p IH]; intros s Hs.
  - exists s. reflexivity.
  - destruct s as [|b s]; simpl in Hs; [discriminate|].
    apply andb_prop in Hs. destruct Hs as [Hab Hs].
    apply ascii_eqb_true in Hab. subst b.
    destruct (IH _ Hs) as [rest ->]. exists rest. reflexivity.
Qed.

Lemma startswith_empty (s : string) : startswith s "" = true.
Proof. destruct s; reflexivity. Qed.

Lemma append_assoc (a b c : string) : (a +:+ b) +:+ c = a +:+ (b +:+ c).
Proof.
  induction a as [|x a IH]; [reflexivity|].
  change (String x ((a +:+ b) +:+ c) = String x (a +:+ (b +:+ c))).
  rewrite IH. reflexivity.
Qed.

Lemma append_nil_r (a : string) : a +:+ "" = a.
Proof.
  induction a as [|x a IH]; [reflexivity|].
  change (String x (a +:+ "") = String x a). rewrite IH. reflexivity.
Qed.

Lemma truthy_true (s : string) : truthy s = true <-> s <> "".
Proof. destruct s; simpl; split; congruence. Qed.

Lemma truthy_false (s : string) : truthy s = false <-> s = "".
Proof. destruct s; simpl; split; congruence. Qed.

(** ** The accumulator *)

(** A line that starts with one key does not start with another. *)
Ltac other_key H key :=
  let r := fresh "rest" in
  let E := fresh "Hkey" in
  match type of H with
  | startswith ?line _ = true =>
      assert (E : startswith line key = false)
        by (destruct (startswith_app _ _ H) as [r ->]; reflexivity);
      revert E
  end.

Ltac by_key H :=
  unfold accumulate;
  try (other_key H "RING"; intros ->);
  try (other_key H "DATE"; intros ->);
  try (other_key H "TIME"; intros ->);
  try (other_key H "NMBR"; intros ->);
  rewrite H.

Lemma accumulate_ring st line :
  startswith line "RING" = true -> accumulate st line = (st, truthy (call_date st)).
Proof. intros Hr. unfold accumulate. rewrite Hr. reflexivity. Qed.

Lemma accumulate_date st line :
  startswith line "DATE" = true ->
  accumulate st line
  = (mkCallerId (strip_key line) (call_time st) (call_number st) (call_name st), false).
Proof. intros Hd. by_key Hd. reflexivity. Qed.

Lemma accumulate_time st line :
  startswith line "TIME" = true ->
  accumulate st line
  = (mkCallerId (call_date st) (strip_key line) (call_number st) (call_name st), false).
Proof. intros Hd. by_key Hd. reflexivity. Qed.

Lemma accumulate_nmbr st line :
  startswith line "NMBR" = true ->
  accumulate st line
  = (mkCallerId (call_date st) (call_time st) (strip_key line) (call_name st), false).
Proof. intros Hd. by_key Hd. reflexivity. Qed.

Lemma accumulate_name st line :
  startswith line "NAME" = true ->
  accumulate st line
  = (mkCallerId (call_date st) (call_time st) (call_number st) (strip_key line),
     truthy (call_date st)).
Proof. intros Hd. by_key Hd. reflexivity. Qed.

(** Control falls through to the screening code on a NAME or a RING line
    with a date in hand, and on no other line. *)
Lemma accumulate_complete st line :
  snd (accumulate st line) = true <->
  (startswith line "NAME" = true \/ startswith line "RING" = true) /\ call_date st <> "".
Proof.
  destruct (startswith line "RING") eqn:Hr.
  { rewrite (accumulate_ring _ _ Hr). simpl. rewrite truthy_true. intuition. }
  destruct (startswith line "NAME") eqn:Hm.
  { rewrite (accumulate_name _ _ Hm). simpl. rewrite truthy_true. intuition. }
  unfold accumulate. rewrite Hr, Hm.
  repeat match goal with |- context [if ?b then _ else _] => destruct b end;
    simpl; intuition discriminate.
Qed.

Lemma feed_emits st line r :
  snd (feed st line) = Some r ->
  fst (feed st line) = no_call /\ fst (accumulate st line) = r
  /\ snd (accumulate st line) = true.
Proof.
  unfold feed. destruct (accumulate st line) as [st' [|]]; simpl; intros Hr.
  - inversion Hr. auto.
  - discriminate.
Qed.

Lemma feed_emits_iff st line :
  (exists r, snd (feed st line) = Some r) <-> snd (accumulate st line) = true.
Proof.
  unfold feed. destruct (accumulate st line) as [st' [|]]; simpl; split; eauto.
  - intros [r Hr]. discriminate.
  - discriminate.
Qed.

Lemma feed_ring st line :
  startswith line "RING" = true ->
  feed st line = if truthy (call_date st) then (no_call, Some st) else (st, None).
Proof. intros Hr. unfold feed. rewrite (accumulate_ring _ _ Hr). reflexivity. Qed.

Lemma feed_name st line :
  startswith line "NAME" = true ->
  feed st line =
  let st' := mkCallerId (call_date st) (call_time st) (call_number st) (strip_key line) in
  if truthy (call_date st) then (no_call, Some st') else (st', None).
Proof. intros Hm. unfold feed. rewrite (accumulate_name _ _ Hm). reflexivity. Qed.

Lemma feed_date st line :
  startswith line "DATE" = true ->
  feed st line
  = (mkCallerId (strip_key line) (call_time st) (call_number st) (call_name st), None).
Proof. intros Hd. unfold feed. rewrite (accumulate_date _ _ Hd). reflexivity. Qed.

Lemma feed_time st line :
  startswith line "TIME" = true ->
  feed st line
  = (mkCallerId (call_date st) (strip_key line) (call_number st) (call_name st), None).
Proof. intros Hd. unfold feed. rewrite (accumulate_time _ _ Hd). reflexivity. Qed.

Lemma feed_nmbr st line :
  startswith line "NMBR" = true ->
  feed st line
  = (mkCallerId (call_date st) (call_time st) (strip_key line) (call_name st), None).
Proof. intros Hd. unfold feed. rewrite (accumulate_nmbr _ _ Hd). reflexivity. Qed.

(** The fields of [main] evolve from pass to pass as [feed] says,
    whatever the purge, the reload and the screening of the pass do. *)
Lemma main_pass_fields {pattern : Type} `{RegexLib pattern} parse_time i s s' :
  main_pass parse_time i s = Some s' ->
  fields s' = fst (feed (fields s) (line i)).
Proof.
  unfold main_pass, purge_if_due, feed.
  destruct (Qlt_bool _ _).
  - destruct (purge_list _ _ _ _ _ _) as [[bl fs]|]; [simpl|discriminate].
    destruct (if reload_config i then _ else _); [|discriminate].
    destruct (accumulate (fields s) (line i)) as [c [|]]; simpl.
    + destruct (screen _ _ _); [|discriminate]. intros [= <-]. reflexivity.
    + intros [= <-]. reflexivity.
  - destruct (if reload_config i then _ else _); [|discriminate].
    destruct (accumulate (fields s) (line i)) as [c [|]]; simpl.
    + destruct (screen _ _ _); [|discriminate]. intros [= <-]. reflexivity.
    + intros [= <-]. reflexivity.
Qed.

Lemma main_run_fields {pattern : Type} `{RegexLib pattern} parse_time inputs :
  forall s s',
  main_run parse_time inputs s = Some s' ->
  fields s' = fst (feed_lines (fields s) (map line inputs)).
Proof.
  induction inputs as [|i inputs IH]; intros s s'; cbn [main_run map feed_lines].
  - intros [= <-]. reflexivity.
  - destruct (main_pass parse_time i s) as [s1|] eqn:H1; [|discriminate].
    intros Hrun. rewrite (IH _ _ Hrun), (main_pass_fields _ _ _ _ H1).
    destruct (feed (fields s) (line i)) as [st' [r|]]; cbn [fst];
      [destruct (feed_lines st' (map line inputs))|]; reflexivity.
Qed.

(** C1. A Caller ID record is handed to the screening code on exactly two
    paths: a NAME line or a RING line, each with a date already captured
    (with no date neither emits anything); the four fields are empty
    again right after each hand-off; the sequence DATE, TIME, NMBR, NAME
    yields exactly one record, and so does DATE, TIME, NMBR, RING, at the
    RING; the fields of the main loop follow the same function. *)
Theorem C1_record_completed_by_name_or_ring_after_date :
  (forall st line,
     (exists r, snd (feed st line) = Some r) <->
     (startswith line "NAME" = true \/ startswith line "RING" = true)
     /\ call_date st <> "")
  /\ (forall st line r, snd (feed st line) = Some r -> fst (feed st line) = no_call)
  /\ (forall st line r,
        snd (feed st line) = Some r ->
        r = if startswith line "RING" then st
            else mkCallerId (call_date st) (call_time st) (call_number st) (strip_key line))
  /\ (forall st d t n m,
        startswith d "DATE" = true -> startswith t "TIME" = true ->
        startswith n "NMBR" = true -> startswith m "NAME" = true ->
        strip_key d <> "" ->
        feed_lines st [d; t; n; m]
        = (no_call, [mkCallerId (strip_key d) (strip_key t) (strip_key n) (strip_key m)]))
  /\ (forall st d t n g,
        startswith d "DATE" = true -> startswith t "TIME" = true ->
        startswith n "NMBR" = true -> startswith g "RING" = true ->
        strip_key d <> "" ->
        feed_lines st [d; t; n] = (mkCallerId (strip_key d) (strip_key t) (strip_key n)
                                     (call_name st), [])
        /\ feed_lines st [d; t; n; g]
           = (no_call, [mkCallerId (strip_key d) (strip_key t) (strip_key n) (call_name st)]))
  /\ feed_lines no_call ["DATE = 0412"; "TIME = 1530"; "NMBR = 5551234"; "NAME = BOB"]
     = (no_call, [mkCallerId "0412" "1530" "5551234" "BOB"])
  /\ feed_lines no_call ["DATE = 0412"; "TIME = 1530"; "NMBR = 5551234"; "RING"]
     = (no_call, [mkCallerId "0412" "1530" "5551234" ""])
  /\ (forall (pattern : Type) (E : RegexLib pattern) parse_time i s s',
        main_pass parse_time i s = Some s' ->
        fields s' = fst (feed (fields s) (line i)))
  /\ (forall (pattern : Type) (E : RegexLib pattern) parse_time inputs s s',
        main_run parse_time inputs s = Some s' ->
        fields s' = fst (feed_lines (fields s) (map line inputs))).
Proof.
  split; [|split; [|split; [|split; [|split; [|split; [|split; [|split]]]]]]].
  - intros st line. rewrite feed_emits_iff. apply accumulate_complete.
  - intros st line r Hr. apply (feed_emits _ _ _ Hr).
  - intros st line r Hr.
    destruct (feed_emits _ _ _ Hr) as (_ & Hacc & Hc).
    apply accumulate_complete in Hc. destruct Hc as [[Hm|Hg] _].
    + rewrite (accumulate_name _ _ Hm) in Hacc. simpl in Hacc. subst r.
      other_key Hm "RING". intros ->. reflexivity.
    + rewrite (accumulate_ring _ _ Hg) in Hacc. simpl in Hacc. subst r.
      rewrite Hg. reflexivity.
  - intros st d t n m Hd Ht Hn Hm Hne.
    cbn [feed_lines].
    rewrite (feed_date _ _ Hd), (feed_time _ _ Ht), (feed_nmbr _ _ Hn), (feed_name _ _ Hm).
    cbn [call_date call_time call_number call_name].
    apply truthy_true in Hne. rewrite Hne. reflexivity.
  - intros st d t n g Hd Ht Hn Hg Hne.
    cbn [feed_lines].
    rewrite (feed_date _ _ Hd), (feed_time _ _ Ht), (feed_nmbr _ _ Hn), (feed_ring _ _ Hg).
    cbn [call_date call_time call_number call_name].
    apply truthy_true in Hne. rewrite Hne. split; reflexivity.
  - reflexivity.
  - reflexivity.
  - intros pattern E parse_time i s s'. apply main_pass_fields.
  - intros pattern E parse_time inputs s s'. apply main_run_fields.
Qed.

(** C7, as stated, fails: with a date in hand a RING line hands the
    record off. *)
Lemma C7_counterexample_ring_after_date_emits :
  ~ (forall st line, startswith line "RING" = true -> snd (feed st line) = None).
Proof.
  intros Hall.
  specialize (Hall (mkCallerId "0412" "1530" "5551234" "") "RING" eq_refl).
  discriminate Hall.
Qed.

(** C7, amended. A RING line is ignored for record completion only while
    no date has been captured; a RING line that arrives with a date in
    hand completes the record as it stands and resets the fields. *)
Theorem C7_ring_completes_record_only_after_date (st : CallerId) (line : string) :
  startswith line "RING" = true ->
  (call_date st = "" -> feed st line = (st, None))
  /\ (call_date st <> "" -> feed st line = (no_call, Some st)).
Proof.
  intros Hr. rewrite (feed_ring _ _ Hr). split.
  - intros ->. reflexivity.
  - intros Hne. apply truthy_true in Hne. rewrite Hne. reflexivity.
Qed.

(** C7, amended, on a RING line without and with a date in hand. *)
Lemma C7_ring_completes_record_only_after_date_witness :
  startswith "RING" "RING" = true
  /\ (call_date no_call = ""
      /\ feed no_call "RING" = (no_call, None))
  /\ (call_date (mkCallerId "0412" "1530" "5551234" "") <> ""
      /\ feed (mkCallerId "0412" "1530" "5551234" "") "RING"
         = (no_call, Some (mkCallerId "0412" "1530" "5551234" ""))).
Proof.
  split; [reflexivity|]. split.
  - split; [reflexivity|].
    apply (C7_ring_completes_record_only_after_date no_call "RING"); reflexivity.
  - split; [discriminate|].
    apply (C7_ring_completes_record_only_after_date
             (mkCallerId "0412" "1530" "5551234" "") "RING"); [reflexivity|discriminate].
Defined.

(** ** Matching a list *)

Section MatchFacts.
Context {pattern : Type} `{RegexLib pattern}.

Lemma match_list_miss l candidate ts :
  snd (match_list l candidate ts) = false <-> Forall (misses candidate) l.
Proof.
  induction l as [|[k it] l IH]; simpl.
  - split; auto.
  - destruct (re_match (regex it) candidate) eqn:Hm; simpl.
    + split; [discriminate|]. intros Hall. inversion Hall as [|? ? Hk _]; subst.
      unfold misses in Hk. simpl in Hk. congruence.
    + destruct (match_list l candidate ts) as [l' hit]. simpl in *.
      rewrite IH. split.
      * intros Hall. constructor; assumption.
      * intros Hall. inversion Hall; assumption.
Qed.

Lemma match_list_miss_unchanged l candidate ts :
  snd (match_list l candidate ts) = false -> fst (match_list l candidate ts) = l.
Proof.
  induction l as [|[k it] l IH]; simpl; [reflexivity|].
  destruct (re_match (regex it) candidate); simpl; [discriminate|].
  destruct (match_list l candidate ts) as [l' hit]. simpl in *.
  intros Hh. rewrite (IH Hh). reflexivity.
Qed.

(** A hit stops at the first entry that matches and updates that entry
    alone. *)
Lemma match_list_first pre k it post candidate ts :
  Forall (misses candidate) pre ->
  re_match (regex it) candidate = true ->
  match_list (pre ++ (k, it) :: post) candidate ts
  = (pre ++ (k, matched ts it) :: post, true).
Proof.
  intros Hpre Hit. induction Hpre as [|[k' it'] pre Hk _ IH]; simpl.
  - rewrite Hit. reflexivity.
  - unfold misses in Hk. simpl in Hk. rewrite Hk, IH. reflexivity.
Qed.

Lemma match_list_hit l candidate ts :
  snd (match_list l candidate ts) = true ->
  exists pre k it post,
    l = pre ++ (k, it) :: post /\ Forall (misses candidate) pre
    /\ re_match (regex it) candidate = true.
Proof.
  induction l as [|[k it] l IH]; simpl; [discriminate|].
  destruct (re_match (regex it) candidate) eqn:Hm.
  - intros _. exists [], k, it, l. repeat split; auto.
  - destruct (match_list l candidate ts) as [l' hit]. simpl in *.
    intros Hh. destruct (IH Hh) as (pre & k' & it' & post & -> & Hpre & Hit).
    exists ((k, it) :: pre), k', it', post. repeat split; auto.
Qed.

Lemma match_list_hit_iff l candidate ts :
  snd (match_list l candidate ts) = true <->
  exists k it, In (k, it) l /\ re_match (regex it) candidate = true.
Proof.
  split.
  - intros Hh. destruct (match_list_hit _ _ _ Hh) as (pre & k & it & post & -> & _ & Hit).
    exists k, it. split; [|assumption]. apply in_or_app. right. left. reflexivity.
  - intros (k & it & Hin & Hit).
    destruct (snd (match_list l candidate ts)) eqn:Hs; [reflexivity|].
    apply match_list_miss in Hs. rewrite List.Forall_forall in Hs.
    specialize (Hs _ Hin). unfold misses in Hs. simpl in Hs. congruence.
Qed.

End MatchFacts.

(** ** Patterns made of letters and digits *)

Lemma alnum_differs (c special : ascii) :
  PyRe.is_alnum c = true -> PyRe.is_alnum special = false -> Ascii.eqb c special = false.
Proof.
  intros Hc Hs. destruct (Ascii.eqb c special) eqn:He; [|reflexivity].
  apply ascii_eqb_true in He. subst. congruence.
Qed.

Lemma parse_after_alnum (c : ascii) (p : string) m acc :
  m <> PyRe.Escaped -> PyRe.is_alnum c = true ->
  PyRe.parse m acc (String c p)
  = PyRe.parse (PyRe.AfterAtom (PyRe.Lit c)) (PyRe.flush m acc) p.
Proof.
  intros Hm Hc. destruct m; [| | |contradiction]; cbn [PyRe.parse];
    repeat match goal with
           | |- context [Ascii.eqb c ?x] => rewrite (alnum_differs c x Hc eq_refl)
           end; reflexivity.
Qed.

Lemma parse_literal (p : string) : forall a acc,
  PyRe.all_alnum p = true ->
  PyRe.parse (PyRe.AfterAtom a) acc p = Some (rev acc ++ PyRe.One a :: PyRe.literal p).
Proof.
  induction p as [|c p IH]; intros a acc Hp.
  - reflexivity.
  - cbn [PyRe.all_alnum] in Hp. apply andb_prop in Hp. destruct Hp as [Hc Hp].
    rewrite parse_after_alnum by (discriminate || assumption).
    cbn [PyRe.flush]. rewrite (IH _ _ Hp). cbn [rev PyRe.literal].
    rewrite <- app_assoc. reflexivity.
Qed.

(** A pattern of letters and digits compiles, and matches exactly the
    candidates that start with it when case is ignored. *)
Lemma compile_literal (p : string) :
  PyRe.all_alnum p = true ->
  re_compile (RegexLib := PyRe.engine) p = Some (PyRe.literal p).
Proof.
  destruct p as [|c p]; [reflexivity|]. intros Hp.
  cbn [PyRe.all_alnum] in Hp. apply andb_prop in Hp. destruct Hp as [Hc Hp].
  change (PyRe.parse PyRe.Fresh [] (String c p) = Some (PyRe.literal (String c p))).
  rewrite parse_after_alnum by (discriminate || assumption).
  apply (parse_literal p _ [] Hp).
Qed.

Lemma match_literal (p : string) : forall at_start s,
  PyRe.match_here (PyRe.literal p) at_start s = PyRe.startswith_nocase s p.
Proof.
  induction p as [|c p IH]; intros at_start s; [destruct s; reflexivity|].
  cbn [PyRe.literal PyRe.match_here PyRe.startswith_nocase].
  destruct s as [|x s]; [reflexivity|]. cbn [PyRe.atom_ok]. rewrite IH. reflexivity.
Qed.

(** C4. [match_list] returns true exactly when some entry's compiled
    pattern matches the candidate; on a hit the first matching entry, in
    list order, gets the supplied timestamp and its count raised by one,
    every other entry is left alone; on a miss it returns false and the
    list is unchanged.  Matching is [re.match] under [re.IGNORECASE]: a
    pattern of letters and digits matches exactly the candidates that
    start with it when case is ignored; pattern [abc] matches [ABCDEF]
    and does not match [xabc]. *)
Theorem C4_match_list_first_hit_updates :
  (forall (pattern : Type) (E : RegexLib pattern) (l : PList pattern) (candidate ts : string),
     (snd (match_list l candidate ts) = true <->
      exists k it, In (k, it) l /\ re_match (regex it) candidate = true)
     /\ (snd (match_list l candidate ts) = true ->
         exists pre k it post,
           l = pre ++ (k, it) :: post
           /\ Forall (misses candidate) pre
           /\ re_match (regex it) candidate = true
           /\ fst (match_list l candidate ts)
              = pre ++ (k, mkItem (regex it) ts (count it + 1) (permanent it) (note it))
                       :: post)
     /\ (snd (match_list l candidate ts) = false ->
         fst (match_list l candidate ts) = l))
  /\ (forall p candidate,
        PyRe.all_alnum p = true ->
        exists compiled,
          re_compile (RegexLib := PyRe.engine) p = Some compiled
          /\ re_match compiled candidate = PyRe.startswith_nocase candidate p)
  /\ (exists abc,
        re_compile (RegexLib := PyRe.engine) "abc" = Some abc
        /\ re_match abc "ABCDEF" = true
        /\ re_match abc "xabc" = false
        /\ (forall it ts,
              regex it = abc ->
              match_list [("abc", it)] "ABCDEF" ts
              = ([("abc", mkItem abc ts (count it + 1) (permanent it) (note it))], true)
              /\ match_list [("abc", it)] "xabc" ts = ([("abc", it)], false))).
Proof.
  split.
  - intros pattern E l candidate ts. split; [apply match_list_hit_iff|]. split.
    + intros Hh.
      destruct (match_list_hit _ _ _ Hh) as (pre & k & it & post & -> & Hpre & Hit).
      exists pre, k, it, post. repeat split; auto.
      rewrite (match_list_first pre k it post candidate ts Hpre Hit). reflexivity.
    + apply match_list_miss_unchanged.
  - split.
    + intros p candidate Hp. exists (PyRe.literal p).
      split; [apply compile_literal; assumption|apply match_literal].
    + eexists. split; [reflexivity|]. split; [reflexivity|]. split; [reflexivity|].
      intros it ts Hit. simpl. rewrite Hit. split; reflexivity.
Qed.

(** ** Dictionaries *)

Section DictFacts.
Context {pattern : Type} `{RegexLib pattern}.

Lemma dict_get_set_same key it (l : PList pattern) :
  dict_get key (dict_set key it l) = Some it.
Proof.
  induction l as [|[k old] l IH]; simpl.
  - rewrite String.eqb_refl. reflexivity.
  - destruct (String.eqb k key) eqn:Hk; simpl; rewrite Hk; auto.
Qed.

Lemma dict_get_set_other key key' it (l : PList pattern) :
  key <> key' -> dict_get key' (dict_set key it l) = dict_get key' l.
Proof.
  intros Hne. induction l as [|[k old] l IH]; simpl.
  - destruct (String.eqb key key') eqn:Hk; [|reflexivity].
    apply String.eqb_eq in Hk. contradiction.
  - destruct (String.eqb k key) eqn:Hk; simpl.
    + apply String.eqb_eq in Hk. subst k.
      destruct (String.eqb key key') eqn:Hk'; [|reflexivity].
      apply String.eqb_eq in Hk'. contradiction.
    + destruct (String.eqb k key'); auto.
Qed.

Lemma dict_get_in key it (l : PList pattern) : dict_get key l = Some it -> In (key, it) l.
Proof.
  induction l as [|[k old] l IH]; simpl; [discriminate|].
  destruct (String.eqb k key) eqn:Hk.
  - apply String.eqb_eq in Hk. intros [= ->]. left. congruence.
  - intros Hg. right. auto.
Qed.

Lemma dict_set_in key it (l : PList pattern) e :
  In e (dict_set key it l) -> e = (key, it) \/ In e l.
Proof.
  induction l as [|[k old] l IH]; simpl.
  - intros [<-|[]]. auto.
  - destruct (String.eqb k key) eqn:Hk; simpl.
    + apply String.eqb_eq in Hk. subst k. intros [<-|Hin]; auto.
    + intros [<-|Hin]; auto. destruct (IH Hin); auto.
Qed.

Lemma dict_del_in key (l : PList pattern) e : In e (dict_del key l) -> In e l.
Proof.
  induction l as [|[k old] l IH]; simpl; [auto|].
  destruct (String.eqb k key); simpl; intuition.
Qed.

Lemma match_list_both_miss_unchanged (l : PList pattern) number name ts :
  snd (match_list_both l number name ts) = false ->
  fst (match_list_both l number name ts) = l.
Proof.
  unfold match_list_both.
  destruct (match_list l number ts) as [l1 h1] eqn:H1.
  destruct h1; simpl; [discriminate|].
  assert (Hl1 : l1 = l).
  { pose proof (match_list_miss_unchanged l number ts) as Hm.
    rewrite H1 in Hm. simpl in Hm. auto. }
  subst l1. apply match_list_miss_unchanged.
Qed.

End DictFacts.

(** ** Files *)

Lemma append_file_same path text (fs : FS) :
  append_file path text fs !! path
  = Some (match fs !! path with Some old => old | None => "" end +:+ text).
Proof. unfold append_file. apply lookup_insert_eq. Qed.

Lemma append_file_other path path' text (fs : FS) :
  path <> path' -> append_file path text fs !! path' = fs !! path'.
Proof. intros Hne. unfold append_file. apply lookup_insert_ne. assumption. Qed.

Lemma update_list_match_other {pattern : Type} (l : PList pattern) list_file path
    (fs : FS) :
  list_file +:+ "-match" <> path -> update_list_match l list_file fs !! path = fs !! path.
Proof. intros Hne. unfold update_list_match. apply lookup_insert_ne. assumption. Qed.

Lemma has_char_app c (a b : string) :
  has_char c (a +:+ b) = has_char c a || has_char c b.
Proof.
  induction a as [|x a IH]; simpl; [reflexivity|].
  rewrite IH. apply orb_assoc.
Qed.

Lemma has_char_substring c i n (s : string) :
  has_char c s = false -> has_char c (substring i n s) = false.
Proof.
  revert i n. induction s as [|x s IH]; intros i n Hs.
  - destruct i, n; reflexivity.
  - simpl in Hs. apply orb_false_elim in Hs. destruct Hs as [Hx Hs].
    destruct i as [|i]; destruct n as [|n]; simpl; auto.
    rewrite Hx. simpl. auto.
Qed.

Lemma has_char_spaces c n : c <> " "%char -> has_char c (spaces n) = false.
Proof.
  intros Hc. induction n as [|n IH]; [reflexivity|].
  cbn [spaces has_char]. rewrite IH, orb_false_r.
  apply Ascii.eqb_neq. congruence.
Qed.

(** ** The modem log *)

(** The commands the star-key detector may send inside its loop. *)
Lemma star_body_ops st o :
  exists extra,
    ops (star_modem (star_body st o)) = ops (star_modem st) ++ extra
    /\ Forall (fun op => op = Sent "AT+VIP" true \/ op = Sent "AT+VLS=4" true) extra.
Proof.
  unfold star_body.
  destruct (contains [newline_byte] _).
  - exists [Sent "AT+VIP" true; Sent "AT+VLS=4" true].
    split.
    + cbn. rewrite <- app_assoc. reflexivity.
    + constructor; [left; reflexivity|].
      constructor; [right; reflexivity|constructor].
  - exists []. split; [|constructor].
    destruct (_ || _); simpl; rewrite app_nil_r; reflexivity.
Qed.

Lemma star_loop_ops obs : forall st st',
  star_loop st obs = Some st' ->
  exists extra,
    ops (star_modem st') = ops (star_modem st) ++ extra
    /\ Forall (fun op => op = Sent "AT+VIP" true \/ op = Sent "AT+VLS=4" true) extra.
Proof.
  induction obs as [|o obs IH]; intros st st'; simpl; [discriminate|].
  destruct (star_continue st o).
  - intros Hl. destruct (IH _ _ Hl) as (e2 & He2 & Hf2).
    destruct (star_body_ops st o) as (e1 & He1 & Hf1).
    exists (e1 ++ e2). split.
    + rewrite He2, He1, app_assoc. reflexivity.
    + apply Forall_app. split; assumption.
  - intros [= <-]. exists []. split; [rewrite app_nil_r; reflexivity|constructor].
Qed.

(** The detector starts with the voice-mode command and never sends the
    answer command. *)
Lemma wait_for_star_ops m t0 obs m' star :
  wait_for_star m t0 obs = Some (m', star) ->
  exists rest,
    ops m' = ops m ++ Sent "AT+FCLASS=8" true :: rest
    /\ ~ In (Sent "ATA" false) rest.
Proof.
  unfold wait_for_star.
  destruct (star_loop _ obs) as [st|] eqn:Hl; [|discriminate].
  intros [= <- _].
  destruct (star_loop_ops _ _ _ Hl) as (extra & He & Hf).
  simpl in He.
  exists ([Sent "AT+VIP" true; Sent "AT+VLS=4" true] ++ extra ++ [Sent "ATH" true]).
  split.
  - simpl. rewrite He. repeat rewrite <- app_assoc. reflexivity.
  - intros Hin. simpl in Hin.
    destruct Hin as [Hin|[Hin|Hin]]; try discriminate.
    apply in_app_or in Hin. destruct Hin as [Hin|Hin].
    + rewrite List.Forall_forall in Hf. destruct (Hf _ Hin); discriminate.
    + destruct Hin as [Hin|[]]. discriminate.
Qed.

Lemma terminate_call_ops m :
  ops (terminate_call m)
  = ops m ++ [Sent "AT+FCLASS=1" true; Sent "ATA" false; Slept 2;
              Sent "ATH" true; Slept 1; Sent "ATH" true].
Proof. unfold terminate_call. simpl. repeat rewrite <- app_assoc. reflexivity. Qed.

(** ** The screening code *)

Section ScreenFacts.
Context {pattern : Type} `{RegexLib pattern}.
Variables (env : ScreenEnv) (w : World pattern) (c : CallerId).

Let ts := make_timestamp (year env) c.
Let allow := match_list_both (allowlist w) (call_number c) (call_name c) ts.
Let block := match_list_both (blocklist w) (call_number c) (call_name c) ts.

Lemma screen_allow :
  snd allow = true ->
  screen env w c
  = Some (mkWorld (fst allow) (blocklist w)
            (append_file calllog_file (log_line ts c "allow")
               (update_list_match (fst allow) allowlist_file (files w)))
            (modem w)).
Proof.
  unfold screen. fold ts. fold allow. destruct allow as [al hit]. simpl.
  intros ->. reflexivity.
Qed.

Lemma screen_block :
  snd allow = false -> snd block = true ->
  screen env w c
  = Some (mkWorld (allowlist w) (fst block)
            (append_file calllog_file (log_line ts c "block")
               (update_list_match (fst block) blocklist_file (files w)))
            (terminate_call (modem w))).
Proof.
  intros Ha Hb. pose proof (match_list_both_miss_unchanged _ _ _ _ Ha) as Hal.
  fold allow in Hal.
  unfold screen. fold ts. fold allow. destruct allow as [al hit]. simpl in *.
  subst hit al. fold block. destruct block as [bl hit]. simpl in *. subst hit.
  reflexivity.
Qed.

Lemma screen_neither :
  snd allow = false -> snd block = false ->
  screen env w c
  = match wait_for_star (modem w) (star_t0 env) (star_obs env) with
    | None => None
    | Some (m, star) =>
        let '(bl, fs, outcome) :=
          if star then add_by_star env c (blocklist w) (files w)
          else (blocklist w, files w, "no match") in
        Some (mkWorld (allowlist w) bl
                (append_file calllog_file (log_line ts c outcome) fs) m)
    end.
Proof.
  intros Ha Hb. pose proof (match_list_both_miss_unchanged _ _ _ _ Ha) as Hal.
  pose proof (match_list_both_miss_unchanged _ _ _ _ Hb) as Hbl.
  fold allow in Hal. fold block in Hbl.
  unfold screen. fold ts. fold allow. destruct allow as [al hit]. simpl in *.
  subst hit al. fold block. destruct block as [bl hit]. simpl in *. subst hit bl.
  reflexivity.
Qed.

End ScreenFacts.

Lemma log_line_one_line ts c outcome :
  has_char LF ts = false -> has_char LF (call_number c) = false ->
  has_char LF (call_name c) = false -> has_char LF outcome = false ->
  exists body, log_line ts c outcome = body +:+ NL /\ has_char LF body = false.
Proof.
  intros Hts Hn Hm Ho.
  exists (ts +:+ "  " +:+ space_fill (call_number c) 12 +:+ space_fill (call_name c) 17
          +:+ " : " +:+ outcome).
  split.
  - unfold log_line. repeat rewrite append_assoc. reflexivity.
  - unfold space_fill. repeat rewrite has_char_app.
    rewrite Hts, Hn, Hm, Ho.
    repeat rewrite has_char_spaces by discriminate. reflexivity.
Qed.

Lemma make_timestamp_one_line year c :
  has_char LF year = false -> has_char LF (call_date c) = false ->
  has_char LF (call_time c) = false ->
  has_char LF (make_timestamp year c) = false.
Proof.
  intros Hy Hd Ht. unfold make_timestamp, slice. repeat rewrite has_char_app.
  rewrite Hy. repeat rewrite (has_char_substring _ _ _ _ Hd).
  repeat rewrite (has_char_substring _ _ _ _ Ht). reflexivity.
Qed.

(** C2. For a completed Caller ID the allow list is tried first and, when
    it matches, the block list, its history file and the modem are left
    alone; the terminate-call commands are sent exactly when the allow
    list missed and the block list matched; the star-key detector is
    started exactly when both missed; and the call log grows by exactly
    one line made of the timestamp, the number, the name and the outcome.
    The screening returns whenever a list matched, and otherwise exactly
    when the detector does.  A call from 5551234 against the block entry
    [^555], with no allow match, is terminated and logged as [block]. *)
Theorem C2_screening_allow_then_block_then_star :
  (forall (pattern : Type) (E : RegexLib pattern) (env : ScreenEnv)
          (w w' : World pattern) (c : CallerId),
     screen env w c = Some w' ->
     let ts := make_timestamp (year env) c in
     let allow := snd (match_list_both (allowlist w) (call_number c) (call_name c) ts) in
     let block := snd (match_list_both (blocklist w) (call_number c) (call_name c) ts) in
     (allow = true ->
        blocklist w' = blocklist w /\ modem w' = modem w
        /\ files w' !! (blocklist_file +:+ "-match")
           = files w !! (blocklist_file +:+ "-match"))
     /\ (exists issued,
           ops (modem w') = ops (modem w) ++ issued
           /\ (In (Sent "ATA" false) issued <-> allow = false /\ block = true)
           /\ (In (Sent "AT+FCLASS=8" true) issued <-> allow = false /\ block = false))
     /\ (allow = false -> block = true -> modem w' = terminate_call (modem w))
     /\ (exists outcome,
           files w' !! calllog_file
           = Some (match files w !! calllog_file with Some old => old | None => "" end
                   +:+ log_line ts c outcome)
           /\ (allow = true -> outcome = "allow")
           /\ (allow = false -> block = true -> outcome = "block")
           /\ (allow = false -> block = false ->
               outcome = "no match" \/ outcome = "added to block by user * key")
           /\ (has_char LF (year env) = false -> has_char LF (call_date c) = false ->
               has_char LF (call_time c) = false -> has_char LF (call_number c) = false ->
               has_char LF (call_name c) = false ->
               exists body, log_line ts c outcome = body +:+ NL
                            /\ has_char LF body = false)))
  /\ (forall (pattern : Type) (E : RegexLib pattern) (env : ScreenEnv)
             (w : World pattern) (c : CallerId),
        let ts := make_timestamp (year env) c in
        snd (match_list_both (allowlist w) (call_number c) (call_name c) ts) = true
        \/ snd (match_list_both (blocklist w) (call_number c) (call_name c) ts) = true ->
        exists w', screen env w c = Some w')
  /\ (forall (pattern : Type) (E : RegexLib pattern) (env : ScreenEnv)
             (w : World pattern) (c : CallerId),
        let ts := make_timestamp (year env) c in
        snd (match_list_both (allowlist w) (call_number c) (call_name c) ts) = false ->
        snd (match_list_both (blocklist w) (call_number c) (call_name c) ts) = false ->
        ((exists w', screen env w c = Some w') <->
         exists r, wait_for_star (modem w) (star_t0 env) (star_obs env) = Some r))
  /\ (option_map (fun w => Sample.history "^555" (blocklist w)) Sample.world0
      = Some (Some ("2021-10-06 17:01", 0%Z))
      /\ option_map
           (fun w => snd (match_list_both (allowlist w) "5551234" "BOB" "2021-04-12 15:30"))
           Sample.world0
         = Some false
      /\ let after := Sample.screened Sample.env0 Sample.call0 Sample.world0 in
         option_map (fun w => ops (modem w)) after
         = Some (ops (terminate_call Sample.modem0))
         /\ option_map (fun w => files w !! calllog_file) after
            = Some (Some ("2021-04-12 15:30  5551234     BOB               : block" +:+ NL))
         /\ option_map (fun w => Sample.history "^555" (blocklist w)) after
            = Some (Some ("2021-04-12 15:30", 1%Z))).
Proof.
  split; [|split; [|split]].
  - intros pattern E env w w' c Hs ts allow block.
    assert (Hlog : forall outcome,
               has_char LF outcome = false ->
               has_char LF (year env) = false -> has_char LF (call_date c) = false ->
               has_char LF (call_time c) = false -> has_char LF (call_number c) = false ->
               has_char LF (call_name c) = false ->
               exists body, log_line ts c outcome = body +:+ NL
                            /\ has_char LF body = false).
    { intros outcome Ho Hy Hd Ht Hn Hm. apply log_line_one_line; auto.
      apply make_timestamp_one_line; auto. }
    destruct allow eqn:Ha; subst allow.
    + rewrite (screen_allow _ _ _ Ha) in Hs. injection Hs as <-.
      cbn [allowlist blocklist files modem].
      split; [intros _; split; [reflexivity|split; [reflexivity|]]|].
      { rewrite append_file_other by discriminate.
        apply update_list_match_other. discriminate. }
      split.
      { exists []. rewrite app_nil_r. split; [reflexivity|].
        split; (split; [intros []|intros [? _]; discriminate]). }
      split; [discriminate|].
      exists "allow". rewrite append_file_same.
      rewrite update_list_match_other by discriminate.
      split; [reflexivity|]. split; [reflexivity|].
      split; [discriminate|]. split; [discriminate|]. apply Hlog. reflexivity.
    + destruct block eqn:Hb; subst block.
      * rewrite (screen_block _ _ _ Ha Hb) in Hs. injection Hs as <-.
        cbn [allowlist blocklist files modem].
        split; [discriminate|]. split.
        { eexists. split; [apply terminate_call_ops|]. split.
          - split; [auto|]. intros _. right. left. reflexivity.
          - split; [|intros [_ ?]; discriminate].
            intros Hin. repeat destruct Hin as [Hin|Hin]; try discriminate.
            destruct Hin. }
        split; [reflexivity|].
        exists "block". rewrite append_file_same.
        rewrite update_list_match_other by discriminate.
        split; [reflexivity|]. split; [discriminate|].
        split; [reflexivity|]. split; [discriminate|]. apply Hlog. reflexivity.
      * rewrite (screen_neither _ _ _ Ha Hb) in Hs.
        destruct (wait_for_star _ _ _) as [[m star]|] eqn:Hw; [|discriminate].
        destruct (wait_for_star_ops _ _ _ _ _ Hw) as (rest & Hops & Hno).
        assert (Hout : exists bl fs outcome,
                   (if star then add_by_star env c (blocklist w) (files w)
                    else (blocklist w, files w, "no match")) = (bl, fs, outcome)
                   /\ fs !! calllog_file = files w !! calllog_file
                   /\ (outcome = "no match" \/ outcome = "added to block by user * key")).
        { destruct star.
          - unfold add_by_star. destruct (re_compile (call_number c)).
            + destruct (truthy (call_number c)).
              * do 3 eexists. split; [reflexivity|]. split; [|auto].
                apply append_file_other. discriminate.
              * do 3 eexists. split; [reflexivity|]. auto.
            + do 3 eexists. split; [reflexivity|]. auto.
          - do 3 eexists. split; [reflexivity|]. auto. }
        destruct Hout as (bl & fs & outcome & Heq & Hfs & Hcases).
        rewrite Heq in Hs. injection Hs as <-. cbn [allowlist blocklist files modem].
        split; [discriminate|]. split.
        { eexists. split; [exact Hops|]. split.
          - split; [|intros [_ ?]; discriminate].
            intros [Hin|Hin]; [discriminate|contradiction].
          - split; [auto|]. intros _. left. reflexivity. }
        split; [discriminate|].
        exists outcome. rewrite append_file_same, Hfs.
        split; [reflexivity|]. split; [discriminate|]. split; [discriminate|].
        split; [auto|]. apply Hlog. destruct Hcases as [-> | ->]; reflexivity.
  - intros pattern E env w c ts [Ha|Hb].
    + eexists. apply (screen_allow _ _ _ Ha).
    + destruct (snd (match_list_both (allowlist w) (call_number c) (call_name c) ts))
        eqn:Ha.
      * eexists. apply (screen_allow _ _ _ Ha).
      * eexists. apply (screen_block _ _ _ Ha Hb).
  - intros pattern E env w c ts Ha Hb. rewrite (screen_neither _ _ _ Ha Hb).
    destruct (wait_for_star _ _ _) as [[m star]|].
    + split; intros _; [eauto|].
      destruct (if star then _ else _) as [[bl fs] outcome]. eauto.
    + split; intros [x Hx]; discriminate.
  - split; [vm_compute; reflexivity|]. split; [vm_compute; reflexivity|].
    split; [vm_compute; reflexivity|]. split; vm_compute; reflexivity.
Qed.

(** ** Adding the caller after a star key *)

(** The entry that lines 208-211 build. *)
Lemma add_by_star_added {pattern : Type} `{RegexLib pattern} env c (bl : PList pattern)
    (fs : FS) compiled :
  re_compile (call_number c) = Some compiled -> call_number c <> "" ->
  add_by_star env c bl fs
  = (dict_set (call_number c)
       (mkItem compiled (added_at env) 0 false "added by user * key") bl,
     append_file blocklist_file (call_number c +:+ ";;added by user * key" +:+ NL) fs,
     "added to block by user * key").
Proof.
  intros Hc Hne. unfold add_by_star. rewrite Hc.
  apply truthy_true in Hne. rewrite Hne. reflexivity.
Qed.

Lemma add_by_star_discarded {pattern : Type} `{RegexLib pattern} env c
    (bl : PList pattern) (fs : FS) :
  re_compile (call_number c) = None \/ call_number c = "" ->
  add_by_star env c bl fs = (bl, fs, "no match").
Proof.
  intros [Hc|He]; unfold add_by_star.
  - rewrite Hc. reflexivity.
  - destruct (re_compile (call_number c)); [|reflexivity].
    rewrite He. reflexivity.
Qed.

(** C8, as stated, fails: a call that came without a number has a raw
    number, the empty string, that compiles as a pattern, yet after a star
    key nothing is inserted under it. *)
Lemma C8_counterexample_empty_number_compiles_but_is_not_added :
  ~ (forall (pattern : Type) (E : RegexLib pattern) (env : ScreenEnv)
            (w : World pattern) (c : CallerId) m compiled,
       snd (match_list_both (allowlist w) (call_number c) (call_name c)
              (make_timestamp (year env) c)) = false ->
       snd (match_list_both (blocklist w) (call_number c) (call_name c)
              (make_timestamp (year env) c)) = false ->
       wait_for_star (modem w) (star_t0 env) (star_obs env) = Some (m, true) ->
       re_compile (call_number c) = Some compiled ->
       exists w',
         screen env w c = Some w'
         /\ dict_get (call_number c) (blocklist w')
            = Some (mkItem compiled (added_at env) 0 false "added by user * key")).
Proof.
  intros Hall.
  pose (m := mkModem [Sent "AT+FCLASS=8" true; Sent "AT+VIP" true; Sent "AT+VLS=4" true;
                      Sent "ATH" true] None).
  assert (Ha : snd (match_list_both (allowlist Sample.empty_world) "" ""
                      (make_timestamp "2021" Sample.call_no_number)) = false)
    by reflexivity.
  assert (Hb : snd (match_list_both (blocklist Sample.empty_world) "" ""
                      (make_timestamp "2021" Sample.call_no_number)) = false)
    by reflexivity.
  assert (Hw : wait_for_star Sample.modem0 0 Sample.star_pressed = Some (m, true))
    by (vm_compute; reflexivity).
  destruct (Hall _ PyRe.engine Sample.env_star Sample.empty_world Sample.call_no_number
              m [] Ha Hb Hw eq_refl) as (w' & Hs & Hg).
  rewrite (screen_neither Sample.env_star Sample.empty_world Sample.call_no_number
             Ha Hb) in Hs.
  change (wait_for_star (modem Sample.empty_world) (star_t0 Sample.env_star)
            (star_obs Sample.env_star))
    with (wait_for_star Sample.modem0 0 Sample.star_pressed) in Hs.
  rewrite Hw in Hs.
  rewrite add_by_star_discarded in Hs by (right; reflexivity).
  injection Hs as <-. discriminate Hg.
Qed.

(** C8, amended. After a star key, the raw Caller-ID number is compiled as
    a pattern.  When it compiles and is not empty, an entry keyed by the
    number enters the block list with timestamp = now, count 0, not
    permanent and the fixed note, one line is appended to the block
    [.dat] file, and the call is logged as added.  When it does not
    compile, or is empty, the candidate is discarded: the block list and
    the [.dat] file are as before and the call is logged as [no match]. *)
Theorem C8_star_key_adds_nonempty_compilable_number
    (pattern : Type) (E : RegexLib pattern) (env : ScreenEnv) (w : World pattern)
    (c : CallerId) (m : Modem) :
  snd (match_list_both (allowlist w) (call_number c) (call_name c)
         (make_timestamp (year env) c)) = false ->
  snd (match_list_both (blocklist w) (call_number c) (call_name c)
         (make_timestamp (year env) c)) = false ->
  wait_for_star (modem w) (star_t0 env) (star_obs env) = Some (m, true) ->
  let ts := make_timestamp (year env) c in
  let old_dat := match files w !! blocklist_file with Some old => old | None => "" end in
  let old_log := match files w !! calllog_file with Some old => old | None => "" end in
  (forall compiled,
     re_compile (call_number c) = Some compiled -> call_number c <> "" ->
     exists w',
       screen env w c = Some w'
       /\ blocklist w'
          = dict_set (call_number c)
              (mkItem compiled (added_at env) 0 false "added by user * key") (blocklist w)
       /\ dict_get (call_number c) (blocklist w')
          = Some (mkItem compiled (added_at env) 0 false "added by user * key")
       /\ files w' !! blocklist_file
          = Some (old_dat +:+ (call_number c +:+ ";;added by user * key" +:+ NL))
       /\ files w' !! calllog_file
          = Some (old_log +:+ log_line ts c "added to block by user * key"))
  /\ (re_compile (call_number c) = None \/ call_number c = "" ->
      exists w',
        screen env w c = Some w'
        /\ blocklist w' = blocklist w
        /\ files w' !! blocklist_file = files w !! blocklist_file
        /\ files w' !! calllog_file = Some (old_log +:+ log_line ts c "no match")).
Proof.
  intros Ha Hb Hw ts old_dat old_log.
  pose proof (screen_neither env w c Ha Hb) as Hs. rewrite Hw in Hs.
  split.
  - intros compiled Hc Hne.
    rewrite (add_by_star_added env c _ _ compiled Hc Hne) in Hs.
    eexists. split; [exact Hs|]. cbn [blocklist files].
    split; [reflexivity|]. split; [apply dict_get_set_same|]. split.
    + rewrite append_file_other by discriminate. apply append_file_same.
    + rewrite append_file_same. rewrite append_file_other by discriminate. reflexivity.
  - intros Hbad.
    rewrite (add_by_star_discarded env c _ _ Hbad) in Hs.
    eexists. split; [exact Hs|]. cbn [blocklist files].
    split; [reflexivity|]. split.
    + apply append_file_other. discriminate.
    + apply append_file_same.
Qed.

(** C8, amended, on the numbers [8005550100], which compiles, and
    [+15551234], which does not. *)
Lemma C8_star_key_adds_nonempty_compilable_number_witness :
  (exists w',
     screen Sample.env_star Sample.empty_world Sample.call_new = Some w'
     /\ Sample.history "8005550100" (blocklist w') = Some ("2021-04-12 15:31", 0%Z)
     /\ option_map permanent (dict_get "8005550100" (blocklist w')) = Some false
     /\ files w' !! blocklist_file = Some ("8005550100;;added by user * key" +:+ NL))
  /\ (exists w',
        screen Sample.env_star Sample.empty_world Sample.call_plus = Some w'
        /\ blocklist w' = []
        /\ files w' !! blocklist_file = None).
Proof.
  pose (m := mkModem [Sent "AT+FCLASS=8" true; Sent "AT+VIP" true; Sent "AT+VLS=4" true;
                      Sent "ATH" true] None).
  assert (Hw : wait_for_star Sample.modem0 0 Sample.star_pressed = Some (m, true))
    by (vm_compute; reflexivity).
  split.
  - destruct (C8_star_key_adds_nonempty_compilable_number _ PyRe.engine Sample.env_star
                Sample.empty_world Sample.call_new m eq_refl eq_refl Hw) as [Hadd _].
    destruct (Hadd _ eq_refl ltac:(discriminate)) as (w' & Hs & _ & Hg & Hf & _).
    exists w'. split; [exact Hs|]. unfold Sample.history.
    change (call_number Sample.call_new) with "8005550100" in Hg. rewrite Hg.
    split; [reflexivity|]. split; [reflexivity|exact Hf].
  - destruct (C8_star_key_adds_nonempty_compilable_number _ PyRe.engine Sample.env_star
                Sample.empty_world Sample.call_plus m eq_refl eq_refl Hw) as [_ Hbad].
    destruct (Hbad (or_introl eq_refl)) as (w' & Hs & Hbl & Hf & _).
    exists w'. split; [exact Hs|]. split; [exact Hbl|exact Hf].
Defined.

(** ** Loading a list *)

Section LoadFacts.
Context {pattern : Type} `{RegexLib pattern}.

Lemma dict_set_Forall (P : string * Item pattern -> Prop) key it (l : PList pattern) :
  Forall P l -> P (key, it) -> Forall P (dict_set key it l).
Proof.
  intros Hl Hnew. induction Hl as [|[k old] l Hk Hl IH]; simpl.
  - constructor; [assumption|constructor].
  - destruct (String.eqb k key) eqn:Hkk.
    + apply String.eqb_eq in Hkk. subst k. constructor; assumption.
    + constructor; assumption.
Qed.

Lemma dict_del_Forall (P : string * Item pattern -> Prop) key (l : PList pattern) :
  Forall P l -> Forall P (dict_del key l).
Proof.
  intros Hl. induction Hl as [|[k old] l Hk Hl IH]; simpl.
  - constructor.
  - destruct (String.eqb k key); [assumption|]. constructor; assumption.
Qed.

Lemma dict_get_Forall (P : string * Item pattern -> Prop) key it (l : PList pattern) :
  Forall P l -> dict_get key l = Some it -> P (key, it).
Proof.
  intros Hl Hg. rewrite List.Forall_forall in Hl. apply Hl.
  apply dict_get_in. assumption.
Qed.

Lemma dict_get_del_other key key' (l : PList pattern) :
  key <> key' -> dict_get key' (dict_del key l) = dict_get key' l.
Proof.
  intros Hne. induction l as [|[k old] l IH]; simpl; [reflexivity|].
  destruct (String.eqb k key) eqn:Hk; simpl.
  - apply String.eqb_eq in Hk. subst k.
    destruct (String.eqb key key') eqn:Hk'; [|reflexivity].
    apply String.eqb_eq in Hk'. contradiction.
  - destruct (String.eqb k key'); auto.
Qed.

(** Every line of the [.dat] file keeps a property that holds of the
    entries it can build. *)
Lemma read_dat_line_Forall (P : string * Item pattern -> Prop) now (l : PList pattern) line :
  (forall key compiled perm text,
     re_compile key = Some compiled -> P (key, mkItem compiled now 0 perm text)) ->
  Forall P l -> Forall P (read_dat_line now l line).
Proof.
  intros Hnew Hl. unfold read_dat_line.
  destruct (startswith _ "#"); [assumption|].
  destruct (split ";" _) as [|regex line_list]; [assumption|].
  destruct (negb (truthy regex)); [assumption|].
  destruct (join_escaped regex line_list) as [key rest].
  destruct (re_compile key) as [compiled|] eqn:Hc; [|assumption].
  destruct (truthy key); [|assumption].
  apply dict_set_Forall; [assumption|]. apply Hnew. assumption.
Qed.

Lemma read_dat_lines_Forall (P : string * Item pattern -> Prop) now lines :
  forall (l : PList pattern),
  (forall key compiled perm text,
     re_compile key = Some compiled -> P (key, mkItem compiled now 0 perm text)) ->
  Forall P l -> Forall P (fold_left (read_dat_line now) lines l).
Proof.
  induction lines as [|line lines IH]; intros l Hnew Hl; simpl; [assumption|].
  apply IH; [assumption|]. apply read_dat_line_Forall; assumption.
Qed.

(** A [.dat] line whose pattern does not compile leaves the list as it
    was. *)
Lemma read_dat_line_dropped now (l : PList pattern) line regex line_list :
  split ";" (remove_nl line) = regex :: line_list ->
  re_compile (fst (join_escaped regex line_list)) = None ->
  read_dat_line now l line = l.
Proof.
  intros Hs Hc. unfold read_dat_line. rewrite Hs.
  destruct (startswith _ "#"); [reflexivity|].
  destruct (negb (truthy regex)); [reflexivity|].
  destruct (join_escaped regex line_list) as [key rest]. simpl in Hc.
  rewrite Hc. reflexivity.
Qed.

Lemma read_match_line_ok (l l' : PList pattern) line :
  compiled_ok l -> read_match_line l line = Some l' -> compiled_ok l'.
Proof.
  intros Hl. unfold read_match_line.
  destruct (split_max ";" 3 _) as [|ts [|cnt [|key [|]]]]; try (intros [= <-]; assumption).
  destruct (dict_get key l) as [it|] eqn:Hg; [|intros [= <-]; assumption].
  destruct (py_int cnt) as [n|]; [|discriminate].
  intros [= <-]. apply dict_set_Forall; [assumption|]. simpl.
  apply (dict_get_Forall _ _ _ _ Hl Hg).
Qed.

Lemma read_match_lines_ok lines : forall (l l' : PList pattern),
  compiled_ok l -> read_match_lines l lines = Some l' -> compiled_ok l'.
Proof.
  induction lines as [|line lines IH]; intros l l' Hl; simpl.
  - intros [= <-]. assumption.
  - destruct (read_match_line l line) as [l1|] eqn:H1; [|discriminate].
    apply IH. apply (read_match_line_ok _ _ _ Hl H1).
Qed.

Lemma read_list_ok fs now list_file (l : PList pattern) :
  read_list fs now list_file = Some l -> compiled_ok l.
Proof.
  unfold read_list. destruct (fs !! list_file) as [content|].
  - assert (Hdat : compiled_ok (fold_left (read_dat_line now) (file_lines content) [])).
    { apply read_dat_lines_Forall; [|constructor]. intros; assumption. }
    destruct (fs !! (list_file +:+ "-match")) as [history|].
    + apply read_match_lines_ok. assumption.
    + intros [= <-]. assumption.
  - intros [= <-]. constructor.
Qed.

(** A history line for another key leaves the entry of this key alone. *)
Lemma read_match_line_other key (l l' : PList pattern) line :
  (forall ts cnt, split_max ";" 3 (remove_nl line) <> [ts; cnt; key]) ->
  read_match_line l line = Some l' -> dict_get key l' = dict_get key l.
Proof.
  intros Hno. unfold read_match_line.
  destruct (split_max ";" 3 _) as [|ts [|cnt [|k [|]]]] eqn:Hs;
    try (intros [= <-]; reflexivity).
  destruct (dict_get k l) as [it|]; [|intros [= <-]; reflexivity].
  destruct (py_int cnt) as [n|]; [|discriminate].
  intros [= <-]. apply dict_get_set_other. intros ->. apply (Hno ts cnt). reflexivity.
Qed.

Lemma read_match_lines_other key lines : forall (l l' : PList pattern),
  no_history key lines ->
  read_match_lines l lines = Some l' -> dict_get key l' = dict_get key l.
Proof.
  induction lines as [|line lines IH]; intros l l' Hno; simpl.
  - intros [= <-]. reflexivity.
  - inversion Hno as [|? ? Hline Hrest]; subst.
    destruct (read_match_line l line) as [l1|] eqn:H1; [|discriminate].
    intros Hr. rewrite (IH _ _ Hrest Hr). apply (read_match_line_other _ _ _ _ Hline H1).
Qed.

(** An entry without a line in the history file carries the time of the
    load and a count of zero. *)
Lemma read_list_no_history fs now list_file (l : PList pattern) key it :
  read_list fs now list_file = Some l ->
  dict_get key l = Some it ->
  match fs !! (list_file +:+ "-match") with
  | Some history => no_history key (file_lines history)
  | None => True
  end ->
  timestamp it = now /\ count it = 0%Z.
Proof.
  unfold read_list. destruct (fs !! list_file) as [content|].
  - assert (Hdat : Forall (fun e : string * Item pattern =>
                             timestamp (snd e) = now /\ count (snd e) = 0%Z)
                          (fold_left (read_dat_line now) (file_lines content) [])).
    { apply read_dat_lines_Forall; [|constructor]. intros; split; reflexivity. }
    destruct (fs !! (list_file +:+ "-match")) as [history|].
    + intros Hr Hg Hno. rewrite (read_match_lines_other _ _ _ _ Hno Hr) in Hg.
      apply (dict_get_Forall _ _ _ _ Hdat Hg).
    + intros [= <-] Hg _. apply (dict_get_Forall _ _ _ _ Hdat Hg).
  - intros [= <-]. discriminate.
Qed.

Lemma dict_get_del_same key (l : PList pattern) :
  dict_wf l -> dict_get key (dict_del key l) = None.
Proof.
  induction l as [|[k old] l IH]; simpl; [reflexivity|].
  intros [Hk Hl]. destruct (String.eqb k key) eqn:Hkk; simpl.
  - apply String.eqb_eq in Hkk. subst k. assumption.
  - rewrite Hkk. auto.
Qed.

Lemma dict_get_del_None key key' (l : PList pattern) :
  dict_get key' l = None -> dict_get key' (dict_del key l) = None.
Proof.
  induction l as [|[k old] l IH]; simpl; [reflexivity|].
  destruct (String.eqb k key') eqn:Hk'; [discriminate|].
  intros Hg. destruct (String.eqb k key); simpl; [assumption|].
  rewrite Hk'. auto.
Qed.

Lemma dict_del_wf key (l : PList pattern) : dict_wf l -> dict_wf (dict_del key l).
Proof.
  induction l as [|[k old] l IH]; simpl; [auto|].
  intros [Hk Hl]. destruct (String.eqb k key); simpl; [assumption|].
  split; [apply dict_get_del_None; assumption|auto].
Qed.

Lemma dict_set_wf key it (l : PList pattern) : dict_wf l -> dict_wf (dict_set key it l).
Proof.
  induction l as [|[k old] l IH]; simpl; [auto|].
  intros [Hk Hl]. destruct (String.eqb k key) eqn:Hkk; simpl.
  - split; assumption.
  - split; [|auto]. rewrite dict_get_set_other; [assumption|].
    intros ->. rewrite String.eqb_refl in Hkk. discriminate.
Qed.

Lemma dict_get_del_Some key key' it (l : PList pattern) :
  dict_wf l -> dict_get key' (dict_del key l) = Some it ->
  key <> key' /\ dict_get key' l = Some it.
Proof.
  intros Hwf Hg. destruct (String.eqb key key') eqn:Hk.
  - apply String.eqb_eq in Hk. subst key'.
    rewrite dict_get_del_same in Hg by assumption. discriminate.
  - assert (Hne : key <> key').
    { intros ->. rewrite String.eqb_refl in Hk. discriminate. }
    rewrite dict_get_del_other in Hg by assumption. auto.
Qed.

Lemma read_dat_lines_wf now lines : forall (l : PList pattern),
  dict_wf l -> dict_wf (fold_left (read_dat_line now) lines l).
Proof.
  induction lines as [|line lines IH]; intros l Hl; simpl; [assumption|].
  apply IH. unfold read_dat_line.
  destruct (startswith _ "#"); [assumption|].
  destruct (split ";" _) as [|regex line_list]; [assumption|].
  destruct (negb (truthy regex)); [assumption|].
  destruct (join_escaped regex line_list) as [key rest].
  destruct (re_compile key); [|assumption].
  destruct (truthy key); [|assumption].
  apply dict_set_wf. assumption.
Qed.

Lemma read_match_lines_wf lines : forall (l l' : PList pattern),
  dict_wf l -> read_match_lines l lines = Some l' -> dict_wf l'.
Proof.
  induction lines as [|line lines IH]; intros l l' Hl; simpl.
  - intros [= <-]. assumption.
  - destruct (read_match_line l line) as [l1|] eqn:H1; [|discriminate].
    apply IH. unfold read_match_line in H1.
    destruct (split_max ";" 3 _) as [|ts [|cnt [|key [|]]]]; try congruence.
    destruct (dict_get key l); [|congruence].
    destruct (py_int cnt); [|discriminate].
    injection H1 as <-. apply dict_set_wf. assumption.
Qed.

(** A list just loaded holds each key once. *)
Lemma read_list_wf fs now list_file (l : PList pattern) :
  read_list fs now list_file = Some l -> dict_wf l.
Proof.
  unfold read_list. destruct (fs !! list_file) as [content|].
  - pose proof (read_dat_lines_wf now (file_lines content) [] I) as Hdat.
    destruct (fs !! (list_file +:+ "-match")) as [history|].
    + apply read_match_lines_wf. assumption.
    + intros [= <-]. assumption.
  - intros [= <-]. exact I.
Qed.

End LoadFacts.

(** ** Purging a list *)

Section PurgeFacts.
Context {pattern : Type} `{RegexLib pattern}.
Variable parse_time : string -> option Q.
Variables (now : Q) (lifetime_days : Z).

#[local] Abbreviation step_line := (purge_line parse_time now lifetime_days).
#[local] Abbreviation step_lines := (purge_lines parse_time now lifetime_days).
#[local] Abbreviation taken := (purgeable parse_time now lifetime_days).

(** [purge_line] by cases on the pattern of the line. *)
Lemma purge_line_cases (l : PList pattern) nc ch line :
  step_line (l, nc, ch) line =
  match line_key line with
  | None => Some (l, nc +:+ line, ch)
  | Some key =>
      match dict_get key l with
      | None => Some (l, nc +:+ line, ch)
      | Some it =>
          match parse_time (timestamp it) with
          | None => None
          | Some _ =>
              if taken it
              then Some (dict_del key l, nc +:+ commented_out it line, true)
              else Some (l, nc +:+ line, ch)
          end
      end
  end.
Proof.
  unfold purge_line, line_key, purgeable, expired.
  destruct (startswith line "#"); [reflexivity|].
  destruct (split ";" (remove_nl line)) as [|regex line_list]; [reflexivity|].
  destruct (join_escaped regex line_list) as [key rest]. simpl.
  destruct (dict_get key l) as [it|]; [|reflexivity].
  destruct (parse_time (timestamp it)); reflexivity.
Qed.

(** One line either leaves the list alone and is copied, or takes the
    entry it names out of the list and is commented out. *)
Lemma purge_line_step (l l1 : PList pattern) nc nc1 ch ch1 line :
  step_line (l, nc, ch) line = Some (l1, nc1, ch1) ->
  (l1 = l /\ nc1 = nc +:+ line /\ ch1 = ch
   /\ (forall key it, line_key line = Some key -> dict_get key l = Some it ->
                      taken it = false))
  \/ (exists key it,
        line_key line = Some key /\ dict_get key l = Some it /\ taken it = true
        /\ l1 = dict_del key l /\ nc1 = nc +:+ commented_out it line /\ ch1 = true).
Proof.
  rewrite purge_line_cases.
  destruct (line_key line) as [key|].
  - destruct (dict_get key l) as [it|] eqn:Hg.
    + destruct (parse_time (timestamp it)); [|discriminate].
      destruct (taken it) eqn:Hp; intros [= <- <- <-].
      * right. exists key, it. repeat split; auto.
      * left. repeat split; auto. intros key' it' [= <-] Hg'.
        rewrite Hg in Hg'. injection Hg' as <-. assumption.
    + intros [= <- <- <-]. left. repeat split; auto.
      intros key' it' [= <-] Hg'. rewrite Hg in Hg'. discriminate.
  - intros [= <- <- <-]. left. repeat split; auto. discriminate.
Qed.

(** Entries that survive a purge are as they were, and no key appears
    twice afterwards either. *)
Lemma purge_lines_survivors lines : forall (l l' : PList pattern) nc nc' ch ch',
  dict_wf l ->
  step_lines (l, nc, ch) lines = Some (l', nc', ch') ->
  dict_wf l' /\ (forall k it, dict_get k l' = Some it -> dict_get k l = Some it).
Proof.
  induction lines as [|line lines IH]; intros l l' nc nc' ch ch' Hwf; cbn [purge_lines].
  - intros [= <- <- <-]. auto.
  - destruct (step_line (l, nc, ch) line) as [[[l1 nc1] ch1]|] eqn:H1; [|discriminate].
    intros Hrest.
    destruct (purge_line_step _ _ _ _ _ _ _ H1)
      as [(-> & _) | (key & it & _ & _ & _ & -> & _)].
    + apply (IH _ _ _ _ _ _ Hwf Hrest).
    + destruct (IH _ _ _ _ _ _ (dict_del_wf key l Hwf) Hrest) as [Hwf' Hsub].
      split; [assumption|]. intros k it' Hg.
      apply (dict_get_del_Some key k it' l Hwf). auto.
Qed.

(** An entry that the purge does not take is still there afterwards. *)
Lemma purge_lines_keeps lines : forall (l l' : PList pattern) nc nc' ch ch' k it,
  step_lines (l, nc, ch) lines = Some (l', nc', ch') ->
  dict_get k l = Some it -> taken it = false ->
  dict_get k l' = Some it.
Proof.
  induction lines as [|line lines IH]; intros l l' nc nc' ch ch' k it; cbn [purge_lines].
  - intros [= <- <- <-]. auto.
  - destruct (step_line (l, nc, ch) line) as [[[l1 nc1] ch1]|] eqn:H1; [|discriminate].
    intros Hrest Hg Hp.
    destruct (purge_line_step _ _ _ _ _ _ _ H1)
      as [(-> & _) | (key & it0 & _ & Hg0 & Hp0 & -> & _)].
    + apply (IH _ _ _ _ _ _ _ _ Hrest Hg Hp).
    + apply (IH _ _ _ _ _ _ _ _ Hrest); [|assumption].
      rewrite dict_get_del_other; [assumption|].
      intros ->. rewrite Hg in Hg0. injection Hg0 as <-. congruence.
Qed.

(** An entry that is gone after the purge was one the purge takes, named
    by a line of the file that is now commented out. *)
Lemma purge_lines_removed lines : forall (l l' : PList pattern) nc nc' ch ch' k it,
  dict_wf l ->
  step_lines (l, nc, ch) lines = Some (l', nc', ch') ->
  dict_get k l = Some it -> dict_get k l' = None ->
  taken it = true /\ In (Some k) (map line_key lines).
Proof.
  induction lines as [|line lines IH]; intros l l' nc nc' ch ch' k it Hwf; cbn [purge_lines].
  - intros [= <- <- <-] Hg Hn. congruence.
  - destruct (step_line (l, nc, ch) line) as [[[l1 nc1] ch1]|] eqn:H1; [|discriminate].
    intros Hrest Hg Hn.
    destruct (purge_line_step _ _ _ _ _ _ _ H1)
      as [(-> & _) | (key & it0 & Hkey & Hg0 & Hp0 & -> & _)].
    + destruct (IH _ _ _ _ _ _ _ _ Hwf Hrest Hg Hn) as [Hp Hin].
      split; [assumption|]. cbn [map In]. right. assumption.
    + destruct (String.eqb key k) eqn:Hk.
      * apply String.eqb_eq in Hk. subst key.
        rewrite Hg in Hg0. injection Hg0 as <-.
        split; [assumption|]. cbn [map In]. left. assumption.
      * assert (Hne : key <> k).
        { intros ->. rewrite String.eqb_refl in Hk. discriminate. }
        destruct (IH _ _ _ _ _ _ k it (dict_del_wf key l Hwf) Hrest) as [Hp Hin].
        { rewrite dict_get_del_other; assumption. }
        { assumption. }
        split; [assumption|]. cbn [map In]. right. assumption.
Qed.

(** An entry that the purge takes and that a line of the file names is
    gone afterwards. *)
Lemma purge_lines_removes lines : forall (l l' : PList pattern) nc nc' ch ch' k it,
  dict_wf l ->
  step_lines (l, nc, ch) lines = Some (l', nc', ch') ->
  dict_get k l = Some it -> taken it = true ->
  In (Some k) (map line_key lines) ->
  dict_get k l' = None.
Proof.
  induction lines as [|line lines IH]; intros l l' nc nc' ch ch' k it Hwf; cbn [purge_lines].
  - intros _ _ _ [].
  - destruct (step_line (l, nc, ch) line) as [[[l1 nc1] ch1]|] eqn:H1; [|discriminate].
    intros Hrest Hg Hp Hin. cbn [map In] in Hin.
    destruct (purge_line_step _ _ _ _ _ _ _ H1)
      as [(-> & _ & _ & Hnot) | (key & it0 & Hkey & Hg0 & Hp0 & -> & _)].
    + destruct Hin as [Hin|Hin].
      * rewrite (Hnot k it Hin Hg) in Hp. discriminate.
      * apply (IH _ _ _ _ _ _ _ _ Hwf Hrest Hg Hp Hin).
    + destruct (dict_get k l') as [it'|] eqn:Hg'; [|reflexivity].
      destruct (purge_lines_survivors _ _ _ _ _ _ _ (dict_del_wf key l Hwf) Hrest)
        as [_ Hsub].
      specialize (Hsub _ _ Hg').
      destruct (dict_get_del_Some key k it' l Hwf Hsub) as [Hne Hgk].
      destruct Hin as [Hin|Hin]; [congruence|].
      rewrite (IH _ _ _ _ _ _ k it (dict_del_wf key l Hwf) Hrest) in Hg'; auto.
      rewrite dict_get_del_other; assumption.
Qed.

Lemma concat_cons (a : string) (rest : list string) :
  String.concat "" (a :: rest) = a +:+ String.concat "" rest.
Proof.
  destruct rest as [|b rest]; simpl.
  - symmetry. apply append_nil_r.
  - reflexivity.
Qed.

(** The text the purge builds and its [file_changed] flag: every line
    is copied or commented out, the line of every entry that went is
    commented out, and the flag is raised exactly when an entry went. *)
Lemma purge_lines_text lines : forall (l l' : PList pattern) nc nc' ch ch',
  dict_wf l ->
  step_lines (l, nc, ch) lines = Some (l', nc', ch') ->
  exists outs,
    nc' = nc +:+ String.concat "" outs
    /\ Forall2 (purged_line parse_time now lifetime_days l) lines outs
    /\ (forall k it, dict_get k l = Some it -> dict_get k l' = None ->
        exists line, In (line, commented_out it line) (combine lines outs)
                     /\ line_key line = Some k)
    /\ ((ch' = ch /\ l' = l /\ outs = lines)
        \/ (ch' = true /\ exists k it, dict_get k l = Some it /\ dict_get k l' = None)).
Proof.
  induction lines as [|line lines IH]; intros l l' nc nc' ch ch' Hwf; cbn [purge_lines].
  - intros [= <- <- <-]. exists []. split; [symmetry; apply append_nil_r|].
    split; [constructor|]. split; [|left; auto].
    intros k it Hg Hn. congruence.
  - destruct (step_line (l, nc, ch) line) as [[[l1 nc1] ch1]|] eqn:H1; [|discriminate].
    intros Hrest.
    destruct (purge_line_step _ _ _ _ _ _ _ H1)
      as [(-> & -> & -> & _) | (key & it & Hkey & Hg & Hp & -> & -> & ->)].
    + destruct (IH _ _ _ _ _ _ Hwf Hrest) as (outs & Hnc & Hall & Hgone & Hflag).
      exists (line :: outs). split.
      { rewrite Hnc, concat_cons. apply append_assoc. }
      split; [constructor; [left; reflexivity|assumption]|].
      split.
      { intros k it Hk Hn. destruct (Hgone k it Hk Hn) as (line' & Hin & Hl).
        exists line'. split; [right; assumption|assumption]. }
      destruct Hflag as [(-> & -> & ->)|Hflag]; [left; auto|right; assumption].
    + pose proof (dict_del_wf key l Hwf) as Hwf1.
      destruct (IH _ _ _ _ _ _ Hwf1 Hrest) as (outs & Hnc & Hall & Hgone & Hflag).
      destruct (purge_lines_survivors _ _ _ _ _ _ _ Hwf1 Hrest) as [_ Hsub].
      assert (Hkey_gone : dict_get key l' = None).
      { destruct (dict_get key l') as [x|] eqn:Hx; [|reflexivity].
        specialize (Hsub _ _ Hx). rewrite dict_get_del_same in Hsub by assumption.
        discriminate. }
      exists (commented_out it line :: outs). split.
      { rewrite Hnc, concat_cons. apply append_assoc. }
      split.
      { constructor.
        - right. exists key, it. auto.
        - eapply Forall2_impl; [exact Hall|].
          intros ln out [->|(k & it' & Hk & Hg' & Hp' & ->)]; [left; reflexivity|].
          right. exists k, it'. repeat split; auto.
          apply (dict_get_del_Some key k it' l Hwf Hg'). }
      split.
      { intros k it' Hk Hn. destruct (String.eqb key k) eqn:Hkk.
        - apply String.eqb_eq in Hkk. subst k. rewrite Hg in Hk. injection Hk as <-.
          exists line. split; [left; reflexivity|assumption].
        - assert (Hne : key <> k).
          { intros ->. rewrite String.eqb_refl in Hkk. discriminate. }
          destruct (Hgone k it') as (line' & Hin & Hl); auto.
          { rewrite dict_get_del_other; assumption. }
          exists line'. split; [right; assumption|assumption]. }
      right. split.
      { destruct Hflag as [(-> & _)|[-> _]]; reflexivity. }
      exists key, it. auto.
Qed.

End PurgeFacts.



Lemma backup_name_differs (list_file : string) : list_file +:+ "-backup" <> list_file.
Proof.
  induction list_file as [|c f IH]; [discriminate|].
  change (String c (f +:+ "-backup") <> String c f). congruence.
Qed.

Lemma write_with_backup_file list_file old new (fs : FS) :
  write_with_backup list_file old new fs !! list_file = Some new.
Proof. unfold write_with_backup. apply lookup_insert_eq. Qed.

Lemma write_with_backup_backup list_file old new (fs : FS) :
  write_with_backup list_file old new fs !! (list_file +:+ "-backup") = Some old.
Proof.
  unfold write_with_backup.
  rewrite lookup_insert_ne by (intros Heq; apply (backup_name_differs list_file); auto).
  apply lookup_insert_eq.
Qed.

Section PurgeListFacts.
Context {pattern : Type} `{RegexLib pattern}.
Variable parse_time : string -> option Q.

Lemma purge_lines_total now lifetime_days lines : forall (l : PList pattern) nc ch,
  Forall (fun e => parse_time (timestamp (snd e)) <> None) l ->
  exists st', purge_lines parse_time now lifetime_days (l, nc, ch) lines = Some st'.
Proof.
  induction lines as [|line lines IH]; intros l nc ch Hl; cbn [purge_lines].
  - eauto.
  - rewrite purge_line_cases.
    destruct (line_key line) as [key|]; [|apply IH; assumption].
    destruct (dict_get key l) as [it|] eqn:Hg; [|apply IH; assumption].
    pose proof (dict_get_Forall _ _ _ _ Hl Hg) as Hparse. simpl in Hparse.
    destruct (parse_time (timestamp it)); [|congruence].
    destruct (purgeable parse_time now lifetime_days it); apply IH; [|assumption].
    apply dict_del_Forall. assumption.
Qed.

Lemma purge_list_total (l : PList pattern) list_file lifetime_days now (fs : FS) :
  Forall (fun e => parse_time (timestamp (snd e)) <> None) l ->
  exists r, purge_list parse_time l list_file lifetime_days now fs = Some r.
Proof.
  intros Hl. unfold purge_list. destruct (fs !! list_file) as [content|]; [|eauto].
  destruct (purge_lines_total now lifetime_days (file_lines content) l "" false Hl)
    as [[[l' nc'] ch'] ->].
  destruct ch'; eauto.
Qed.

Lemma purge_lines_Forall (P : string * Item pattern -> Prop) now lifetime_days lines :
  forall (l l' : PList pattern) nc nc' ch ch',
  Forall P l ->
  purge_lines parse_time now lifetime_days (l, nc, ch) lines = Some (l', nc', ch') ->
  Forall P l'.
Proof.
  induction lines as [|line lines IH]; intros l l' nc nc' ch ch' Hl; cbn [purge_lines].
  - intros [= <- <- <-]. assumption.
  - destruct (purge_line _ _ _ (l, nc, ch) line) as [[[l1 nc1] ch1]|] eqn:H1;
      [|discriminate].
    intros Hrest. apply (IH _ _ _ _ _ _) with (2 := Hrest).
    destruct (purge_line_step _ _ _ _ _ _ _ _ _ _ H1)
      as [(-> & _) | (key & it & _ & _ & _ & -> & _)]; [assumption|].
    apply dict_del_Forall. assumption.
Qed.

Lemma purge_list_Forall (P : string * Item pattern -> Prop)
    (l l' : PList pattern) list_file lifetime_days now (fs fs' : FS) :
  Forall P l ->
  purge_list parse_time l list_file lifetime_days now fs = Some (l', fs') ->
  Forall P l'.
Proof.
  intros Hl. unfold purge_list. destruct (fs !! list_file) as [content|].
  - destruct (purge_lines _ _ _ _ (file_lines content)) as [[[l1 nc1] ch1]|] eqn:Hp;
      [|discriminate].
    pose proof (purge_lines_Forall P _ _ _ _ _ _ _ _ _ Hl Hp) as Hok.
    destruct ch1; intros [= <- <-]; assumption.
  - intros [= <- <-]. assumption.
Qed.

End PurgeListFacts.

(** ** A list and the file it was loaded from *)

Lemma translate_newlines_no_cr (s : string) :
  has_char CR (translate_newlines s) = false.
Proof.
  induction s as [|c s IH]; [reflexivity|]. cbn [translate_newlines].
  destruct (Ascii.eqb c CR) eqn:Hc.
  - destruct s as [|c' s]; [reflexivity|].
    destruct (Ascii.eqb c' LF) eqn:Hc'; [|exact IH].
    apply ascii_eqb_true in Hc'. subst c'. exact IH.
  - cbn [has_char]. rewrite Hc, IH. reflexivity.
Qed.

(** The comment test of [read_list], made after the line ends are
    removed, and that of [purge_list], made before, agree on the lines of
    a file. *)
Lemma lines_of_comment_test (s : string) :
  has_char CR s = false ->
  Forall (fun line => startswith (remove_nl line) "#" = startswith line "#") (lines_of s).
Proof.
  induction s as [|c s IH]; [constructor|]. cbn [has_char lines_of].
  intros Hs. apply orb_false_elim in Hs. destruct Hs as [Hc Hs].
  specialize (IH Hs).
  destruct (Ascii.eqb c LF) eqn:Hl.
  - constructor; [reflexivity|assumption].
  - assert (Hline : forall l, startswith (remove_nl (String c l)) "#"
                              = startswith (String c l) "#").
    { intros l. cbn [remove_nl]. rewrite Hl, Hc. cbn [orb startswith].
      rewrite !startswith_empty. reflexivity. }
    destruct (lines_of s) as [|l ls].
    + constructor; [apply Hline|constructor].
    + inversion IH; subst. constructor; [apply Hline|assumption].
Qed.

Section SyncFacts.
Context {pattern : Type} `{RegexLib pattern}.

Lemma read_dat_line_key now (l : PList pattern) line :
  startswith (remove_nl line) "#" = startswith line "#" ->
  read_dat_line now l line = l
  \/ exists key it, line_key line = Some key /\ read_dat_line now l line = dict_set key it l.
Proof.
  intros Hc. unfold read_dat_line, line_key. rewrite Hc.
  destruct (startswith line "#"); [auto|].
  destruct (split ";" (remove_nl line)) as [|regex line_list]; [auto|].
  destruct (negb (truthy regex)); [auto|].
  destruct (join_escaped regex line_list) as [key rest]. cbn [fst].
  destruct (re_compile key); [|auto].
  destruct (truthy key); [|auto].
  right. eauto.
Qed.

Lemma read_dat_lines_listed now (all : list string) lines : forall (l : PList pattern),
  (forall line, In line lines -> In line all) ->
  Forall (fun line => startswith (remove_nl line) "#" = startswith line "#") lines ->
  Forall (fun e => In (Some (fst e)) (map line_key all)) l ->
  Forall (fun e => In (Some (fst e)) (map line_key all))
         (fold_left (read_dat_line now) lines l).
Proof.
  induction lines as [|line lines IH]; intros l Hsub Hc Hl; [assumption|].
  cbn [fold_left]. inversion Hc as [|? ? Hline Hrest]; subst.
  apply IH; [intros x Hx; apply Hsub; right; assumption|assumption|].
  destruct (read_dat_line_key now l line Hline) as [-> | (key & it & Hkey & ->)];
    [assumption|].
  apply dict_set_Forall; [assumption|]. cbn [fst]. rewrite <- Hkey.
  apply in_map. apply Hsub. left. reflexivity.
Qed.

Lemma read_match_lines_Forall_keys (P : string -> Prop) lines : forall (l l' : PList pattern),
  Forall (fun e => P (fst e)) l ->
  read_match_lines l lines = Some l' ->
  Forall (fun e => P (fst e)) l'.
Proof.
  induction lines as [|line lines IH]; intros l l' Hl; cbn [read_match_lines].
  - intros [= <-]. assumption.
  - destruct (read_match_line l line) as [l1|] eqn:H1; [|discriminate].
    apply IH. unfold read_match_line in H1.
    destruct (split_max ";" 3 _) as [|ts [|cnt [|key [|]]]]; try congruence.
    destruct (dict_get key l) as [it|] eqn:Hg; [|congruence].
    destruct (py_int cnt); [|discriminate].
    injection H1 as <-. apply dict_set_Forall; [assumption|].
    apply (dict_get_Forall (fun e => P (fst e)) _ _ _ Hl Hg).
Qed.

(** Every entry of a list just loaded is named by a line of its file. *)
Lemma read_list_listed fs now list_file content (l : PList pattern) :
  read_list fs now list_file = Some l ->
  fs !! list_file = Some content ->
  Forall (fun e => In (Some (fst e)) (map line_key (file_lines content))) l.
Proof.
  unfold read_list. intros Hr Hf. rewrite Hf in Hr.
  assert (Hdat : Forall (fun e : string * Item pattern =>
                           In (Some (fst e)) (map line_key (file_lines content)))
                        (fold_left (read_dat_line now) (file_lines content) [])).
  { apply read_dat_lines_listed; [auto| |constructor].
    apply lines_of_comment_test. apply translate_newlines_no_cr. }
  destruct (fs !! (list_file +:+ "-match")) as [history|].
  - apply (read_match_lines_Forall_keys
             (fun k => In (Some k) (map line_key (file_lines content))) _ _ _ Hdat Hr).
  - injection Hr as <-. assumption.
Qed.

End SyncFacts.

(** C5, as stated, fails: an entry that is not permanent and older than
    the lifetime stays in the list when no line of the [.dat] file names
    it, the purge going by the lines of the file. *)
Lemma C5_counterexample_expired_entry_not_in_file_stays :
  ~ (forall (pattern : Type) (E : RegexLib pattern) parse_time (l l' : PList pattern)
            list_file lifetime_days now
            (fs fs' : FS),
       purge_list parse_time l list_file lifetime_days now fs = Some (l', fs') ->
       forall k it,
         dict_get k l = Some it ->
         (dict_get k l' = None <->
          permanent it = false /\ expired parse_time now lifetime_days it = true)).
Proof.
  intros Hall.
  assert (Hp : purge_list example_parse_time Sample.stale_list "blocklist.dat"
                 blocklist_lifetime_days Sample.late Sample.edited_files
               = Some (Sample.stale_list, Sample.edited_files)).
  { unfold purge_list.
    assert (Hf : Sample.edited_files !! "blocklist.dat"
                 = Some ("xyz;;somebody else" +:+ NL)) by (vm_compute; reflexivity).
    rewrite Hf.
    assert (Hl : purge_lines example_parse_time Sample.late blocklist_lifetime_days
                   (Sample.stale_list, "", false)
                   (file_lines ("xyz;;somebody else" +:+ NL))
                 = Some (Sample.stale_list, "xyz;;somebody else" +:+ NL, false))
      by (vm_compute; reflexivity).
    rewrite Hl. reflexivity. }
  destruct (Hall _ PyRe.engine _ _ _ _ _ _ _ _ Hp "abc" _ eq_refl) as [_ Hgone].
  assert (Hn : dict_get "abc" Sample.stale_list = None).
  { apply Hgone. split; vm_compute; reflexivity. }
  discriminate Hn.
Qed.

(** C5, amended. A purge that finds the timestamps of the list readable
    returns.  It leaves every permanent entry as it was, whatever its
    age, and changes no entry that stays; it takes out of the list
    exactly the entries that are not permanent, older than the lifetime
    and named by a line of the [.dat] file that is not a comment (every
    entry is so named in a list loaded from that file).  When no entry
    goes the files are untouched; when one goes, the old file becomes the
    backup and the new file holds the old lines, each copied or, for an
    entry taken, commented out. *)
Theorem C5_purge_takes_listed_expired_nonpermanent
    (pattern : Type) (E : RegexLib pattern) (parse_time : string -> option Q)
    (l : PList pattern) (list_file : string)
    (lifetime_days : Z) (now : Q) (fs : FS) :
  dict_wf l ->
  let lines := match fs !! list_file with
               | Some content => file_lines content
               | None => []
               end in
  (Forall (fun e => parse_time (timestamp (snd e)) <> None) l ->
   exists r, purge_list parse_time l list_file lifetime_days now fs = Some r)
  /\ (forall l' fs',
        purge_list parse_time l list_file lifetime_days now fs = Some (l', fs') ->
        (forall k it, dict_get k l = Some it -> permanent it = true ->
                      dict_get k l' = Some it)
        /\ (forall k it, dict_get k l' = Some it -> dict_get k l = Some it)
        /\ (forall k it,
              dict_get k l = Some it ->
              (dict_get k l' = None <->
               purgeable parse_time now lifetime_days it = true
               /\ In (Some k) (map line_key lines)))
        /\ ((forall k it, dict_get k l = Some it -> dict_get k l' = Some it) -> fs' = fs)
        /\ (forall k it,
              dict_get k l = Some it -> dict_get k l' = None ->
              exists content outs,
                fs !! list_file = Some content
                /\ fs' = write_with_backup list_file content (String.concat "" outs) fs
                /\ fs' !! list_file = Some (String.concat "" outs)
                /\ fs' !! (list_file +:+ "-backup") = Some content
                /\ Forall2 (purged_line parse_time now lifetime_days l) lines outs
                /\ exists line,
                     In (line, commented_out it line) (combine lines outs)
                     /\ line_key line = Some k)
        /\ (Forall (fun e => In (Some (fst e)) (map line_key lines)) l ->
            forall k it,
              dict_get k l = Some it ->
              (dict_get k l' = None <->
               purgeable parse_time now lifetime_days it = true)))
  /\ (forall fs0 loaded_at content,
        read_list fs0 loaded_at list_file = Some l ->
        fs0 !! list_file = Some content -> fs !! list_file = Some content ->
        Forall (fun e => In (Some (fst e)) (map line_key lines)) l).
Proof.
  intros Hwf lines. split; [apply purge_list_total|].
  split; [|intros fs0 loaded_at content Hr Hf0 Hf; subst lines; rewrite Hf;
           apply (read_list_listed _ _ _ _ _ Hr Hf0)].
  assert (Hsync : forall l' : PList pattern,
             (forall k it,
                dict_get k l = Some it ->
                (dict_get k l' = None <->
                 purgeable parse_time now lifetime_days it = true
                 /\ In (Some k) (map line_key lines))) ->
             Forall (fun e => In (Some (fst e)) (map line_key lines)) l ->
             forall k it,
               dict_get k l = Some it ->
               (dict_get k l' = None <->
                purgeable parse_time now lifetime_days it = true)).
  { intros l' Hexact Hlisted k it Hg. rewrite (Hexact k it Hg). split; [tauto|].
    intros Hp. split; [assumption|].
    apply (dict_get_Forall _ _ _ _ Hlisted Hg). }
  intros l' fs'. unfold purge_list. subst lines.
  destruct (fs !! list_file) as [content|].
  - destruct (purge_lines _ _ _ _ (file_lines content)) as [[[l1 nc1] ch1]|] eqn:Hp;
      [|discriminate].
    destruct (purge_lines_survivors _ _ _ _ _ _ _ _ _ _ Hwf Hp) as [_ Hsub].
    destruct (purge_lines_text _ _ _ _ _ _ _ _ _ _ Hwf Hp)
      as (outs & Hnc & Hall & Hgone & Hflag).
    intros Hret.
    assert (Hl' : l1 = l') by (destruct ch1; congruence).
    subst l1.
    split.
    { intros k it Hg Hperm. apply (purge_lines_keeps _ _ _ _ _ _ _ _ _ _ _ _ Hp Hg).
      unfold purgeable. rewrite Hperm. reflexivity. }
    assert (Hexact : forall k it,
               dict_get k l = Some it ->
               (dict_get k l' = None <->
                purgeable parse_time now lifetime_days it = true
                /\ In (Some k) (map line_key (file_lines content)))).
    { intros k it Hg. split.
      - apply (purge_lines_removed _ _ _ _ _ _ _ _ _ _ _ _ Hwf Hp Hg).
      - intros [Hp' Hin].
        apply (purge_lines_removes _ _ _ _ _ _ _ _ _ _ _ _ Hwf Hp Hg Hp' Hin). }
    split; [exact Hsub|]. split; [exact Hexact|].
    split.
    { intros Hkeep. destruct Hflag as [(-> & _)|(_ & k & it & Hg & Hn)].
      - congruence.
      - rewrite (Hkeep _ _ Hg) in Hn. discriminate. }
    split; [|apply Hsync; exact Hexact].
    intros k it Hg Hn.
    assert (Hch : ch1 = true).
    { destruct Hflag as [(_ & -> & _)|[-> _]]; [congruence|reflexivity]. }
    subst ch1. injection Hret as <-. simpl in Hnc. subst nc1.
    exists content, outs. split; [reflexivity|]. split; [reflexivity|].
    split; [apply write_with_backup_file|]. split; [apply write_with_backup_backup|].
    split; [assumption|]. apply (Hgone _ _ Hg Hn).
  - intros [= <- <-].
    assert (Hexact : forall k it,
               dict_get k l = Some it ->
               (dict_get k l = None <->
                purgeable parse_time now lifetime_days it = true /\ In (Some k) (map line_key []))).
    { intros k it Hg. split; [congruence|]. intros [_ []]. }
    split; [auto|]. split; [auto|]. split; [exact Hexact|].
    split; [auto|]. split; [|apply Hsync; exact Hexact].
    intros k it Hg Hn. congruence.
Qed.

(** C5, amended, on a list with one stale entry and one permanent entry
    of the same age, purged in November 2023. *)
Lemma C5_purge_takes_listed_expired_nonpermanent_witness :
  dict_wf Sample.stale_list2
  /\ exists l' fs',
       purge_list example_parse_time Sample.stale_list2 "blocklist.dat"
         blocklist_lifetime_days Sample.late Sample.stale_files = Some (l', fs')
       /\ dict_get "abc" l' = None
       /\ Sample.history "^Mom" l' = Some ("2021-01-01 00:00", 0%Z).
Proof.
  assert (Hwf : dict_wf Sample.stale_list2) by (repeat split).
  split; [exact Hwf|].
  destruct (C5_purge_takes_listed_expired_nonpermanent _ PyRe.engine example_parse_time
              Sample.stale_list2 "blocklist.dat" blocklist_lifetime_days Sample.late
              Sample.stale_files Hwf) as (Htotal & Hspec & _).
  destruct Htotal as [[l' fs'] Hp].
  { repeat constructor; discriminate. }
  destruct (Hspec l' fs' Hp) as (Hperm & _ & Hexact & _).
  exists l', fs'. split; [exact Hp|]. split.
  - apply (Hexact "abc" _ eq_refl). split; [reflexivity|].
    right. left. reflexivity.
  - unfold Sample.history. rewrite (Hperm "^Mom" _ eq_refl eq_refl). reflexivity.
Defined.

(** ** The invariant of the lists *)

Section InvariantFacts.
Context {pattern : Type} `{RegexLib pattern}.

Lemma match_list_Forall (P : string * Item pattern -> Prop) (l : PList pattern) candidate ts :
  (forall k it, P (k, it) -> P (k, matched ts it)) ->
  Forall P l -> Forall P (fst (match_list l candidate ts)).
Proof.
  intros Hm Hl. induction Hl as [|[k it] l Hk Hl IH]; simpl; [constructor|].
  destruct (re_match (regex it) candidate); simpl.
  - constructor; [apply Hm; assumption|assumption].
  - destruct (match_list l candidate ts) as [l' hit]. simpl in *.
    constructor; assumption.
Qed.

Lemma match_list_both_Forall (P : string * Item pattern -> Prop) (l : PList pattern)
    number name ts :
  (forall k it, P (k, it) -> P (k, matched ts it)) ->
  Forall P l -> Forall P (fst (match_list_both l number name ts)).
Proof.
  intros Hm Hl. unfold match_list_both.
  pose proof (match_list_Forall P l number ts Hm Hl) as H1.
  destruct (match_list l number ts) as [l1 [|]]; simpl in *; [assumption|].
  apply match_list_Forall; assumption.
Qed.

Lemma match_list_both_ok (l : PList pattern) number name ts :
  compiled_ok l -> compiled_ok (fst (match_list_both l number name ts)).
Proof. apply match_list_both_Forall. intros k it Hk. exact Hk. Qed.

Lemma add_by_star_ok env c (bl : PList pattern) (fs : FS) :
  compiled_ok bl -> compiled_ok (fst (fst (add_by_star env c bl fs))).
Proof.
  intros Hbl. unfold add_by_star.
  destruct (re_compile (call_number c)) as [compiled|] eqn:Hc; [|assumption].
  destruct (truthy (call_number c)); [|assumption].
  simpl. apply dict_set_Forall; assumption.
Qed.

Lemma compiled_ok_get (l : PList pattern) key :
  compiled_ok l -> re_compile key = None -> dict_get key l = None.
Proof.
  intros Hl Hc. destruct (dict_get key l) as [it|] eqn:Hg; [|reflexivity].
  pose proof (dict_get_Forall _ _ _ _ Hl Hg) as Hk. simpl in Hk. congruence.
Qed.

Lemma dict_get_None_keys (l : PList pattern) key :
  dict_get key l = None <-> ~ In key (map fst l).
Proof.
  induction l as [|[k it] l IH]; cbn [dict_get map fst In]; [tauto|].
  destruct (String.eqb k key) eqn:Hk.
  - apply String.eqb_eq in Hk. split; [discriminate|]. intros Hn. exfalso. auto.
  - rewrite IH. split; [|tauto]. intros Hn [Heq|Hin]; [|auto].
    subst k. rewrite String.eqb_refl in Hk. discriminate.
Qed.

(** Being a dictionary is a matter of the keys alone. *)
Lemma dict_wf_keys (l : PList pattern) : forall l' : PList pattern,
  map fst l' = map fst l -> dict_wf l -> dict_wf l'.
Proof.
  induction l as [|[k it] l IH]; intros [|[k' it'] l'] Hkeys; try discriminate; [auto|].
  cbn [map fst] in Hkeys. injection Hkeys as -> Hkeys. cbn [dict_wf].
  intros [Hk Hl]. split; [|apply IH; assumption].
  apply dict_get_None_keys. rewrite Hkeys. apply dict_get_None_keys. assumption.
Qed.

Lemma match_list_keys (l : PList pattern) candidate ts :
  map fst (fst (match_list l candidate ts)) = map fst l.
Proof.
  induction l as [|[k it] l IH]; [reflexivity|]. cbn [match_list].
  destruct (re_match (regex it) candidate); [reflexivity|].
  destruct (match_list l candidate ts) as [l' hit]. cbn [fst map] in *.
  rewrite IH. reflexivity.
Qed.

Lemma match_list_both_wf (l : PList pattern) number name ts :
  dict_wf l -> dict_wf (fst (match_list_both l number name ts)).
Proof.
  intros Hl. unfold match_list_both.
  pose proof (match_list_keys l number ts) as H1.
  destruct (match_list l number ts) as [l1 [|]]; cbn [fst] in *.
  - apply (dict_wf_keys l); assumption.
  - apply (dict_wf_keys l); [|assumption].
    rewrite match_list_keys. assumption.
Qed.

Lemma add_by_star_wf env c (bl : PList pattern) (fs : FS) :
  dict_wf bl -> dict_wf (fst (fst (add_by_star env c bl fs))).
Proof.
  intros Hbl. unfold add_by_star.
  destruct (re_compile (call_number c)); [|assumption].
  destruct (truthy (call_number c)); [|assumption].
  apply dict_set_wf. assumption.
Qed.

Lemma purge_list_wf parse_time (l l' : PList pattern) list_file lifetime_days now
    (fs fs' : FS) :
  dict_wf l ->
  purge_list parse_time l list_file lifetime_days now fs = Some (l', fs') ->
  dict_wf l'.
Proof.
  intros Hl. unfold purge_list. destruct (fs !! list_file) as [content|].
  - destruct (purge_lines _ _ _ _ (file_lines content)) as [[[l1 nc1] ch1]|] eqn:Hp;
      [|discriminate].
    destruct (purge_lines_survivors _ _ _ _ _ _ _ _ _ _ Hl Hp) as [Hwf _].
    destruct ch1; intros [= <- <-]; assumption.
  - intros [= <- <-]. assumption.
Qed.

(** A property of lists that loading establishes and that matching,
    adding after a star key and purging keep holds of both lists in
    every state the program reaches. *)
Section Preservation.
Variable Inv : PList pattern -> Prop.
Hypothesis Inv_match : forall l number name ts,
  Inv l -> Inv (fst (match_list_both l number name ts)).
Hypothesis Inv_add : forall env c bl fs,
  Inv bl -> Inv (fst (fst (add_by_star env c bl fs))).
Hypothesis Inv_load : forall fs now list_file l,
  read_list fs now list_file = Some l -> Inv l.
Hypothesis Inv_purge : forall parse_time l l' list_file lifetime_days now fs fs',
  Inv l -> purge_list parse_time l list_file lifetime_days now fs = Some (l', fs') -> Inv l'.

Lemma screen_keeps env (w w' : World pattern) c :
  Inv (allowlist w) -> Inv (blocklist w) ->
  screen env w c = Some w' ->
  Inv (allowlist w') /\ Inv (blocklist w').
Proof.
  intros Hal Hbl.
  destruct (snd (match_list_both (allowlist w) (call_number c) (call_name c)
                   (make_timestamp (year env) c))) eqn:Ha.
  { rewrite (screen_allow _ _ _ Ha). intros [= <-]. cbn [allowlist blocklist].
    split; [apply Inv_match|]; assumption. }
  destruct (snd (match_list_both (blocklist w) (call_number c) (call_name c)
                   (make_timestamp (year env) c))) eqn:Hb.
  { rewrite (screen_block _ _ _ Ha Hb). intros [= <-]. cbn [allowlist blocklist].
    split; [|apply Inv_match]; assumption. }
  rewrite (screen_neither _ _ _ Ha Hb).
  destruct (wait_for_star _ _ _) as [[m star]|]; [|discriminate].
  destruct star.
  - pose proof (Inv_add env c (blocklist w) (files w) Hbl) as Hadd.
    destruct (add_by_star env c (blocklist w) (files w)) as [[bl fs] outcome].
    intros [= <-]. cbn [allowlist blocklist fst] in *. auto.
  - intros [= <-]. cbn [allowlist blocklist]. auto.
Qed.

Lemma reload_lists_gives now_allow now_block (w w' : World pattern) :
  reload_lists now_allow now_block w = Some w' ->
  Inv (allowlist w') /\ Inv (blocklist w').
Proof.
  unfold reload_lists.
  destruct (read_list (files w) now_allow allowlist_file) as [al|] eqn:Ha; [|discriminate].
  destruct (read_list _ now_block blocklist_file) as [bl|] eqn:Hb; [|discriminate].
  intros [= <-]. cbn [allowlist blocklist]. split; eapply Inv_load; eassumption.
Qed.

Lemma main_pass_keeps parse_time i (s s' : MainState pattern) :
  Inv (allowlist (world s)) -> Inv (blocklist (world s)) ->
  main_pass parse_time i s = Some s' ->
  Inv (allowlist (world s')) /\ Inv (blocklist (world s')).
Proof.
  intros Hal Hbl. unfold main_pass.
  destruct (purge_if_due parse_time i s) as [s1|] eqn:Hp; [|discriminate].
  assert (H1 : Inv (allowlist (world s1)) /\ Inv (blocklist (world s1))).
  { unfold purge_if_due in Hp. destruct (Qlt_bool _ _).
    - destruct (purge_list _ _ _ _ _ _) as [[bl fs]|] eqn:Hpl; [|discriminate].
      injection Hp as <-. cbn [world allowlist blocklist]. split; [assumption|].
      apply (Inv_purge _ _ _ _ _ _ _ _ Hbl Hpl).
    - injection Hp as <-. auto. }
  destruct H1 as [Hal1 Hbl1].
  destruct (if reload_config i then _ else _) as [w|] eqn:Hr; [|discriminate].
  assert (H2 : Inv (allowlist w) /\ Inv (blocklist w)).
  { destruct (reload_config i).
    - apply (reload_lists_gives _ _ _ _ Hr).
    - injection Hr as <-. auto. }
  destruct H2 as [Hal2 Hbl2].
  destruct (accumulate (fields s1) (line i)) as [c [|]].
  - destruct (screen (screen_env i) w c) as [w'|] eqn:Hs; [|discriminate].
    intros [= <-]. cbn [world]. apply (screen_keeps _ _ _ _ Hal2 Hbl2 Hs).
  - intros [= <-]. cbn [world]. auto.
Qed.

Lemma main_run_keeps parse_time inputs : forall (s s' : MainState pattern),
  Inv (allowlist (world s)) -> Inv (blocklist (world s)) ->
  main_run parse_time inputs s = Some s' ->
  Inv (allowlist (world s')) /\ Inv (blocklist (world s')).
Proof.
  induction inputs as [|i inputs IH]; intros s s' Hal Hbl; cbn [main_run].
  - intros [= <-]. auto.
  - destruct (main_pass parse_time i s) as [s1|] eqn:H1; [|discriminate].
    destruct (main_pass_keeps _ _ _ _ Hal Hbl H1). apply IH; assumption.
Qed.

Lemma main_start_gives now_allow now_block fs (s : MainState pattern) :
  main_start now_allow now_block fs = Some s ->
  Inv (allowlist (world s)) /\ Inv (blocklist (world s)).
Proof.
  unfold main_start. destruct (reload_lists _ _ _) as [w|] eqn:Hr; [|discriminate].
  intros [= <-]. cbn [world]. apply (reload_lists_gives _ _ _ _ Hr).
Qed.

End Preservation.

Lemma screen_ok env (w w' : World pattern) c :
  compiled_ok (allowlist w) -> compiled_ok (blocklist w) ->
  screen env w c = Some w' ->
  compiled_ok (allowlist w') /\ compiled_ok (blocklist w').
Proof. apply (screen_keeps compiled_ok match_list_both_ok add_by_star_ok). Qed.

Lemma reload_lists_ok now_allow now_block (w w' : World pattern) :
  reload_lists now_allow now_block w = Some w' ->
  compiled_ok (allowlist w') /\ compiled_ok (blocklist w').
Proof. apply (reload_lists_gives compiled_ok read_list_ok). Qed.

Lemma purge_list_ok parse_time (l l' : PList pattern) list_file lifetime_days now
    (fs fs' : FS) :
  compiled_ok l ->
  purge_list parse_time l list_file lifetime_days now fs = Some (l', fs') ->
  compiled_ok l'.
Proof. apply purge_list_Forall. Qed.

Lemma main_pass_ok parse_time i (s s' : MainState pattern) :
  compiled_ok (allowlist (world s)) -> compiled_ok (blocklist (world s)) ->
  main_pass parse_time i s = Some s' ->
  compiled_ok (allowlist (world s')) /\ compiled_ok (blocklist (world s')).
Proof.
  apply (main_pass_keeps compiled_ok match_list_both_ok add_by_star_ok read_list_ok
           purge_list_ok).
Qed.

(** In every state that [main] reaches, every entry of both lists has a
    key that compiles to its pattern, and no key appears twice. *)
Lemma reachable_lists_ok parse_time now_allow now_block fs inputs
    (s0 s : MainState pattern) :
  main_start now_allow now_block fs = Some s0 ->
  main_run parse_time inputs s0 = Some s ->
  (compiled_ok (allowlist (world s)) /\ compiled_ok (blocklist (world s)))
  /\ (dict_wf (allowlist (world s)) /\ dict_wf (blocklist (world s))).
Proof.
  intros H0 Hrun. split.
  - destruct (main_start_gives compiled_ok read_list_ok _ _ _ _ H0) as [Ha Hb].
    apply (main_run_keeps compiled_ok match_list_both_ok add_by_star_ok read_list_ok
             purge_list_ok _ _ _ _ Ha Hb Hrun).
  - destruct (main_start_gives dict_wf read_list_wf _ _ _ _ H0) as [Ha Hb].
    apply (main_run_keeps dict_wf match_list_both_wf add_by_star_wf read_list_wf
             purge_list_wf _ _ _ _ Ha Hb Hrun).
Qed.

End InvariantFacts.

(** C9. Every entry of a list in memory has a key that compiles as a
    pattern, to the pattern stored with it.  A list just loaded has the
    property; a [.dat] line whose pattern does not compile leaves the
    list as it was, and a text that does not compile is the key of no
    entry; a number that does not compile is not inserted after a star
    key; and matching, adding, purging, reloading and a whole pass of the
    main loop keep the property, so that it holds of both lists in every
    state the program reaches. *)
Theorem C9_every_entry_has_a_compiled_pattern :
  (forall (pattern : Type) (E : RegexLib pattern),
     (forall fs now list_file (l : PList pattern),
        read_list fs now list_file = Some l -> compiled_ok l)
     /\ (forall now (l : PList pattern) line regex line_list,
           split ";" (remove_nl line) = regex :: line_list ->
           re_compile (fst (join_escaped regex line_list)) = None ->
           read_dat_line now l line = l)
     /\ (forall (l : PList pattern) key,
           compiled_ok l -> re_compile key = None -> dict_get key l = None)
     /\ (forall (l : PList pattern) candidate ts,
           compiled_ok l -> compiled_ok (fst (match_list l candidate ts)))
     /\ (forall (l : PList pattern) number name ts,
           compiled_ok l -> compiled_ok (fst (match_list_both l number name ts)))
     /\ (forall env c (bl : PList pattern) fs,
           compiled_ok bl -> compiled_ok (fst (fst (add_by_star env c bl fs))))
     /\ (forall env c (bl : PList pattern) fs,
           re_compile (call_number c) = None ->
           add_by_star env c bl fs = (bl, fs, "no match"))
     /\ (forall parse_time (l l' : PList pattern) list_file lifetime_days now fs fs',
           compiled_ok l ->
           purge_list parse_time l list_file lifetime_days now fs = Some (l', fs') ->
           compiled_ok l')
     /\ (forall now_allow now_block (w w' : World pattern),
           reload_lists now_allow now_block w = Some w' ->
           compiled_ok (allowlist w') /\ compiled_ok (blocklist w'))
     /\ (forall parse_time i (s s' : MainState pattern),
           compiled_ok (allowlist (world s)) -> compiled_ok (blocklist (world s)) ->
           main_pass parse_time i s = Some s' ->
           compiled_ok (allowlist (world s')) /\ compiled_ok (blocklist (world s')))
     /\ (forall parse_time now_allow now_block fs inputs (s0 s : MainState pattern),
           main_start now_allow now_block fs = Some s0 ->
           main_run parse_time inputs s0 = Some s ->
           compiled_ok (allowlist (world s)) /\ compiled_ok (blocklist (world s))))
  /\ re_compile (RegexLib := PyRe.engine) "*67" = None
  /\ option_map (map fst)
       (read_list (H := PyRe.engine) Sample.bad_files "2021-10-06 17:01" "blocklist.dat")
     = Some ["^555"].
Proof.
  split; [|split; reflexivity].
  intros pattern E.
  split; [apply read_list_ok|].
  split; [apply read_dat_line_dropped|].
  split; [apply compiled_ok_get|].
  split.
  { intros l candidate ts. apply match_list_Forall. intros k it Hk. exact Hk. }
  split; [apply match_list_both_ok|].
  split; [apply add_by_star_ok|].
  split.
  { intros env c bl fs Hc. apply add_by_star_discarded. left. assumption. }
  split.
  { intros parse_time l l' list_file lifetime_days now fs fs' Hl Hp.
    apply (purge_list_Forall _ _ _ _ _ _ _ _ _ Hl Hp). }
  split; [apply reload_lists_ok|]. split; [apply main_pass_ok|].
  intros parse_time now_allow now_block fs inputs s0 s H0 Hrun.
  apply (reachable_lists_ok _ _ _ _ _ _ _ H0 Hrun).
Qed.

(** ** The purge clock of an entry without history *)

Section ClockFacts.
Context {pattern : Type} `{RegexLib pattern}.

Lemma Qlt_bool_false (x y : Q) : Qlt_bool x y = false <-> (y <= x)%Q.
Proof.
  unfold Qlt_bool. rewrite negb_false_iff. apply Qle_bool_iff.
Qed.

Lemma Qlt_bool_true (x y : Q) : Qlt_bool x y = true <-> (x < y)%Q.
Proof.
  unfold Qlt_bool. rewrite negb_true_iff. split.
  - intros Hb. apply Qnot_le_lt. intros Hle. apply Qle_bool_iff in Hle. congruence.
  - intros Hlt. destruct (Qle_bool y x) eqn:Hb; [|reflexivity].
    apply Qle_bool_iff in Hb. exfalso. apply (Qlt_not_le _ _ Hlt Hb).
Qed.

End ClockFacts.

(** C10. An entry loaded from the [.dat] file for which the history file
    has no line carries the time of the load itself as its timestamp and
    a count of zero.  Hence, while such an entry is unmatched and the
    time elapsed since the load is within the lifetime, no purge takes
    it; and once the elapsed time exceeds the lifetime, a purge that
    returns takes it if it is not permanent and the [.dat] file still
    names it.  A later load without a history line starts the clock
    again, the timestamp being the time of that load. *)
Theorem C10_entry_without_history_counts_from_the_load
    (pattern : Type) (E : RegexLib pattern) (parse_time : string -> option Q)
    (fs : FS) (now : string) (list_file : string) (l : PList pattern)
    (key : string) (it : Item pattern) :
  read_list fs now list_file = Some l ->
  dict_get key l = Some it ->
  match fs !! (list_file +:+ "-match") with
  | Some history => no_history key (file_lines history)
  | None => True
  end ->
  (timestamp it = now /\ count it = 0%Z)
  /\ (forall loaded_at t lifetime_days fs1 l' fs',
        parse_time now = Some loaded_at ->
        (t - loaded_at <= inject_Z (lifetime_days * day_secs))%Q ->
        purge_list parse_time l list_file lifetime_days t fs1 = Some (l', fs') ->
        dict_get key l' = Some it)
  /\ (forall loaded_at t lifetime_days fs1 l' fs' content,
        parse_time now = Some loaded_at ->
        (inject_Z (lifetime_days * day_secs) < t - loaded_at)%Q ->
        permanent it = false ->
        fs1 !! list_file = Some content ->
        In (Some key) (map line_key (file_lines content)) ->
        purge_list parse_time l list_file lifetime_days t fs1 = Some (l', fs') ->
        dict_get key l' = None).
Proof.
  intros Hr Hg Hno.
  destruct (read_list_no_history _ _ _ _ _ _ Hr Hg Hno) as [Hts Hcnt].
  split; [auto|]. split.
  - intros loaded_at t lifetime_days fs1 l' fs' Hparse Hle Hp.
    unfold purge_list in Hp. destruct (fs1 !! list_file) as [content|].
    + destruct (purge_lines _ _ _ _ (file_lines content)) as [[[l1 nc1] ch1]|] eqn:Hpl;
        [|discriminate].
      assert (Hl1 : l1 = l') by (destruct ch1; congruence). subst l1.
      apply (purge_lines_keeps _ _ _ _ _ _ _ _ _ _ _ _ Hpl Hg).
      unfold purgeable, expired. rewrite Hts, Hparse.
      apply andb_false_intro2. apply Qlt_bool_false. assumption.
    + congruence.
  - intros loaded_at t lifetime_days fs1 l' fs' content Hparse Hlt Hperm Hf Hin Hp.
    pose proof (read_list_wf _ _ _ _ Hr) as Hwf.
    unfold purge_list in Hp. rewrite Hf in Hp.
    destruct (purge_lines _ _ _ _ (file_lines content)) as [[[l1 nc1] ch1]|] eqn:Hpl;
      [|discriminate].
    assert (Hl1 : l1 = l') by (destruct ch1; congruence). subst l1.
    apply (purge_lines_removes _ _ _ _ _ _ _ _ _ _ _ _ Hwf Hpl Hg); [|assumption].
    unfold purgeable, expired. rewrite Hts, Hparse, Hperm. simpl.
    apply Qlt_bool_true. assumption.
Qed.

(** C10 on the block list loaded at 17:01 without a history file and
    purged a day later. *)
Lemma C10_entry_without_history_counts_from_the_load_witness :
  read_list Sample.files0 "2021-10-06 17:01" "blocklist.dat" = Some Sample.loaded_block
  /\ Sample.history "^555" Sample.loaded_block = Some ("2021-10-06 17:01", 0%Z)
  /\ exists l' fs',
       purge_list example_parse_time Sample.loaded_block "blocklist.dat"
         blocklist_lifetime_days (inject_Z (1633539660 + 86400)) Sample.files0
       = Some (l', fs')
       /\ Sample.history "^555" l' = Some ("2021-10-06 17:01", 0%Z).
Proof.
  assert (Hr : read_list Sample.files0 "2021-10-06 17:01" "blocklist.dat"
               = Some Sample.loaded_block) by (vm_compute; reflexivity).
  assert (Hno : match Sample.files0 !! ("blocklist.dat" +:+ "-match") with
                | Some history => no_history "^555" (file_lines history)
                | None => True
                end) by (vm_compute; exact I).
  destruct (C10_entry_without_history_counts_from_the_load _ PyRe.engine
              example_parse_time Sample.files0 "2021-10-06 17:01" "blocklist.dat"
              Sample.loaded_block "^555" _ Hr eq_refl Hno) as (Hfresh & Hkept & _).
  split; [exact Hr|]. split.
  - reflexivity.
  - destruct (purge_list_total example_parse_time Sample.loaded_block "blocklist.dat"
                blocklist_lifetime_days (inject_Z (1633539660 + 86400)) Sample.files0)
      as [[l' fs'] Hp].
    { repeat constructor; discriminate. }
    exists l', fs'. split; [exact Hp|].
    unfold Sample.history.
    rewrite (Hkept (inject_Z 1633539660) (inject_Z (1633539660 + 86400))
               blocklist_lifetime_days Sample.files0 l' fs' eq_refl
               ltac:(vm_compute; intros Hc; discriminate Hc) Hp).
    reflexivity.
Defined.

(** ** The history file *)

Lemma remove_nl_app (a b : string) : remove_nl (a +:+ b) = remove_nl a +:+ remove_nl b.
Proof.
  induction a as [|x a IH]; [reflexivity|].
  change (remove_nl (String x (a +:+ b)) = remove_nl (String x a) +:+ remove_nl b).
  cbn [remove_nl]. destruct (Ascii.eqb x LF || Ascii.eqb x CR); [assumption|].
  change (String x (remove_nl (a +:+ b)) = String x (remove_nl a +:+ remove_nl b)).
  rewrite IH. reflexivity.
Qed.

Lemma has_char_remove_nl c (s : string) :
  has_char c s = false -> has_char c (remove_nl s) = false.
Proof.
  induction s as [|x s IH]; [reflexivity|]. cbn [has_char remove_nl].
  intros Hs. apply orb_false_elim in Hs. destruct Hs as [Hx Hs].
  destruct (Ascii.eqb x LF || Ascii.eqb x CR); [auto|].
  cbn [has_char]. rewrite Hx. simpl. auto.
Qed.

Lemma has_semicolon_remove_nl (s : string) :
  has_char ";" s = true -> has_char ";" (remove_nl s) = true.
Proof.
  induction s as [|x s IH]; [discriminate|]. cbn [has_char remove_nl].
  intros Hs. apply orb_prop in Hs. destruct Hs as [Hx|Hs].
  - apply ascii_eqb_true in Hx. subst x. reflexivity.
  - destruct (Ascii.eqb x LF || Ascii.eqb x CR); [auto|].
    cbn [has_char]. rewrite (IH Hs). apply orb_true_r.
Qed.

(** A field without the separator is cut off whole. *)
Lemma split_max_field sep n (a rest : string) :
  has_char sep a = false ->
  split_max sep (S n) (a +:+ String sep rest) = a :: split_max sep n rest.
Proof.
  induction a as [|x a IH]; intros Ha.
  - change (split_max sep (S n) (String sep rest) = "" :: split_max sep n rest).
    cbn [split_max]. rewrite Ascii.eqb_refl. reflexivity.
  - cbn [has_char] in Ha. apply orb_false_elim in Ha. destruct Ha as [Hx Ha].
    change (split_max sep (S n) (String x (a +:+ String sep rest))
            = String x a :: split_max sep n rest).
    cbn [split_max]. rewrite Hx. rewrite (IH Ha). reflexivity.
Qed.

(** With one cut left, a text that holds the separator falls in two. *)
Lemma split_max_last sep (k : string) :
  has_char sep k = true -> exists x y, split_max sep 1 k = [x; y].
Proof.
  induction k as [|c k IH]; [discriminate|]. cbn [has_char split_max].
  destruct (Ascii.eqb c sep); simpl.
  - intros _. exists "", k. destruct k; reflexivity.
  - intros Hk. destruct (IH Hk) as (x & y & ->). eauto.
Qed.

Lemma string_of_uint_no_char c (d : Decimal.uint) :
  digit_of c = None -> has_char c (NilZero.string_of_uint d) = false.
Proof.
  intros Hc.
  assert (Hgen : has_char c (NilEmpty.string_of_uint d) = false).
  { induction d; cbn [NilEmpty.string_of_uint has_char]; try reflexivity;
      rewrite IHd, orb_false_r; apply Ascii.eqb_neq; intros <-; discriminate Hc. }
  destruct d; try exact Hgen. cbn [NilZero.string_of_uint has_char].
  rewrite orb_false_r. apply Ascii.eqb_neq. intros <-. discriminate Hc.
Qed.

Lemma py_str_no_char c (n : Z) :
  digit_of c = None -> c <> "-"%char -> has_char c (py_str n) = false.
Proof.
  intros Hc Hm. unfold py_str, NilZero.string_of_int.
  destruct (Z.to_int n) as [d|d].
  - apply string_of_uint_no_char. assumption.
  - cbn [has_char]. rewrite string_of_uint_no_char by assumption.
    rewrite orb_false_r. apply Ascii.eqb_neq. congruence.
Qed.

(** The line that [update_list_match] writes for a pattern that holds a
    semicolon splits into four fields, and [read_list] passes it over. *)
Lemma history_line_with_semicolon_rejected {pattern : Type} `{RegexLib pattern}
    (l : PList pattern) key (it : Item pattern) :
  has_char ";" key = true -> has_char ";" (timestamp it) = false ->
  read_match_line l (match_line (key, it)) = Some l.
Proof.
  intros Hk Ht. unfold read_match_line, match_line. cbn [fst snd].
  repeat rewrite remove_nl_app.
  change (remove_nl ";") with ";". change (remove_nl NL) with "".
  rewrite append_nil_r.
  repeat match goal with
         | |- context [";" +:+ ?x] => change (";" +:+ x) with (String ";" x)
         end.
  rewrite (split_max_field ";" 2) by (apply has_char_remove_nl; assumption).
  rewrite (split_max_field ";" 1)
    by (apply has_char_remove_nl; apply py_str_no_char; [reflexivity|discriminate]).
  destruct (split_max_last ";" (remove_nl key) (has_semicolon_remove_nl _ Hk))
    as (x & y & ->).
  reflexivity.
Qed.


(** ** Byte buffers *)

Section BytesFacts.

Lemma byte_eqb_true (a b : Byte.byte) : Byte.eqb a b = true -> a = b.
Proof. apply Byte.byte_dec_bl. Qed.

Lemma byte_eqb_refl (a : Byte.byte) : Byte.eqb a a = true.
Proof. apply Byte.byte_dec_lb. reflexivity. Qed.

Lemma starts_with_app (needle a b : bytes) :
  starts_with needle a = true -> starts_with needle (a ++ b) = true.
Proof.
  revert a. induction needle as [|n needle IH]; intros a; [reflexivity|].
  destruct a as [|x a]; simpl; [discriminate|].
  intros Hs. apply andb_prop in Hs. destruct Hs as [-> Hs]. simpl. auto.
Qed.

Lemma contains_app_false (n : Byte.byte) (needle a b : bytes) :
  contains (n :: needle) (a ++ b) = false -> contains (n :: needle) a = false.
Proof.
  induction a as [|x a IH]; [reflexivity|].
  change ((x :: a) ++ b) with (x :: (a ++ b)). cbn [contains].
  intros Hc. apply orb_false_elim in Hc. destruct Hc as [Hs Hc].
  rewrite (IH Hc), orb_false_r.
  destruct (starts_with (n :: needle) (x :: a)) eqn:Hsa; [|reflexivity].
  apply (starts_with_app _ _ b) in Hsa.
  change ((x :: a) ++ b) with (x :: (a ++ b)) in Hsa. congruence.
Qed.

Lemma remove_fuel_nil fuel (needle : bytes) : remove_fuel fuel needle [] = [].
Proof. destruct fuel; reflexivity. Qed.

(** Nothing to remove: the buffer is returned as it is. *)
Lemma remove_fuel_absent (needle : bytes) fuel : forall hay,
  contains needle hay = false -> remove_fuel fuel needle hay = hay.
Proof.
  induction fuel as [|fuel IH]; intros hay Hc; [reflexivity|].
  destruct hay as [|h hay]; [reflexivity|].
  cbn [contains] in Hc. apply orb_false_elim in Hc. destruct Hc as [Hs Hc].
  cbn [remove_fuel]. rewrite Hs, (IH _ Hc). reflexivity.
Qed.

Lemma remove_absent (needle hay : bytes) :
  contains needle hay = false -> remove needle hay = hay.
Proof. apply remove_fuel_absent. Qed.

Variables x y : Byte.byte.

(** A two-byte sequence that a buffer free of it holds after one more
    byte sits at its end. *)
Lemma contains_pair_at_end (buf : bytes) (b : Byte.byte) :
  contains [x; y] buf = false ->
  contains [x; y] (buf ++ [b]) = true ->
  exists pre, buf = pre ++ [x] /\ b = y.
Proof.
  induction buf as [|c buf IH]; intros Hfree Hin.
  - cbn in Hin. rewrite andb_false_r in Hin. discriminate.
  - cbn [contains] in Hfree. apply orb_false_elim in Hfree.
    destruct Hfree as [Hs Hfree].
    change ((c :: buf) ++ [b]) with (c :: (buf ++ [b])) in Hin.
    cbn [contains] in Hin. apply orb_prop in Hin. destruct Hin as [Hin|Hin].
    + destruct buf as [|d buf].
      * cbn in Hin. apply andb_prop in Hin. destruct Hin as [Hc Hb].
        apply andb_prop in Hb. destruct Hb as [Hb _].
        apply byte_eqb_true in Hc. apply byte_eqb_true in Hb. subst.
        exists []. auto.
      * cbn in Hin, Hs. destruct (Byte.eqb x c); [|discriminate].
        destruct (Byte.eqb y d); discriminate.
    + destruct (IH Hfree Hin) as (pre & -> & ->). exists (c :: pre). auto.
Qed.

(** Removing the sequence that sits at the end of a buffer otherwise
    free of it leaves what came before. *)
Lemma remove_fuel_pair_at_end (pre : bytes) : forall fuel,
  (length (pre ++ [x; y]) <= fuel)%nat ->
  contains [x; y] (pre ++ [x]) = false ->
  remove_fuel fuel [x; y] (pre ++ [x; y]) = pre.
Proof.
  induction pre as [|c pre IH]; intros fuel Hfuel Hfree.
  - destruct fuel as [|fuel]; [simpl in Hfuel; lia|].
    cbn. rewrite !byte_eqb_refl. cbn. apply remove_fuel_nil.
  - destruct fuel as [|fuel]; [simpl in Hfuel; lia|].
    change ((c :: pre) ++ [x]) with (c :: (pre ++ [x])) in Hfree.
    cbn [contains] in Hfree. apply orb_false_elim in Hfree.
    destruct Hfree as [Hs Hfree].
    change ((c :: pre) ++ [x; y]) with (c :: (pre ++ [x; y])).
    cbn [remove_fuel].
    assert (Hs' : starts_with [x; y] (c :: pre ++ [x; y]) = false).
    { destruct pre as [|d pre]; cbn in Hs |- *.
      - exact Hs.
      - exact Hs. }
    rewrite Hs'. rewrite IH; [reflexivity| |assumption].
    simpl in Hfuel |- *. lia.
Qed.

Lemma remove_pair_at_end (pre : bytes) :
  contains [x; y] (pre ++ [x]) = false ->
  remove [x; y] (pre ++ [x; y]) = pre.
Proof. intros Hfree. apply remove_fuel_pair_at_end; [lia|assumption]. Qed.

End BytesFacts.

(** ** The star-key detector *)

Section StarFacts.

Lemma star_body_buffer st o :
  read_bytes (star_body st o)
  = if seen_ring st o then remove ring_bytes2 (remove ring_bytes1 (incoming st o))
    else incoming st o.
Proof.
  unfold star_body, seen_ring, incoming.
  destruct (contains [newline_byte] _); [reflexivity|].
  destruct (contains ring_bytes1 _ || contains ring_bytes2 _); reflexivity.
Qed.

Lemma star_body_last_ring st o :
  last_ring (star_body st o) = if seen_ring st o then at_ring o else last_ring st.
Proof.
  unfold star_body, seen_ring, incoming.
  destruct (contains [newline_byte] _); [reflexivity|].
  destruct (contains ring_bytes1 _ || contains ring_bytes2 _); reflexivity.
Qed.

Lemma ring_free_nil : ring_free [].
Proof. split; reflexivity. Qed.

Lemma ring_free_prefix (a b : bytes) : ring_free (a ++ b) -> ring_free a.
Proof.
  intros [H1 H2]. split; eapply contains_app_false; eassumption.
Qed.

(** The buffer is free of ring sequences after every pass. *)
Lemma ring_free_body st o :
  ring_free (read_bytes st) -> ring_free (read_bytes (star_body st o)).
Proof.
  intros Hfree. rewrite star_body_buffer. unfold seen_ring.
  unfold ring_free, ring_bytes1, ring_bytes2 in *.
  destruct Hfree as [Hf1 Hf2].
  assert (Hin : incoming st o = []
                \/ incoming st o
                   = read_bytes st ++ match got o with Some b => [b] | None => [] end).
  { unfold incoming. destruct (contains [newline_byte] _); auto. }
  destruct Hin as [Hin|Hin]; rewrite Hin.
  { cbn. auto. }
  destruct (got o) as [b|]; [|rewrite app_nil_r, Hf1, Hf2; cbn [orb]; auto].
  destruct (contains [DLE; Byte.x52] (read_bytes st ++ [b])) eqn:H1;
    [|destruct (contains [DLE; Byte.x72] (read_bytes st ++ [b])) eqn:H2]; cbn [orb].
  - destruct (contains_pair_at_end _ _ _ _ Hf1 H1) as (pre & Hpre & ->).
    rewrite Hpre in *. rewrite <- app_assoc. cbn [app].
    rewrite (remove_pair_at_end _ _ _ Hf1).
    pose proof (contains_app_false _ _ _ _ Hf1) as Hp1.
    pose proof (contains_app_false _ _ _ _ Hf2) as Hp2.
    rewrite (remove_absent _ _ Hp2). split; assumption.
  - rewrite (remove_absent _ _ H1).
    destruct (contains_pair_at_end _ _ _ _ Hf2 H2) as (pre & Hpre & ->).
    rewrite Hpre in *. rewrite <- app_assoc. cbn [app].
    rewrite (remove_pair_at_end _ _ _ Hf2).
    split; eapply contains_app_false; eassumption.
  - split; assumption.
Qed.

Lemma star_continue_false st o :
  star_continue st o = false <->
  (10 <= at_check o - last_ring st)%Q \/ contains star_bytes (read_bytes st) = true.
Proof.
  unfold star_continue. rewrite andb_false_iff, negb_false_iff.
  rewrite Qlt_bool_false. reflexivity.
Qed.

(** The loop returns exactly when some observation finds its condition
    false, all the earlier ones having found it true; the state returned
    is the one the earlier passes built. *)
Lemma star_loop_iff obs : forall st st',
  star_loop st obs = Some st' <->
  exists pre o post,
    obs = pre ++ o :: post /\ admitted st pre = true
    /\ st' = star_run st pre /\ star_continue st' o = false.
Proof.
  induction obs as [|o obs IH]; intros st st'; cbn [star_loop].
  - split; [discriminate|]. intros (pre & o & post & Hobs & _).
    destruct pre; discriminate.
  - destruct (star_continue st o) eqn:Hc.
    + rewrite IH. split.
      * intros (pre & o' & post & -> & Ha & -> & He).
        exists (o :: pre), o', post. cbn [admitted]. rewrite Hc, Ha. auto.
      * intros (pre & o' & post & Hobs & Ha & -> & He).
        destruct pre as [|p pre].
        { injection Hobs as <- <-. cbn in He. congruence. }
        injection Hobs as <- ->. cbn [admitted] in Ha.
        apply andb_prop in Ha. destruct Ha as [_ Ha].
        exists pre, o', post. auto.
    + split.
      * intros [= <-]. exists [], o, obs. auto.
      * intros (pre & o' & post & Hobs & Ha & -> & He).
        destruct pre as [|p pre]; [reflexivity|].
        injection Hobs as <- ->. cbn [admitted] in Ha. rewrite Hc in Ha. discriminate.
Qed.

Lemma wait_for_star_unfold m t0 obs :
  wait_for_star m t0 obs
  = match star_loop (star_start m t0) obs with
    | None => None
    | Some st =>
        Some (send_command "ATH" true (set_timeout None (star_modem st)),
              contains star_bytes (read_bytes st))
    end.
Proof. reflexivity. Qed.

(** A stream of ring sequences keeps the buffer empty or holding the
    first byte of the next one. *)
Lemma only_rings_body st o rest :
  read_bytes st = [] \/ read_bytes st = [DLE] ->
  only_rings (read_bytes st ++ bytes_of (o :: rest)) = true ->
  (read_bytes (star_body st o) = [] \/ read_bytes (star_body st o) = [DLE])
  /\ only_rings (read_bytes (star_body st o) ++ bytes_of rest) = true.
Proof.
  destruct st as [m buf t]. destruct o as [tc [b|] tr]; cbn [read_bytes bytes_of flat_map got].
  - intros [-> | ->] Hr; cbn [app only_rings] in Hr.
    + apply andb_prop in Hr. destruct Hr as [Hb Hr]. apply byte_eqb_true in Hb. subst b.
      split; [right; reflexivity|]. cbn [only_rings]. exact Hr.
    + apply andb_prop in Hr. destruct Hr as [_ Hr].
      apply andb_prop in Hr. destruct Hr as [Hb Hr].
      unfold is_ring_letter in Hb. apply orb_prop in Hb.
      destruct Hb as [Hb|Hb]; apply byte_eqb_true in Hb; subst b;
        (split; [left; reflexivity|exact Hr]).
  - intros [-> | ->] Hr; cbn [app] in Hr.
    + split; [left; reflexivity|exact Hr].
    + split; [right; reflexivity|exact Hr].
Qed.

Lemma only_rings_loop obs : forall st st',
  read_bytes st = [] \/ read_bytes st = [DLE] ->
  only_rings (read_bytes st ++ bytes_of obs) = true ->
  star_loop st obs = Some st' ->
  read_bytes st' = [] \/ read_bytes st' = [DLE].
Proof.
  induction obs as [|o obs IH]; intros st st' Hbuf Hr; cbn [star_loop]; [discriminate|].
  destruct (star_continue st o).
  - destruct (only_rings_body st o obs Hbuf Hr) as [Hbuf' Hr'].
    apply IH; assumption.
  - intros [= <-]. assumption.
Qed.

End StarFacts.

Lemma star_continue_true st o :
  star_continue st o = true <->
  (at_check o - last_ring st < 10)%Q /\ contains star_bytes (read_bytes st) = false.
Proof.
  unfold star_continue. rewrite andb_true_iff, negb_true_iff.
  rewrite Qlt_bool_true. reflexivity.
Qed.

Lemma ring_free_run obs : forall st,
  ring_free (read_bytes st) -> ring_free (read_bytes (star_run st obs)).
Proof.
  induction obs as [|o obs IH]; intros st Hfree; [assumption|].
  apply IH. apply ring_free_body. assumption.
Qed.

(** C6. The star-key detector returns true exactly when the star marker
    is in the accumulated buffer after passes of its loop that each began
    within ten seconds of the last ring seen (of the start, before any
    ring) and before the marker was there; it returns false exactly when
    such passes end with the ten seconds elapsed and no marker in the
    buffer.  A pass that sees a ring sequence strips it (the buffer is
    free of ring sequences after every pass) and restarts the ten
    seconds at that moment; a pass that sees none leaves the window
    alone.  A stream of ring sequences alone never yields true. *)
Theorem C6_star_key_detector_true_iff_marker_seen_in_window :
  (forall m t0 obs m',
     wait_for_star m t0 obs = Some (m', true) <->
     exists pre o post,
       obs = pre ++ o :: post
       /\ admitted (star_start m t0) pre = true
       /\ contains star_bytes (read_bytes (star_run (star_start m t0) pre)) = true
       /\ m' = send_command "ATH" true
                 (set_timeout None (star_modem (star_run (star_start m t0) pre))))
  /\ (forall m t0 obs m',
        wait_for_star m t0 obs = Some (m', false) <->
        exists pre o post,
          obs = pre ++ o :: post
          /\ admitted (star_start m t0) pre = true
          /\ contains star_bytes (read_bytes (star_run (star_start m t0) pre)) = false
          /\ (10 <= at_check o - last_ring (star_run (star_start m t0) pre))%Q
          /\ m' = send_command "ATH" true
                    (set_timeout None (star_modem (star_run (star_start m t0) pre))))
  /\ (forall st o,
        star_continue st o = true <->
        (at_check o - last_ring st < 10)%Q
        /\ contains star_bytes (read_bytes st) = false)
  /\ (forall st o,
        last_ring (star_body st o) = if seen_ring st o then at_ring o else last_ring st)
  /\ (forall st o,
        ring_free (read_bytes st) -> ring_free (read_bytes (star_body st o)))
  /\ (forall m t0 pre, ring_free (read_bytes (star_run (star_start m t0) pre)))
  /\ (forall m t0 obs m' b,
        only_rings (bytes_of obs) = true ->
        wait_for_star m t0 obs = Some (m', b) -> b = false)
  /\ option_map snd (wait_for_star Sample.modem0 0 Sample.star_pressed) = Some true
  /\ option_map snd (wait_for_star Sample.modem0 0 Sample.ring_then_silence) = Some false
  /\ option_map snd (wait_for_star Sample.modem0 0 (firstn 11 Sample.ring_then_silence))
     = None.
Proof.
  split; [|split; [|split; [|split; [|split; [|split; [|split]]]]]].
  - intros m t0 obs m'. rewrite wait_for_star_unfold. split.
    + destruct (star_loop (star_start m t0) obs) as [st|] eqn:Hl; [|discriminate].
      intros [= <- Hb]. apply star_loop_iff in Hl.
      destruct Hl as (pre & o & post & -> & Ha & -> & _).
      exists pre, o, post. auto.
    + intros (pre & o & post & -> & Ha & Hb & ->).
      assert (Hl : star_loop (star_start m t0) (pre ++ o :: post)
                   = Some (star_run (star_start m t0) pre)).
      { apply star_loop_iff. exists pre, o, post. repeat split; auto.
        apply star_continue_false. right. assumption. }
      rewrite Hl, Hb. reflexivity.
  - intros m t0 obs m'. rewrite wait_for_star_unfold. split.
    + destruct (star_loop (star_start m t0) obs) as [st|] eqn:Hl; [|discriminate].
      intros [= <- Hb]. apply star_loop_iff in Hl.
      destruct Hl as (pre & o & post & -> & Ha & -> & He).
      exists pre, o, post. repeat split; auto.
      apply star_continue_false in He. destruct He as [He|He]; [assumption|congruence].
    + intros (pre & o & post & -> & Ha & Hb & Ht & ->).
      assert (Hl : star_loop (star_start m t0) (pre ++ o :: post)
                   = Some (star_run (star_start m t0) pre)).
      { apply star_loop_iff. exists pre, o, post. repeat split; auto.
        apply star_continue_false. left. assumption. }
      rewrite Hl, Hb. reflexivity.
  - apply star_continue_true.
  - apply star_body_last_ring.
  - apply ring_free_body.
  - intros m t0 pre. apply ring_free_run. apply ring_free_nil.
  - intros m t0 obs m' b Hr. rewrite wait_for_star_unfold.
    destruct (star_loop (star_start m t0) obs) as [st|] eqn:Hl; [|discriminate].
    intros [= _ <-].
    destruct (only_rings_loop obs (star_start m t0) st (or_introl eq_refl) Hr Hl)
      as [-> | ->]; reflexivity.
  - split; [vm_compute; reflexivity|]. split; vm_compute; reflexivity.
Qed.

(** ** Counts as text *)

Ltac eval_digit :=
  match goal with
  | |- context [digit_of ?c] =>
      let v := eval vm_compute in (digit_of c) in change (digit_of c) with v
  end.

Lemma int_digits_acc (d : Decimal.uint) : forall p,
  int_digits (Z.pos p) true (NilEmpty.string_of_uint d)
  = Some (Z.pos (Pos.of_uint_acc d p)).
Proof.
  induction d; intros p; cbn [NilEmpty.string_of_uint int_digits Pos.of_uint_acc];
    [reflexivity|..]; eval_digit; cbv iota beta; rewrite <- IHd; f_equal; lia.
Qed.

Lemma int_digits_zero (d : Decimal.uint) :
  int_digits 0 true (NilEmpty.string_of_uint d) = Some (Z.of_N (Pos.of_uint d)).
Proof.
  induction d; cbn [NilEmpty.string_of_uint int_digits Pos.of_uint];
    [reflexivity|..]; eval_digit; cbv iota beta;
    [exact IHd|..]; apply int_digits_acc.
Qed.

Lemma int_digits_of_uint (d : Decimal.uint) :
  d <> Decimal.Nil ->
  int_digits 0 false (NilZero.string_of_uint d) = Some (Z.of_N (Pos.of_uint d)).
Proof.
  intros Hd. rewrite <- int_digits_zero.
  destruct d; [contradiction|..]; reflexivity.
Qed.

Lemma py_int_of_uint (d : Decimal.uint) :
  d <> Decimal.Nil ->
  py_int (NilZero.string_of_uint d) = Some (Z.of_N (Pos.of_uint d)).
Proof.
  intros Hd. rewrite <- (int_digits_of_uint d Hd).
  destruct d; [contradiction|..]; reflexivity.
Qed.

(** [int(str(n)) == n] *)
Lemma py_int_py_str (n : Z) : py_int (py_str n) = Some n.
Proof.
  destruct n as [|p|p]; [reflexivity|..]; unfold py_str, Z.to_int, NilZero.string_of_int.
  - rewrite py_int_of_uint by apply DecimalPos.Unsigned.to_uint_nonnil.
    rewrite DecimalPos.Unsigned.of_to. reflexivity.
  - change (py_int (String "-" ?s)) with (option_map Z.opp (int_digits 0 false s)).
    rewrite int_digits_of_uint by apply DecimalPos.Unsigned.to_uint_nonnil.
    rewrite DecimalPos.Unsigned.of_to. reflexivity.
Qed.

Lemma remove_nl_clean (s : string) :
  has_char LF s = false -> has_char CR s = false -> remove_nl s = s.
Proof.
  induction s as [|x s IH]; [reflexivity|]. cbn [has_char remove_nl].
  intros H1 H2. apply orb_false_elim in H1. apply orb_false_elim in H2.
  destruct H1 as [H1 H1s]. destruct H2 as [H2 H2s].
  rewrite H1, H2. cbn [orb]. rewrite (IH H1s H2s). reflexivity.
Qed.

Lemma split_max_whole sep n (k : string) :
  has_char sep k = false -> split_max sep (S n) k = [k].
Proof.
  induction k as [|c k IH]; [reflexivity|]. cbn [has_char split_max].
  intros Hk. apply orb_false_elim in Hk. destruct Hk as [Hc Hk].
  rewrite Hc, (IH Hk). reflexivity.
Qed.

(** The line that [update_list_match] writes for a pattern without a
    semicolon is taken by [read_list]: the entry of that pattern gets the
    timestamp and the count of the line. *)
Lemma history_line_accepted {pattern : Type} `{RegexLib pattern}
    (l : PList pattern) key (it old : Item pattern) :
  has_char ";" key = false -> has_char LF key = false -> has_char CR key = false ->
  has_char ";" (timestamp it) = false ->
  has_char LF (timestamp it) = false -> has_char CR (timestamp it) = false ->
  dict_get key l = Some old ->
  read_match_line l (match_line (key, it))
  = Some (dict_set key
            (mkItem (regex old) (timestamp it) (count it) (permanent old) (note old)) l).
Proof.
  intros Hk Hk1 Hk2 Ht Ht1 Ht2 Hg. unfold read_match_line, match_line. cbn [fst snd].
  repeat rewrite remove_nl_app.
  change (remove_nl ";") with ";". change (remove_nl NL) with "".
  rewrite append_nil_r.
  rewrite (remove_nl_clean _ Ht1 Ht2), (remove_nl_clean _ Hk1 Hk2).
  rewrite (remove_nl_clean (py_str (count it)))
    by (apply py_str_no_char; [reflexivity|discriminate]).
  repeat match goal with
         | |- context [";" +:+ ?x] => change (";" +:+ x) with (String ";" x)
         end.
  rewrite (split_max_field ";" 2) by assumption.
  rewrite (split_max_field ";" 1)
    by (apply py_str_no_char; [reflexivity|discriminate]).
  rewrite (split_max_whole ";" 0) by assumption.
  rewrite Hg, py_int_py_str. reflexivity.
Qed.

(** C3. The history of a pattern that holds a semicolon does not survive
    a load, a write of the history file and a reload: [read_list] cuts a
    history line with [split(";", 3)] and keeps it only when that gives
    three fields, and the line written for such a pattern gives four.
    The pattern [a;b] (written [a\;b] in the [.dat] file), loaded at
    17:01 and reloaded at 17:02, comes back with the time of the reload
    instead of its stored timestamp, and with count 0 instead of its
    stored count 1, while the pattern [^555] next to it keeps both.
    (The line written for a pattern without a semicolon is taken.) *)
Theorem C3_history_of_pattern_with_semicolon_is_not_restored :
  (forall (pattern : Type) (E : RegexLib pattern) (l : PList pattern) key
          (it : Item pattern),
     has_char ";" key = true -> has_char ";" (timestamp it) = false ->
     read_match_line l (match_line (key, it)) = Some l)
  /\ (forall (pattern : Type) (E : RegexLib pattern) (l : PList pattern) key
             (it old : Item pattern),
        has_char ";" key = false -> has_char LF key = false -> has_char CR key = false ->
        has_char ";" (timestamp it) = false ->
        has_char LF (timestamp it) = false -> has_char CR (timestamp it) = false ->
        dict_get key l = Some old ->
        read_match_line l (match_line (key, it))
        = Some (dict_set key
                  (mkItem (regex old) (timestamp it) (count it) (permanent old) (note old))
                  l))
  /\ read_list Sample.files0 "2021-10-06 17:01" "blocklist.dat" = Some Sample.loaded_block
  /\ Sample.files_written !! "blocklist.dat-match"
     = Some ("2021-10-06 17:01;0;^555" +:+ NL +:+ "2021-10-06 17:01;0;a;b" +:+ NL)
  /\ (let reloaded := read_list Sample.files_written "2021-10-06 17:02" "blocklist.dat" in
      option_map (Sample.history "^555") reloaded
      = Some (Some ("2021-10-06 17:01", 0%Z))
      /\ option_map (Sample.history "a;b") reloaded
         = Some (Some ("2021-10-06 17:02", 0%Z)))
  /\ Sample.history "a;b" Sample.matched_block = Some ("2021-04-12 15:30", 1%Z)
  /\ Sample.files_matched !! "blocklist.dat-match"
     = Some ("2021-10-06 17:01;0;^555" +:+ NL +:+ "2021-04-12 15:30;1;a;b" +:+ NL)
  /\ option_map (Sample.history "a;b")
       (read_list Sample.files_matched "2021-10-06 17:02" "blocklist.dat")
     = Some (Some ("2021-10-06 17:02", 0%Z)).
Proof.
  split.
  { intros pattern E l key it. apply history_line_with_semicolon_rejected. }
  split.
  { intros pattern E l key it old. apply history_line_accepted. }
  repeat split; vm_compute; reflexivity.
Qed.

(** * Further properties of the code *)

(** ** The value of a Caller-ID line *)

Lemma append_cons (c : ascii) (a b : string) : String c a +:+ b = String c (a +:+ b).
Proof. reflexivity. Qed.

Lemma length_app (a b : string) :
  String.length (a +:+ b) = (String.length a + String.length b)%nat.
Proof.
  induction a as [|x a IH]; [reflexivity|].
  rewrite append_cons. cbn [String.length]. rewrite IH. reflexivity.
Qed.


Lemma skip_while_suffix (p : ascii -> bool) (s : string) :
  exists pre, s = pre +:+ skip_while p s.
Proof.
  induction s as [|x s [pre IH]]; [exists ""; reflexivity|].
  cbn [skip_while]. destruct (p x).
  - exists (String x pre). rewrite append_cons. congruence.
  - exists "". reflexivity.
Qed.





(** The value of a line is the end of the line. *)
Lemma strip_key_suffix (line : string) : exists pre, line = pre +:+ strip_key line.
Proof.
  unfold strip_key. destruct line as [|c line]; [exists ""; reflexivity|].
  destruct (is_word c); [|exists ""; reflexivity].
  destruct (skip_while_suffix is_word (String c line)) as [p1 H1].
  destruct (skip_while is_space (skip_while is_word (String c line))) as [|e rest] eqn:Hw;
    [exists ""; reflexivity|].
  destruct (Ascii.eqb e "="); [|exists ""; reflexivity].
  destruct (skip_while_suffix is_space (skip_while is_word (String c line))) as [p2 H2].
  destruct (skip_while_suffix is_space rest) as [p3 H3].
  exists (p1 +:+ p2 +:+ String e p3).
  rewrite H1 at 1. rewrite H2 at 1. rewrite Hw. rewrite H3 at 1.
  repeat rewrite append_assoc. rewrite append_cons. reflexivity.
Qed.

Lemma strip_key_has_char c (line : string) :
  has_char c line = false -> has_char c (strip_key line) = false.
Proof.
  destruct (strip_key_suffix line) as [pre Hpre]. rewrite Hpre at 1.
  rewrite has_char_app. intros Hc. apply orb_false_elim in Hc. tauto.
Qed.



(** X2. A line without an equals sign is its own value: nothing is
    removed from it, whatever it starts with. *)
Theorem strip_key_without_equals_sign (line : string) :
  has_char "=" line = false -> strip_key line = line.
Proof.
  intros Hno. unfold strip_key. destruct line as [|c line]; [reflexivity|].
  destruct (is_word c); [|reflexivity].
  destruct (skip_while is_space (skip_while is_word (String c line))) as [|e rest] eqn:Hw;
    [reflexivity|].
  destruct (Ascii.eqb e "=") eqn:He; [|reflexivity].
  apply ascii_eqb_true in He. subst e.
  destruct (skip_while_suffix is_word (String c line)) as [p1 H1].
  destruct (skip_while_suffix is_space (skip_while is_word (String c line))) as [p2 H2].
  rewrite Hw in H2. rewrite H2 in H1. rewrite H1 in Hno.
  repeat rewrite has_char_app in Hno. cbn [has_char] in Hno.
  rewrite Ascii.eqb_refl in Hno. cbn [orb] in Hno.
  rewrite !orb_true_r in Hno. discriminate.
Qed.

Lemma strip_key_without_equals_sign_witness : strip_key "DATE0412" = "DATE0412".
Proof. apply (strip_key_without_equals_sign "DATE0412"). reflexivity. Defined.

(** ** What the fields of a record are made of *)

Section FieldFacts.
Variable P : string -> Prop.
Hypothesis P_empty : P "".
Hypothesis P_value : forall line, P line -> P (strip_key line).

Let all4 (c : CallerId) : Prop :=
  P (call_date c) /\ P (call_time c) /\ P (call_number c) /\ P (call_name c).

Lemma accumulate_all4 st line : all4 st -> P line -> all4 (fst (accumulate st line)).
Proof.
  intros (Hd & Ht & Hn & Hm) Hline. unfold accumulate.
  repeat match goal with |- context [if ?b then _ else _] => destruct b end;
    cbn [fst]; repeat split; cbn [call_date call_time call_number call_name]; auto.
Qed.

Lemma feed_lines_all4 lines : forall st,
  all4 st -> Forall P lines ->
  all4 (fst (feed_lines st lines)) /\ Forall all4 (snd (feed_lines st lines)).
Proof.
  induction lines as [|line lines IH]; intros st Hst Hlines; cbn [feed_lines].
  - split; [assumption|constructor].
  - inversion Hlines as [|? ? Hline Hrest]; subst.
    pose proof (accumulate_all4 st line Hst Hline) as Hacc.
    unfold feed. destruct (accumulate st line) as [st' [|]]; cbn [fst] in Hacc.
    + assert (H0 : all4 no_call) by (repeat split; exact P_empty).
      destruct (IH no_call H0 Hrest) as [Hf Hs].
      destruct (feed_lines no_call lines) as [st'' rs]. cbn [fst snd] in *.
      split; [assumption|]. constructor; assumption.
    + apply IH; assumption.
Qed.

End FieldFacts.

Lemma nl_free_empty : nl_free "".
Proof. split; reflexivity. Qed.

Lemma nl_free_strip_key (line : string) : nl_free line -> nl_free (strip_key line).
Proof. intros [H1 H2]. split; apply strip_key_has_char; assumption. Qed.

Lemma remove_nl_nl_free (s : string) : nl_free (remove_nl s).
Proof.
  unfold nl_free. induction s as [|c s [IH1 IH2]]; [split; reflexivity|].
  cbn [remove_nl]. destruct (Ascii.eqb c LF) eqn:H1; [split; assumption|].
  destruct (Ascii.eqb c CR) eqn:H2; [split; assumption|].
  cbn [orb has_char]. rewrite H1, H2, IH1, IH2. split; reflexivity.
Qed.

(** X3. A value that came before the date is not dropped: a NAME line
    that arrives while no date is in hand does not complete a record, but
    its name stays, and so do the time and the number in hand; the RING
    that follows the next DATE line hands them off with that date. *)
Theorem name_before_date_goes_into_next_record (st : CallerId) (nm dt rg : string) :
  call_date st = "" ->
  startswith nm "NAME" = true -> startswith dt "DATE" = true ->
  startswith rg "RING" = true -> strip_key dt <> "" ->
  feed_lines st [nm; dt; rg]
  = (no_call, [mkCallerId (strip_key dt) (call_time st) (call_number st) (strip_key nm)]).
Proof.
  intros Hno Hnm Hdt Hrg Hd. cbn [feed_lines].
  rewrite (feed_name _ _ Hnm). cbv zeta. rewrite Hno. cbn [truthy].
  rewrite (feed_date _ _ Hdt). cbn [call_date call_time call_number call_name].
  rewrite (feed_ring _ _ Hrg). cbn [call_date].
  apply truthy_true in Hd. rewrite Hd. reflexivity.
Qed.

Lemma name_before_date_goes_into_next_record_witness :
  feed_lines no_call ["NAME = OLD CALLER"; "DATE = 0412"; "RING"]
  = (no_call, [mkCallerId "0412" "" "" "OLD CALLER"]).
Proof.
  apply (name_before_date_goes_into_next_record no_call
           "NAME = OLD CALLER" "DATE = 0412" "RING");
    [reflexivity..|discriminate].
Defined.

(** ** The columns of the call log *)

Lemma length_spaces n : String.length (spaces n) = n.
Proof. induction n as [|n IH]; [reflexivity|]. cbn [spaces String.length]. congruence. Qed.

(** X4. [space_fill] pads a text with spaces to the given width and
    always ends it with a space: the result is as long as the width, or
    one longer than the text when the text fills the width or overruns
    it, and it is the text followed by spaces only. *)
Theorem space_fill_pads_to_width (s : string) (count : nat) :
  String.length (space_fill s count) = Nat.max count (String.length s + 1)
  /\ space_fill s count = s +:+ spaces (Nat.max 1 (count - String.length s)).
Proof.
  unfold space_fill. split.
  - rewrite !length_app, length_spaces. cbn [String.length]. lia.
  - f_equal. change (" " +:+ ?x) with (spaces (S (count - String.length s - 1))).
    f_equal. lia.
Qed.

(** ** The replies of the modem *)

Lemma read_line_replies (reads : list string) :
  match Link.read_line reads with
  | Some (line, rest) => Link.replies reads = line :: Link.replies rest
  | None => Link.replies reads = []
  end.
Proof.
  unfold Link.replies.
  induction reads as [|r reads IH]; [reflexivity|].
  cbn [Link.read_line map List.filter].
  destruct (truthy (remove_nl r)); [reflexivity|exact IH].
Qed.

(** X5. [Modem.read_line] gives the first read that is not blank,
    without its line ends: the line it returns is never empty and holds
    no line feed or carriage return, blank reads and timed-out reads in
    front of it are skipped, and it keeps waiting exactly when every
    read is blank. *)
Theorem read_line_gives_first_nonblank_line (reads : list string) :
  match Link.read_line reads with
  | Some (line, rest) =>
      line <> "" /\ nl_free line
      /\ exists skipped r,
           reads = skipped ++ r :: rest /\ line = remove_nl r
           /\ Forall (fun x => remove_nl x = "") skipped
  | None => Forall (fun x => remove_nl x = "") reads
  end.
Proof.
  induction reads as [|r reads IH]; [constructor|].
  cbn [Link.read_line]. destruct (truthy (remove_nl r)) eqn:Hr.
  - split; [apply truthy_true; assumption|].
    split; [apply remove_nl_nl_free|].
    exists [], r. repeat split. constructor.
  - apply truthy_false in Hr.
    destruct (Link.read_line reads) as [[line rest]|].
    + destruct IH as (Hne & Hfree & skipped & r' & -> & -> & Hsk).
      split; [assumption|]. split; [assumption|].
      exists (r :: skipped), r'. repeat split. constructor; assumption.
    + constructor; assumption.
Qed.

(** X6. The answer of [Modem.send_command]: of the lines that come back
    (blank ones apart) one echo of the command is passed over, and the
    answer tells whether the line then in front is [OK]; later lines are
    not looked at, and the call does not return while that line has not
    come.  Without [wait] nothing is read and the answer is [True]. *)
Theorem send_command_answers_on_first_reply (command : string) (m : Modem)
    (reads : list string) :
  option_map (fun r => snd (fst r)) (Link.send_command command true m reads)
  = match Link.replies reads with
    | [] => None
    | first :: more =>
        if String.eqb first command then
          match more with
          | [] => None
          | second :: _ => Some (String.eqb second "OK")
          end
        else Some (String.eqb first "OK")
    end
  /\ Link.send_command command false m reads
     = Some (send_command command false m, true, reads).
Proof.
  split; [|reflexivity].
  unfold Link.send_command. cbn [negb].
  pose proof (read_line_replies reads) as H1.
  destruct (Link.read_line reads) as [[line rest]|]; rewrite H1; [|reflexivity].
  destruct (String.eqb line command); [|reflexivity].
  pose proof (read_line_replies rest) as H2.
  destruct (Link.read_line rest) as [[line2 rest2]|]; rewrite H2; reflexivity.
Qed.

(** ** The format of a [.dat] line *)

Lemma split_nonempty sep (s : string) : split sep s <> [].
Proof.
  destruct s as [|c s]; [discriminate|]. cbn [split].
  destruct (Ascii.eqb c sep); [discriminate|]. destruct (split sep s); discriminate.
Qed.

Lemma split_field sep (a rest : string) :
  has_char sep a = false -> split sep (a +:+ String sep rest) = a :: split sep rest.
Proof.
  induction a as [|x a IH]; intros Ha.
  - change (split sep (String sep rest) = "" :: split sep rest).
    cbn [split]. rewrite Ascii.eqb_refl. reflexivity.
  - cbn [has_char] in Ha. apply orb_false_elim in Ha. destruct Ha as [Hx Ha].
    rewrite append_cons. cbn [split]. rewrite Hx, (IH Ha). reflexivity.
Qed.

Lemma split_whole sep (a : string) : has_char sep a = false -> split sep a = [a].
Proof.
  induction a as [|x a IH]; [reflexivity|]. cbn [has_char split].
  intros Ha. apply orb_false_elim in Ha. destruct Ha as [Hx Ha].
  rewrite Hx, (IH Ha). reflexivity.
Qed.

(** [sep.join(s.split(sep)) == s] *)
Lemma join_split sep (s : string) : join (String sep "") (split sep s) = s.
Proof.
  induction s as [|c s IH]; [reflexivity|]. cbn [split].
  pose proof (split_nonempty sep s) as Hne.
  destruct (Ascii.eqb c sep) eqn:Hc.
  - apply ascii_eqb_true in Hc. subst c.
    destruct (split sep s) as [|f fs]; [contradiction|].
    change (join (String sep "") ("" :: f :: fs))
      with ("" +:+ String sep "" +:+ join (String sep "") (f :: fs)).
    rewrite IH. reflexivity.
  - destruct (split sep s) as [|f fs]; [contradiction|].
    destruct fs as [|g fs].
    + cbn [join] in *. congruence.
    + change (join (String sep "") (String c f :: g :: fs))
        with (String c (f +:+ String sep "" +:+ join (String sep "") (g :: fs))).
      change (join (String sep "") (f :: g :: fs))
        with (f +:+ String sep "" +:+ join (String sep "") (g :: fs)) in IH.
      congruence.
Qed.

Lemma ends_with_backslash_cons (x : ascii) (s : string) :
  s <> "" -> ends_with_backslash (String x s) = ends_with_backslash s.
Proof. destruct s; [contradiction|reflexivity]. Qed.

Lemma drop_last_cons (x : ascii) (s : string) :
  s <> "" -> drop_last (String x s) = String x (drop_last s).
Proof. destruct s; [contradiction|reflexivity]. Qed.

Lemma ends_with_backslash_app (a : string) (c : ascii) (b : string) :
  ends_with_backslash (a +:+ String c b) = ends_with_backslash (String c b).
Proof.
  induction a as [|x a IH]; [reflexivity|].
  rewrite append_cons, ends_with_backslash_cons by (destruct a; discriminate).
  exact IH.
Qed.

Lemma drop_last_app (a : string) (c : ascii) : drop_last (a +:+ String c "") = a.
Proof.
  induction a as [|x a IH]; [reflexivity|].
  rewrite append_cons, drop_last_cons by (destruct a; discriminate).
  rewrite IH. reflexivity.
Qed.

Lemma truthy_app (a : string) (c : ascii) (b : string) : truthy (a +:+ String c b) = true.
Proof. destruct a; reflexivity. Qed.

Lemma has_char_escape c (p : string) :
  c <> "\"%char -> has_char c (escape_semicolons p) = has_char c p.
Proof.
  intros Hc. induction p as [|x p IH]; [reflexivity|]. cbn [escape_semicolons].
  destruct (Ascii.eqb x ";") eqn:Hx; cbn [has_char]; rewrite IH; [|reflexivity].
  apply ascii_eqb_true in Hx. subst x.
  replace (Ascii.eqb "\" c) with false; [reflexivity|].
  symmetry. apply Ascii.eqb_neq. congruence.
Qed.

Lemma escape_without_semicolon (p : string) :
  has_char ";" p = false -> escape_semicolons p = p.
Proof.
  induction p as [|x p IH]; [reflexivity|]. cbn [has_char escape_semicolons].
  intros Hp. apply orb_false_elim in Hp. destruct Hp as [Hx Hp].
  rewrite Hx, (IH Hp). reflexivity.
Qed.

(** The fields of an escaped pattern go back together. *)
Lemma join_escaped_escape (p : string) : forall (acc tail f : string) (fs : list string),
  split ";" (escape_semicolons p +:+ String ";" tail) = f :: fs ->
  ends_with_backslash (acc +:+ p) = false ->
  join_escaped (acc +:+ f) fs = (acc +:+ p, split ";" tail).
Proof.
  induction p as [|c p IH]; intros acc tail f fs Hs Hend.
  - change (split ";" (String ";" tail) = f :: fs) in Hs.
    cbn [split] in Hs. rewrite Ascii.eqb_refl in Hs. injection Hs as <- <-.
    pose proof (split_nonempty ";" tail) as Hne.
    destruct (split ";" tail) as [|x xs]; [contradiction|].
    cbn [join_escaped]. rewrite Hend, andb_false_r. reflexivity.
  - cbn [escape_semicolons] in Hs.
    pose proof (split_nonempty ";" (escape_semicolons p +:+ String ";" tail)) as Hne.
    destruct (split ";" (escape_semicolons p +:+ String ";" tail)) as [|f' fs'] eqn:Hs';
      [contradiction|].
    destruct (Ascii.eqb c ";") eqn:Hc.
    + apply ascii_eqb_true in Hc. subst c.
      rewrite !append_cons in Hs. cbn [split] in Hs.
      change (Ascii.eqb "\" ";") with false in Hs. rewrite Ascii.eqb_refl in Hs.
      rewrite Hs' in Hs. injection Hs as <- <-.
      cbn [join_escaped]. rewrite truthy_app, ends_with_backslash_app. cbn [andb].
      change (ends_with_backslash "\") with true. cbv iota.
      rewrite drop_last_app.
      replace (acc +:+ ";" +:+ f') with ((acc +:+ ";") +:+ f')
        by (rewrite append_assoc; reflexivity).
      replace (acc +:+ String ";" p) with ((acc +:+ ";") +:+ p)
        by (rewrite append_assoc; reflexivity).
      apply (IH _ _ _ _ Hs').
      rewrite append_assoc. exact Hend.
    + rewrite append_cons in Hs. cbn [split] in Hs. rewrite Hc, Hs' in Hs.
      injection Hs as <- <-.
      replace (acc +:+ String c f') with ((acc +:+ String c "") +:+ f')
        by (rewrite append_assoc; reflexivity).
      replace (acc +:+ String c p) with ((acc +:+ String c "") +:+ p)
        by (rewrite append_assoc; reflexivity).
      apply (IH _ _ _ _ Hs').
      rewrite append_assoc. exact Hend.
Qed.

Lemma split_escape_first (p rest f : string) (fs : list string) :
  p <> "" -> split ";" (escape_semicolons p +:+ rest) = f :: fs -> truthy f = true.
Proof.
  intros Hne. destruct p as [|c p]; [contradiction|]. cbn [escape_semicolons].
  destruct (Ascii.eqb c ";") eqn:Hc; rewrite !append_cons; cbn [split].
  - change (Ascii.eqb "\" ";") with false. change (Ascii.eqb ";" ";") with true.
    cbv iota. intros [= <- _]. reflexivity.
  - rewrite Hc. destruct (split ";" _); intros [= <- _]; reflexivity.
Qed.

Lemma startswith_hash_escape (p rest : string) :
  p <> "" ->
  startswith p "#" = false -> startswith (escape_semicolons p +:+ rest) "#" = false.
Proof.
  intros Hne. destruct p as [|c p].
  - contradiction.
  - cbn [startswith escape_semicolons]. rewrite startswith_empty, andb_true_r.
    intros Hc. destruct (Ascii.eqb c ";"); rewrite !append_cons; cbn [startswith].
    + reflexivity.
    + rewrite Hc. reflexivity.
Qed.

Section DatFormat.
Context {pattern : Type} `{RegexLib pattern}.

Lemma read_dat_line_escaped (now : string) (l : PList pattern)
    (p flags text : string) (compiled : pattern) :
  p <> "" -> nl_free p -> startswith p "#" = false -> ends_with_backslash p = false ->
  has_char ";" flags = false -> nl_free flags -> nl_free text ->
  re_compile p = Some compiled ->
  read_dat_line now l (escape_semicolons p +:+ ";" +:+ flags +:+ ";" +:+ text +:+ NL)
  = dict_set p (mkItem compiled now 0 (has_char "p" flags || has_char "P" flags) text) l.
Proof.
  intros Hne [Hp1 Hp2] Hhash Hend Hflags [Hf1 Hf2] [Ht1 Ht2] Hc.
  unfold read_dat_line.
  repeat rewrite remove_nl_app.
  change (remove_nl ";") with ";". change (remove_nl NL) with "".
  rewrite append_nil_r.
  rewrite (remove_nl_clean (escape_semicolons p))
    by (rewrite has_char_escape by discriminate; assumption).
  rewrite (remove_nl_clean flags), (remove_nl_clean text) by assumption.
  rewrite (startswith_hash_escape _ _ Hne Hhash).
  change (";" +:+ flags +:+ ";" +:+ text) with (String ";" (flags +:+ String ";" text)).
  destruct (split ";" (escape_semicolons p +:+ String ";" (flags +:+ String ";" text)))
    as [|f fs] eqn:Hs; [exfalso; apply (split_nonempty _ _ Hs)|].
  rewrite (split_escape_first _ _ _ _ Hne Hs). cbn [negb].
  pose proof (join_escaped_escape p "" _ f fs Hs Hend) as Hj.
  change (join_escaped f fs = (p, split ";" (flags +:+ String ";" text))) in Hj.
  rewrite Hj, Hc.
  replace (truthy p) with true by (symmetry; apply truthy_true; assumption).
  rewrite (split_field ";" flags text Hflags). cbn [tl].
  change (join ";" (split ";" text)) with (join (String ";" "") (split ";" text)).
  rewrite join_split. reflexivity.
Qed.

(** X7. The format of a [.dat] line, [pattern;flags;note], is read back
    as written: with every semicolon of the pattern escaped by a
    backslash, the line gives the entry of that very pattern, permanent
    exactly when the flags hold [p] or [P], with the note whole even when
    the note holds semicolons, a count of zero and the time of the load.
    The pattern must compile, be free of line ends, not start a comment
    and not end in a backslash (the backslash would take the flags into
    the pattern). *)
Theorem dat_line_is_read_as_written (now : string) (l : PList pattern)
    (p flags text : string) (compiled : pattern) :
  p <> "" -> nl_free p -> startswith p "#" = false -> ends_with_backslash p = false ->
  has_char ";" flags = false -> nl_free flags -> nl_free text ->
  re_compile p = Some compiled ->
  read_dat_line now l (escape_semicolons p +:+ ";" +:+ flags +:+ ";" +:+ text +:+ NL)
  = dict_set p (mkItem compiled now 0 (has_char "p" flags || has_char "P" flags) text) l.
Proof. apply read_dat_line_escaped. Qed.

End DatFormat.

Lemma dat_line_is_read_as_written_witness :
  read_dat_line "2021-10-06 17:01" [] ("a\;b;P;two; parts" +:+ NL)
  = [("a;b", mkItem [PyRe.One (PyRe.Lit "a"); PyRe.One (PyRe.Lit ";");
                     PyRe.One (PyRe.Lit "b")]
               "2021-10-06 17:01" 0 true "two; parts")].
Proof.
  apply (dat_line_is_read_as_written (pattern := list PyRe.piece)
           "2021-10-06 17:01" [] "a;b" "P" "two; parts");
    try reflexivity; try discriminate; split; reflexivity.
Defined.

(** ** Files as lines *)

Lemma translate_newlines_clean (s : string) :
  has_char CR s = false -> translate_newlines s = s.
Proof.
  induction s as [|c s IH]; [reflexivity|]. cbn [has_char translate_newlines].
  intros Hs. apply orb_false_elim in Hs. destruct Hs as [Hc Hs].
  rewrite Hc, (IH Hs). reflexivity.
Qed.

Lemma file_lines_lf (s : string) : file_lines (String LF s) = NL :: file_lines s.
Proof. reflexivity. Qed.

Lemma file_lines_cr_end : file_lines (String CR "") = [NL].
Proof. reflexivity. Qed.

Lemma file_lines_cr_lf (s : string) : file_lines (String CR (String LF s)) = NL :: file_lines s.
Proof. reflexivity. Qed.

Lemma file_lines_cr (c : ascii) (s : string) :
  Ascii.eqb c LF = false ->
  file_lines (String CR (String c s)) = NL :: file_lines (String c s).
Proof.
  intros Hc. unfold file_lines.
  change (translate_newlines (String CR (String c s)))
    with (if Ascii.eqb c LF then String LF (translate_newlines s)
          else String LF (translate_newlines (String c s))).
  rewrite Hc. reflexivity.
Qed.

Lemma file_lines_other (c : ascii) (s : string) :
  Ascii.eqb c LF = false -> Ascii.eqb c CR = false ->
  file_lines (String c s)
  = match file_lines s with
    | l :: ls => String c l :: ls
    | [] => [String c ""]
    end.
Proof.
  intros Hl Hc. unfold file_lines.
  change (translate_newlines (String c s))
    with (if Ascii.eqb c CR
          then match s with
               | String c' s'' =>
                   if Ascii.eqb c' LF then String LF (translate_newlines s'')
                   else String LF (translate_newlines s)
               | EmptyString => String LF EmptyString
               end
          else String c (translate_newlines s)).
  rewrite Hc. cbn [lines_of]. rewrite Hl. reflexivity.
Qed.

Lemma file_lines_nil (s : string) : file_lines s = [] -> s = "".
Proof.
  destruct s as [|c s]; [reflexivity|]. intros Hs. exfalso.
  destruct (Ascii.eqb c LF) eqn:Hl.
  { apply ascii_eqb_true in Hl. subst c. rewrite file_lines_lf in Hs. discriminate. }
  destruct (Ascii.eqb c CR) eqn:Hc.
  - apply ascii_eqb_true in Hc. subst c. destruct s as [|c' s].
    + discriminate.
    + destruct (Ascii.eqb c' LF) eqn:Hl'.
      * apply ascii_eqb_true in Hl'. subst c'. discriminate.
      * rewrite (file_lines_cr _ _ Hl') in Hs. discriminate.
  - rewrite (file_lines_other _ _ Hl Hc) in Hs. destruct (file_lines s); discriminate.
Qed.

(** A line feed ends a line: the lines of a text cut after a line feed
    are the lines of the two parts. *)
Lemma file_lines_app_lf (b : string) : forall n (a : string),
  (String.length a <= n)%nat ->
  file_lines (a +:+ String LF b) = file_lines (a +:+ NL) ++ file_lines b.
Proof.
  induction n as [|n IH]; intros a Hlen.
  - destruct a; [reflexivity|cbn [String.length] in Hlen; lia].
  - destruct a as [|c a]; [reflexivity|]. cbn [String.length] in Hlen.
    rewrite !append_cons.
    destruct (Ascii.eqb c LF) eqn:Hl.
    { apply ascii_eqb_true in Hl. subst c. rewrite !file_lines_lf, IH by lia. reflexivity. }
    destruct (Ascii.eqb c CR) eqn:Hc.
    + apply ascii_eqb_true in Hc. subst c. destruct a as [|c' a]; [reflexivity|].
      rewrite !append_cons. cbn [String.length] in Hlen.
      destruct (Ascii.eqb c' LF) eqn:Hl'.
      * apply ascii_eqb_true in Hl'. subst c'.
        rewrite !file_lines_cr_lf, IH by lia. reflexivity.
      * rewrite !(file_lines_cr _ _ Hl'). rewrite <- !append_cons.
        rewrite IH by (cbn [String.length]; lia). reflexivity.
    + rewrite !(file_lines_other _ _ Hl Hc), IH by lia.
      destruct (file_lines (a +:+ NL)) as [|l ls] eqn:Ha; [|reflexivity].
      apply file_lines_nil in Ha. destruct a; discriminate.
Qed.

Lemma file_lines_line (body : string) :
  nl_free body -> file_lines (body +:+ NL) = [body +:+ NL].
Proof.
  intros [H1 H2]. induction body as [|c body IH]; [reflexivity|].
  cbn [has_char] in H1, H2.
  apply orb_false_elim in H1. apply orb_false_elim in H2.
  destruct H1 as [Hl H1]. destruct H2 as [Hc H2].
  rewrite append_cons, (file_lines_other _ _ Hl Hc), (IH H1 H2). reflexivity.
Qed.

(** A text written line by line reads back as those lines. *)
Lemma file_lines_written (xs : list string) :
  Forall (fun x => exists body, x = body +:+ NL /\ nl_free body) xs ->
  file_lines (String.concat "" xs) = xs.
Proof.
  induction 1 as [|x xs (body & -> & Hbody) _ IH]; [reflexivity|].
  rewrite concat_cons, append_assoc.
  change (NL +:+ String.concat "" xs) with (String LF (String.concat "" xs)).
  rewrite (file_lines_app_lf _ _ _ (Nat.le_refl _)), (file_lines_line _ Hbody), IH.
  reflexivity.
Qed.

(** A line appended to a file that ends with a line feed, or is empty,
    is its last line. *)
Lemma file_lines_appended (old body : string) :
  old = "" \/ (exists text, old = text +:+ NL) ->
  nl_free body ->
  file_lines (old +:+ body +:+ NL) = file_lines old ++ [body +:+ NL].
Proof.
  intros [-> | [text ->]] Hbody.
  - apply (file_lines_line _ Hbody).
  - rewrite append_assoc.
    change (NL +:+ body +:+ NL) with (String LF (body +:+ NL)).
    rewrite (file_lines_app_lf _ _ _ (Nat.le_refl _)), (file_lines_line _ Hbody).
    reflexivity.
Qed.

(** ** What the history file can change *)

Section HistoryFacts.
Context {pattern : Type} `{RegexLib pattern}.

Lemma read_match_line_keeps (l l' : PList pattern) line k it :
  read_match_line l line = Some l' -> dict_get k l = Some it ->
  exists it', dict_get k l' = Some it' /\ same_entry it' it.
Proof.
  unfold read_match_line.
  destruct (split_max ";" 3 _) as [|ts [|cnt [|key [|]]]];
    try (intros [= <-] Hg; exists it; repeat split; assumption).
  destruct (dict_get key l) as [old|] eqn:Hold;
    [|intros [= <-] Hg; exists it; repeat split; assumption].
  destruct (py_int cnt) as [n|]; [|discriminate].
  intros [= <-] Hg. destruct (String.eqb key k) eqn:Hk.
  - apply String.eqb_eq in Hk. subst key. rewrite Hold in Hg. injection Hg as ->.
    rewrite dict_get_set_same. eexists. split; [reflexivity|]. repeat split.
  - rewrite dict_get_set_other.
    + exists it. repeat split; assumption.
    + intros ->. rewrite String.eqb_refl in Hk. discriminate.
Qed.

Lemma read_match_lines_keeps lines : forall (l l' : PList pattern) k it,
  read_match_lines l lines = Some l' -> dict_get k l = Some it ->
  exists it', dict_get k l' = Some it' /\ same_entry it' it.
Proof.
  induction lines as [|line lines IH]; intros l l' k it; cbn [read_match_lines].
  - intros [= <-] Hg. exists it. repeat split; assumption.
  - destruct (read_match_line l line) as [l1|] eqn:H1; [|discriminate].
    intros Hr Hg.
    destruct (read_match_line_keeps _ _ _ _ _ H1 Hg) as (it1 & Hg1 & E1 & E2 & E3).
    destruct (IH _ _ _ _ Hr Hg1) as (it2 & Hg2 & F1 & F2 & F3).
    exists it2. split; [assumption|]. repeat split; congruence.
Qed.

(** X8. A number added to the block list by the star key is still there
    after a reload: the line written to [blocklist.dat] gives the entry
    of that number again, not permanent, with the note of the star key.
    The file must have ended with a line feed (or been empty or
    missing), else the new line continues its last line; and the number
    must be one that a [.dat] line can carry as it is. *)
Theorem star_entry_is_read_back (env : ScreenEnv) (c : CallerId) (bl : PList pattern)
    (fs : FS) (now : string) (compiled : pattern) (l' : PList pattern) :
  call_number c <> "" -> re_compile (call_number c) = Some compiled ->
  nl_free (call_number c) -> has_char ";" (call_number c) = false ->
  startswith (call_number c) "#" = false ->
  ends_with_backslash (call_number c) = false ->
  match fs !! blocklist_file with
  | Some old => old = "" \/ exists text, old = text +:+ NL
  | None => True
  end ->
  read_list (snd (fst (add_by_star env c bl fs))) now blocklist_file = Some l' ->
  exists it,
    dict_get (call_number c) l' = Some it
    /\ regex it = compiled /\ permanent it = false /\ note it = "added by user * key".
Proof.
  intros Hne Hc Hfree Hsemi Hhash Hend Hold.
  rewrite (add_by_star_added env c bl fs compiled Hc Hne). cbn [fst snd].
  unfold read_list. rewrite append_file_same.
  set (old := match fs !! blocklist_file with Some old => old | None => "" end).
  assert (Hshape : old = "" \/ exists text, old = text +:+ NL).
  { unfold old. destruct (fs !! blocklist_file); auto. }
  assert (Hline : call_number c +:+ ";;added by user * key" +:+ NL
                  = (call_number c +:+ ";;added by user * key") +:+ NL)
    by (rewrite append_assoc; reflexivity).
  rewrite Hline, file_lines_appended; [|assumption|].
  2: { destruct Hfree as [F1 F2]. split; rewrite has_char_app.
       - rewrite F1. reflexivity.
       - rewrite F2. reflexivity. }
  rewrite fold_left_app. cbn [fold_left]. rewrite <- Hline.
  pose proof (read_dat_line_escaped now
                (fold_left (read_dat_line now) (file_lines old) [])
                (call_number c) "" "added by user * key" compiled
                Hne Hfree Hhash Hend eq_refl (conj eq_refl eq_refl)
                (conj eq_refl eq_refl) Hc) as Hread.
  rewrite (escape_without_semicolon _ Hsemi) in Hread.
  change (";" +:+ "" +:+ ";" +:+ "added by user * key" +:+ NL)
    with (";;added by user * key" +:+ NL) in Hread.
  rewrite Hread. clear Hread.
  set (item := mkItem compiled now 0 (has_char "p" "" || has_char "P" "")
                 "added by user * key").
  set (loaded := dict_set (call_number c) item _).
  assert (Hg : dict_get (call_number c) loaded = Some item) by apply dict_get_set_same.
  destruct (append_file _ _ fs !! (blocklist_file +:+ "-match")) as [history|].
  - intros Hr.
    destruct (read_match_lines_keeps _ _ _ _ _ Hr Hg) as (it & Hit & E1 & E2 & E3).
    exists it. repeat split; assumption.
  - intros [= <-]. exists item. repeat split; assumption.
Qed.

End HistoryFacts.

Lemma star_entry_is_read_back_witness :
  exists it,
    dict_get "8005550100"
      (Sample.loaded_block ++
       [("8005550100",
         mkItem (PyRe.literal "8005550100") "2021-10-06 17:01" 0 false
           "added by user * key")]) = Some it
    /\ regex it = PyRe.literal "8005550100" /\ permanent it = false
    /\ note it = "added by user * key".
Proof.
  apply (star_entry_is_read_back (pattern := list PyRe.piece)
           Sample.env_star Sample.call_new [] Sample.files0 "2021-10-06 17:01"
           (PyRe.literal "8005550100"));
    try reflexivity; try discriminate.
  - split; reflexivity.
  - right. exists ("^555;;robocalls" +:+ NL +:+ "a\;b;;two parts"). reflexivity.
Defined.

(** ** Loading a list: what can go wrong *)

Lemma match_name_differs (list_file : string) : list_file +:+ "-match" <> list_file.
Proof.
  induction list_file as [|c f IH]; [discriminate|].
  rewrite append_cons. congruence.
Qed.

Section LoadErrors.
Context {pattern : Type} `{RegexLib pattern}.

Lemma dict_set_keys key it (l : PList pattern) :
  dict_get key l <> None -> map fst (dict_set key it l) = map fst l.
Proof.
  induction l as [|[k old] l IH]; cbn [dict_get dict_set]; [congruence|].
  destruct (String.eqb k key); [reflexivity|].
  intros Hg. cbn [map fst]. rewrite (IH Hg). reflexivity.
Qed.

Lemma read_match_line_keys (l l' : PList pattern) line :
  read_match_line l line = Some l' -> map fst l' = map fst l.
Proof.
  unfold read_match_line.
  destruct (split_max ";" 3 _) as [|ts [|cnt [|key [|]]]]; try (intros [= <-]; reflexivity).
  destruct (dict_get key l) as [old|] eqn:Hold; [|intros [= <-]; reflexivity].
  destruct (py_int cnt) as [n|]; [|discriminate].
  intros [= <-]. apply dict_set_keys. congruence.
Qed.

Lemma read_match_lines_keys lines : forall (l l' : PList pattern),
  read_match_lines l lines = Some l' -> map fst l' = map fst l.
Proof.
  induction lines as [|line lines IH]; intros l l'; cbn [read_match_lines].
  - intros [= <-]. reflexivity.
  - destruct (read_match_line l line) as [l1|] eqn:H1; [|discriminate].
    intros Hr. rewrite (IH _ _ Hr). apply (read_match_line_keys _ _ _ H1).
Qed.





End LoadErrors.

(** ** Loading, writing the history and loading again *)

Lemma has_char_drop_last c (s : string) :
  has_char c s = false -> has_char c (drop_last s) = false.
Proof.
  induction s as [|x s IH]; [auto|].
  destruct s as [|y s]; [reflexivity|].
  rewrite drop_last_cons by discriminate.
  intros Hs. change (Ascii.eqb x c || has_char c (String y s) = false) in Hs.
  apply orb_false_elim in Hs. destruct Hs as [Hx Hs].
  change (Ascii.eqb x c || has_char c (drop_last (String y s)) = false).
  rewrite Hx, (IH Hs). reflexivity.
Qed.

Lemma split_has_char c sep (s : string) :
  has_char c s = false -> Forall (fun f => has_char c f = false) (split sep s).
Proof.
  induction s as [|x s IH]; [repeat constructor|]. cbn [has_char split].
  intros Hs. apply orb_false_elim in Hs. destruct Hs as [Hx Hs]. specialize (IH Hs).
  destruct (Ascii.eqb x sep); [constructor; [reflexivity|assumption]|].
  destruct (split sep s) as [|f fs].
  - repeat constructor. cbn [has_char]. rewrite Hx. reflexivity.
  - inversion IH; subst. constructor; [|assumption].
    cbn [has_char]. rewrite Hx. assumption.
Qed.

Lemma split_max_has_char c sep (s : string) : forall n,
  has_char c s = false -> Forall (fun f => has_char c f = false) (split_max sep n s).
Proof.
  induction s as [|x s IH]; intros n Hs.
  - destruct n; repeat constructor.
  - destruct n as [|n]; [repeat constructor; assumption|].
    cbn [has_char] in Hs. apply orb_false_elim in Hs. destruct Hs as [Hx Hs].
    cbn [split_max].
    destruct (Ascii.eqb x sep); [constructor; [reflexivity|apply IH; assumption]|].
    pose proof (IH (S n) Hs) as Hrest.
    destruct (split_max sep (S n) s) as [|f fs].
    + repeat constructor. cbn [has_char]. rewrite Hx. reflexivity.
    + inversion Hrest; subst. constructor; [|assumption].
      cbn [has_char]. rewrite Hx. assumption.
Qed.

(** A field that was cut off holds no separator. *)
Lemma split_max_first_no_sep sep (s : string) : forall n f g rest,
  split_max sep n s = f :: g :: rest -> has_char sep f = false.
Proof.
  induction s as [|x s IH]; intros n f g rest.
  - destruct n; discriminate.
  - destruct n as [|n]; [discriminate|]. cbn [split_max].
    destruct (Ascii.eqb x sep) eqn:Hx; [intros [= <- _]; reflexivity|].
    destruct (split_max sep (S n) s) as [|f' fs'] eqn:Hs; [discriminate|].
    intros [= <- ->]. cbn [has_char]. rewrite Hx. apply (IH _ _ _ _ Hs).
Qed.

Lemma join_escaped_has_char c (fields : list string) : forall regex,
  c <> ";"%char -> has_char c regex = false ->
  Forall (fun f => has_char c f = false) fields ->
  has_char c (fst (join_escaped regex fields)) = false.
Proof.
  induction fields as [|field rest IH]; intros regex Hc Hr Hf; [assumption|].
  cbn [join_escaped]. inversion Hf; subst.
  destruct (truthy regex && ends_with_backslash regex); [|assumption].
  apply IH; [assumption| |assumption].
  rewrite !has_char_app, has_char_drop_last by assumption.
  cbn [has_char orb]. replace (Ascii.eqb ";" c) with false; [assumption|].
  symmetry. apply Ascii.eqb_neq. congruence.
Qed.

Section RoundTrip.
Context {pattern : Type} `{RegexLib pattern}.

Lemma read_dat_line_clean now (l : PList pattern) line :
  nl_free now -> has_char ";" now = false ->
  Forall clean_entry l -> Forall clean_entry (read_dat_line now l line).
Proof.
  intros Hnow Hsemi Hl. unfold read_dat_line.
  destruct (startswith _ "#"); [assumption|].
  destruct (remove_nl_nl_free line) as [F1 F2].
  pose proof (split_has_char LF ";" _ F1) as S1.
  pose proof (split_has_char CR ";" _ F2) as S2.
  destruct (split ";" (remove_nl line)) as [|regex line_list]; [assumption|].
  destruct (negb (truthy regex)); [assumption|].
  inversion S1 as [|? ? A1 B1]; subst. inversion S2 as [|? ? A2 B2]; subst.
  assert (K1 : has_char LF (fst (join_escaped regex line_list)) = false)
    by (apply join_escaped_has_char; [discriminate|assumption..]).
  assert (K2 : has_char CR (fst (join_escaped regex line_list)) = false)
    by (apply join_escaped_has_char; [discriminate|assumption..]).
  destruct (join_escaped regex line_list) as [key rest]. cbn [fst] in K1, K2.
  destruct (re_compile key); [|assumption].
  destruct (truthy key); [|assumption].
  apply dict_set_Forall; [assumption|].
  split; [split; assumption|]. split; assumption.
Qed.

Lemma read_match_line_clean (l l' : PList pattern) line :
  Forall clean_entry l -> read_match_line l line = Some l' -> Forall clean_entry l'.
Proof.
  intros Hl. unfold read_match_line.
  destruct (remove_nl_nl_free line) as [F1 F2].
  pose proof (split_max_has_char LF ";" _ 3 F1) as S1.
  pose proof (split_max_has_char CR ";" _ 3 F2) as S2.
  destruct (split_max ";" 3 (remove_nl line)) as [|ts [|cnt [|key [|]]]] eqn:Hs;
    try (intros [= <-]; assumption).
  destruct (dict_get key l) as [old|] eqn:Hold; [|intros [= <-]; assumption].
  destruct (py_int cnt) as [n|]; [|discriminate].
  intros [= <-]. apply dict_set_Forall; [assumption|].
  destruct (dict_get_Forall _ _ _ _ Hl Hold) as (Hk & _).
  inversion S1 as [|? ? A1 B1]; subst. inversion S2 as [|? ? A2 B2]; subst.
  split; [assumption|]. split; [split; assumption|].
  apply (split_max_first_no_sep _ _ _ _ _ _ Hs).
Qed.

Lemma read_dat_lines_clean now lines : forall l : PList pattern,
  nl_free now -> has_char ";" now = false ->
  Forall clean_entry l -> Forall clean_entry (fold_left (read_dat_line now) lines l).
Proof.
  induction lines as [|line lines IH]; intros l Hnow Hsemi Hl; [assumption|].
  cbn [fold_left]. apply IH; try assumption. apply read_dat_line_clean; assumption.
Qed.

Lemma read_match_lines_clean lines : forall l l' : PList pattern,
  Forall clean_entry l -> read_match_lines l lines = Some l' -> Forall clean_entry l'.
Proof.
  induction lines as [|line lines IH]; intros l l' Hl; cbn [read_match_lines].
  - intros [= <-]. assumption.
  - destruct (read_match_line l line) as [l1|] eqn:H1; [|discriminate].
    apply IH. apply (read_match_line_clean _ _ _ Hl H1).
Qed.

Lemma read_list_clean fs now list_file (l : PList pattern) :
  nl_free now -> has_char ";" now = false ->
  read_list fs now list_file = Some l -> Forall clean_entry l.
Proof.
  intros Hnow Hsemi. unfold read_list.
  destruct (fs !! list_file) as [content|]; [|intros [= <-]; constructor].
  assert (Hdat : Forall clean_entry
                   (fold_left (read_dat_line (pattern := pattern) now)
                      (file_lines content) []))
    by (apply read_dat_lines_clean; try assumption; constructor).
  destruct (fs !! (list_file +:+ "-match")) as [history|]; [|intros [= <-]; assumption].
  apply read_match_lines_clean. assumption.
Qed.

(** A load at another time gives the same list with the other time. *)
Lemma dict_set_map (g : Item pattern -> Item pattern) key it (l : PList pattern) :
  map (fun e => (fst e, g (snd e))) (dict_set key it l)
  = dict_set key (g it) (map (fun e => (fst e, g (snd e))) l).
Proof.
  induction l as [|[k old] l IH]; [reflexivity|]. cbn [dict_set map fst snd].
  destruct (String.eqb k key); [reflexivity|].
  cbn [map fst snd]. rewrite IH. reflexivity.
Qed.

Lemma dict_get_map (g : Item pattern -> Item pattern) key (l : PList pattern) :
  dict_get key (map (fun e => (fst e, g (snd e))) l) = option_map g (dict_get key l).
Proof.
  induction l as [|[k old] l IH]; [reflexivity|]. cbn [dict_get map fst snd].
  destruct (String.eqb k key); [reflexivity|assumption].
Qed.

Lemma read_dat_line_restarted now now' (l : PList pattern) line :
  read_dat_line now' (map (fun e => (fst e, restarted now' (snd e))) l) line
  = map (fun e => (fst e, restarted now' (snd e))) (read_dat_line now l line).
Proof.
  unfold read_dat_line.
  destruct (startswith _ "#"); [reflexivity|].
  destruct (split ";" _) as [|regex line_list]; [reflexivity|].
  destruct (negb (truthy regex)); [reflexivity|].
  destruct (join_escaped regex line_list) as [key rest].
  destruct (re_compile key); [|reflexivity].
  destruct (truthy key); [|reflexivity].
  rewrite dict_set_map. reflexivity.
Qed.

Lemma read_dat_lines_restarted now now' lines : forall (l : PList pattern),
  fold_left (read_dat_line now') lines (map (fun e => (fst e, restarted now' (snd e))) l)
  = map (fun e => (fst e, restarted now' (snd e))) (fold_left (read_dat_line now) lines l).
Proof.
  induction lines as [|line lines IH]; intros l; [reflexivity|].
  cbn [fold_left]. rewrite (read_dat_line_restarted now). apply IH.
Qed.

(** The fields of the line written for an entry. *)
Lemma match_line_fields key (it : Item pattern) :
  clean_entry (key, it) -> has_char ";" key = false ->
  split_max ";" 3 (remove_nl (match_line (key, it)))
  = [timestamp it; py_str (count it); key].
Proof.
  intros ([Hk1 Hk2] & [Ht1 Ht2] & Ht) Hk. cbn [fst snd] in *.
  unfold match_line. cbn [fst snd].
  repeat rewrite remove_nl_app.
  change (remove_nl ";") with ";". change (remove_nl NL) with "".
  rewrite append_nil_r.
  rewrite (remove_nl_clean _ Ht1 Ht2), (remove_nl_clean _ Hk1 Hk2).
  rewrite (remove_nl_clean (py_str (count it)))
    by (apply py_str_no_char; [reflexivity|discriminate]).
  repeat match goal with
         | |- context [";" +:+ ?x] => change (";" +:+ x) with (String ";" x)
         end.
  rewrite (split_max_field ";" 2) by assumption.
  rewrite (split_max_field ";" 1)
    by (apply py_str_no_char; [reflexivity|discriminate]).
  rewrite (split_max_whole ";" 0) by assumption.
  reflexivity.
Qed.

Lemma match_line_is_a_line (e : string * Item pattern) :
  clean_entry e -> exists body, match_line e = body +:+ NL /\ nl_free body.
Proof.
  intros ([Hk1 Hk2] & [Ht1 Ht2] & _). unfold match_line.
  exists (timestamp (snd e) +:+ ";" +:+ py_str (count (snd e)) +:+ ";" +:+ fst e).
  split; [repeat rewrite append_assoc; reflexivity|].
  split; repeat rewrite has_char_app.
  - rewrite Ht1, Hk1, (py_str_no_char LF) by (reflexivity || discriminate). reflexivity.
  - rewrite Ht2, Hk2, (py_str_no_char CR) by (reflexivity || discriminate). reflexivity.
Qed.

(** The lines written for clean entries are all read, and what they give
    back is [apply_history]. *)
Lemma read_match_lines_written (es : PList pattern) : forall cur : PList pattern,
  Forall clean_entry es ->
  read_match_lines cur (map match_line es) = Some (apply_history es cur).
Proof.
  induction es as [|[k it] es IH]; intros cur Hes; [reflexivity|].
  inversion Hes as [|? ? Hclean Hrest]; subst.
  cbn [map read_match_lines]. unfold apply_history. cbn [fold_left fst snd].
  destruct (has_char ";" k) eqn:Hk.
  - destruct Hclean as (_ & _ & Ht). cbn [snd] in Ht.
    rewrite (history_line_with_semicolon_rejected cur k it Hk Ht).
    apply IH. assumption.
  - unfold read_match_line. rewrite (match_line_fields k it Hclean Hk).
    rewrite py_int_py_str.
    destruct (dict_get k cur) as [old|]; apply IH; assumption.
Qed.

Lemma apply_history_keys (es : PList pattern) : forall cur : PList pattern,
  map fst (apply_history es cur) = map fst cur.
Proof.
  unfold apply_history.
  induction es as [|[k it] es IH]; intros cur; [reflexivity|].
  cbn [fold_left fst snd]. rewrite IH.
  destruct (has_char ";" k); [reflexivity|].
  destruct (dict_get k cur) eqn:Hg; [|reflexivity].
  apply dict_set_keys. congruence.
Qed.

Lemma apply_history_get (es : PList pattern) : forall (cur : PList pattern) key,
  dict_wf es ->
  dict_get key (apply_history es cur)
  = match dict_get key es with
    | Some it =>
        if has_char ";" key then dict_get key cur
        else option_map
               (fun old => mkItem (regex old) (timestamp it) (count it)
                             (permanent old) (note old))
               (dict_get key cur)
    | None => dict_get key cur
    end.
Proof.
  unfold apply_history.
  induction es as [|[k it] es IH]; intros cur key Hwf; [reflexivity|].
  destruct Hwf as [Hk Hwf]. cbn [fold_left fst snd dict_get].
  rewrite (IH _ _ Hwf).
  destruct (String.eqb k key) eqn:Hkk.
  - apply String.eqb_eq in Hkk. subst key. rewrite Hk.
    destruct (has_char ";" k); [reflexivity|].
    destruct (dict_get k cur) as [old|] eqn:Hold.
    + rewrite dict_get_set_same. reflexivity.
    + rewrite Hold. reflexivity.
  - assert (Hne : k <> key).
    { intros ->. rewrite String.eqb_refl in Hkk. discriminate. }
    assert (Hsame : dict_get key
                      (if has_char ";" k then cur
                       else match dict_get k cur with
                            | Some old =>
                                dict_set k
                                  (mkItem (regex old) (timestamp it) (count it)
                                     (permanent old) (note old)) cur
                            | None => cur
                            end) = dict_get key cur).
    { destruct (has_char ";" k); [reflexivity|].
      destruct (dict_get k cur); [|reflexivity].
      apply dict_get_set_other. assumption. }
    rewrite Hsame. reflexivity.
Qed.

#[local] Abbreviation alike :=
  (Forall2 (fun a b : string * Item pattern => fst a = fst b /\ same_entry (snd a) (snd b))).

Lemma entries_refl (l : PList pattern) : alike l l.
Proof. induction l; constructor; [repeat split|assumption]. Qed.

Lemma entries_sym (l l' : PList pattern) : alike l l' -> alike l' l.
Proof.
  induction 1 as [|a b l l' (Hk & E1 & E2 & E3) _ IH]; constructor; [|assumption].
  repeat split; congruence.
Qed.

Lemma entries_trans (l1 l2 l3 : PList pattern) : alike l1 l2 -> alike l2 l3 -> alike l1 l3.
Proof.
  intros H12. revert l3.
  induction H12 as [|a b l1 l2 (Hk & E1 & E2 & E3) _ IH]; intros l3 H23;
    inversion H23 as [|? c ? l3' (Hk' & F1 & F2 & F3) Hrest]; subst; constructor.
  - repeat split; congruence.
  - apply IH. assumption.
Qed.

Lemma entries_keys (l l' : PList pattern) : alike l' l -> map fst l' = map fst l.
Proof.
  induction 1 as [|a b l' l [Hk _] _ IH]; [reflexivity|].
  cbn [map]. congruence.
Qed.

Lemma entries_get (l l' : PList pattern) key it :
  alike l l' -> dict_get key l = Some it ->
  exists it', dict_get key l' = Some it' /\ same_entry it it'.
Proof.
  induction 1 as [|[k a] [k' b] l l' [Hk E] _ IH]; cbn [dict_get]; [discriminate|].
  cbn [fst snd] in Hk, E. subst k'.
  destruct (String.eqb k key); [|assumption].
  intros [= <-]. exists b. split; [reflexivity|assumption].
Qed.

Lemma entries_restarted now (l : PList pattern) :
  alike (map (fun e => (fst e, restarted now (snd e))) l) l.
Proof. induction l as [|[k it] l IH]; constructor; [repeat split|assumption]. Qed.

Lemma dict_set_entries key it old (l : PList pattern) :
  dict_get key l = Some old -> same_entry it old -> alike (dict_set key it l) l.
Proof.
  intros Hg E. induction l as [|[k a] l IH]; [discriminate|].
  cbn [dict_get dict_set] in *. destruct (String.eqb k key).
  - injection Hg as ->. constructor; [split; [reflexivity|assumption]|apply entries_refl].
  - constructor; [repeat split|apply IH; assumption].
Qed.

Lemma read_match_lines_entries lines : forall l l' : PList pattern,
  read_match_lines l lines = Some l' -> alike l' l.
Proof.
  induction lines as [|line lines IH]; intros l l'; cbn [read_match_lines].
  - intros [= <-]. apply entries_refl.
  - destruct (read_match_line l line) as [l1|] eqn:H1; [|discriminate].
    intros Hr. apply (entries_trans _ l1); [apply IH; assumption|].
    unfold read_match_line in H1.
    destruct (split_max ";" 3 _) as [|ts [|cnt [|key [|]]]];
      try (injection H1 as <-; apply entries_refl).
    destruct (dict_get key l) as [old|] eqn:Hold; [|injection H1 as <-; apply entries_refl].
    destruct (py_int cnt) as [n|]; [|discriminate].
    injection H1 as <-. apply (dict_set_entries _ _ old); [assumption|].
    repeat split.
Qed.

(** The entries that the lines of a [.dat] file give at a time [now]
    carry that time and a count of zero. *)
Lemma read_dat_lines_fresh now lines :
  Forall (fun e : string * Item pattern => timestamp (snd e) = now /\ count (snd e) = 0%Z)
         (fold_left (read_dat_line now) lines []).
Proof. apply read_dat_lines_Forall; [|constructor]. intros; split; reflexivity. Qed.

(** The history written for a list gives it back to a fresh load of the
    same patterns, apart from the patterns that hold a semicolon. *)
Lemma history_restored (A D' : PList pattern) (now' : string) :
  Forall clean_entry A -> dict_wf A -> alike A D' ->
  Forall (fun e => timestamp (snd e) = now' /\ count (snd e) = 0%Z) D' ->
  read_match_lines D' (file_lines (String.concat "" (map match_line A)))
  = Some (apply_history A D')
  /\ map fst (apply_history A D') = map fst A
  /\ forall key it,
       dict_get key A = Some it ->
       dict_get key (apply_history A D')
       = Some (if has_char ";" key then restarted now' it else it).
Proof.
  intros Hclean Hwf Hal Hfresh. split; [|split].
  - rewrite file_lines_written; [apply read_match_lines_written; assumption|].
    clear -Hclean. induction Hclean as [|e es He _ IH]; [constructor|].
    cbn [map]. constructor; [apply match_line_is_a_line; assumption|assumption].
  - rewrite apply_history_keys. symmetry. apply entries_keys. assumption.
  - intros key it Hg. rewrite (apply_history_get A _ key Hwf), Hg.
    destruct (entries_get _ _ _ _ Hal Hg) as (d & Hd & E1 & E2 & E3). rewrite Hd.
    destruct (dict_get_Forall _ _ _ _ Hfresh Hd) as [Hts Hcnt]. cbn [snd] in Hts, Hcnt.
    cbn [option_map]. unfold restarted.
    destruct (has_char ";" key).
    + rewrite E1, E2, E3, <- Hts, <- Hcnt. destruct d; reflexivity.
    + rewrite <- E1, <- E2, <- E3. destruct it; reflexivity.
Qed.

(** X10. The history of a list survives a write and a reload for every
    pattern without a semicolon: after [read_list], [update_list_match]
    and [read_list] again at any later time, the reload returns, holds
    the same patterns in the same order, and gives every entry whose
    pattern text has no semicolon exactly as it was (timestamp and count
    included).  An entry whose pattern text holds a semicolon comes back
    with the time of the reload and a count of zero. *)
Theorem history_survives_write_and_reload (fs : FS) (now now' list_file : string)
    (l : PList pattern) :
  nl_free now -> has_char ";" now = false ->
  read_list fs now list_file = Some l ->
  exists l',
    read_list (update_list_match l list_file fs) now' list_file = Some l'
    /\ map fst l' = map fst l
    /\ forall key it,
         dict_get key l = Some it ->
         dict_get key l' = Some (if has_char ";" key then restarted now' it else it).
Proof.
  intros Hnow Hsemi Hr.
  pose proof (read_list_clean _ _ _ _ Hnow Hsemi Hr) as Hclean.
  pose proof (read_list_wf _ _ _ _ Hr) as Hwf.
  unfold read_list in Hr |- *. unfold update_list_match.
  rewrite lookup_insert_ne by apply match_name_differs.
  destruct (fs !! list_file) as [content|].
  2: { injection Hr as <-. exists []. repeat split. intros key it Hg. discriminate. }
  rewrite lookup_insert_eq.
  assert (Hal : alike l (fold_left (read_dat_line now') (file_lines content) [])).
  { apply (entries_trans _ (fold_left (read_dat_line now) (file_lines content) [])).
    - destruct (fs !! (list_file +:+ "-match")) as [history|].
      + apply (read_match_lines_entries _ _ _ Hr).
      + injection Hr as <-. apply entries_refl.
    - apply entries_sym.
      pose proof (read_dat_lines_restarted now now' (file_lines content) []) as HD.
      cbn [map] in HD. rewrite HD. apply entries_restarted. }
  destruct (history_restored l _ now' Hclean Hwf Hal (read_dat_lines_fresh now' _))
    as (Hread & Hkeys & Hget).
  eexists. split; [exact Hread|]. split; assumption.
Qed.

End RoundTrip.

Lemma history_survives_write_and_reload_witness :
  exists l',
    read_list (update_list_match Sample.loaded_block "blocklist.dat" Sample.files0)
      "2021-10-06 17:02" "blocklist.dat" = Some l'
    /\ map fst l' = map fst Sample.loaded_block
    /\ forall key it,
         dict_get key Sample.loaded_block = Some it ->
         dict_get key l' = Some (if has_char ";" key then restarted "2021-10-06 17:02" it
                                 else it).
Proof.
  apply (history_survives_write_and_reload (pattern := list PyRe.piece)
           Sample.files0 "2021-10-06 17:01" "2021-10-06 17:02" "blocklist.dat"
           Sample.loaded_block).
  - split; reflexivity.
  - reflexivity.
  - vm_compute. reflexivity.
Defined.

(** ** What a match changes *)

Section MatchCounts.
Context {pattern : Type} `{RegexLib pattern}.

Lemma match_list_counts (l : PList pattern) candidate ts :
  total_count (fst (match_list l candidate ts))
  = (total_count l + if snd (match_list l candidate ts) then 1 else 0)%Z.
Proof.
  induction l as [|[k it] l IH]; [reflexivity|]. cbn [match_list].
  destruct (re_match (regex it) candidate).
  - cbn [fst snd total_count fold_right count]. fold (total_count l). lia.
  - destruct (match_list l candidate ts) as [l' hit]. cbn [fst snd] in *.
    cbn [total_count fold_right snd]. fold (total_count l') (total_count l). lia.
Qed.

Lemma match_list_entries (l : PList pattern) candidate ts :
  Forall2 (fun a b => fst a = fst b /\ same_entry (snd a) (snd b))
          (fst (match_list l candidate ts)) l.
Proof.
  assert (Hrefl : forall l0 : PList pattern,
             Forall2 (fun a b => fst a = fst b /\ same_entry (snd a) (snd b)) l0 l0).
  { induction l0; constructor; [repeat split|assumption]. }
  induction l as [|[k it] l IH]; [constructor|]. cbn [match_list].
  destruct (re_match (regex it) candidate).
  - constructor; [repeat split|apply Hrefl].
  - destruct (match_list l candidate ts) as [l' hit]. cbn [fst] in *.
    constructor; [repeat split|assumption].
Qed.

(** X11. Matching a call against a list changes nothing but the history
    of one entry: the patterns, their order, their flags and their notes
    stay, and the counts of the list go up by one in all when the call
    matched, by nothing when it did not.  A call whose number and name
    match different entries is counted once, for the number. *)
Theorem match_counts_a_call_once (l : PList pattern) (number name ts : string) :
  let r := match_list_both l number name ts in
  total_count (fst r) = (total_count l + if snd r then 1 else 0)%Z
  /\ Forall2 (fun a b => fst a = fst b /\ same_entry (snd a) (snd b)) (fst r) l
  /\ (snd (match_list l number ts) = true -> r = match_list l number ts).
Proof.
  cbv zeta. unfold match_list_both.
  pose proof (match_list_counts l number ts) as C1.
  pose proof (match_list_entries l number ts) as E1.
  pose proof (match_list_miss_unchanged l number ts) as M1.
  destruct (match_list l number ts) as [l1 [|]]; cbn [fst snd] in *.
  - repeat split; assumption.
  - specialize (M1 eq_refl). subst l1.
    split; [apply match_list_counts|]. split; [apply match_list_entries|discriminate].
Qed.

End MatchCounts.

(** ** What a purge leaves alone *)

Section PurgeMore.
Context {pattern : Type} `{RegexLib pattern}.
Variable parse_time : string -> option Q.
Variables (now : Q) (lifetime_days : Z).

Lemma dict_del_sublist key (l : PList pattern) : sublist (dict_del key l) l.
Proof.
  induction l as [|[k it] l IH]; cbn [dict_del]; [constructor|].
  destruct (String.eqb k key).
  - apply sublist_cons. reflexivity.
  - apply sublist_skip. assumption.
Qed.

Lemma purge_lines_sublist lines : forall (l l' : PList pattern) nc nc' ch ch',
  purge_lines parse_time now lifetime_days (l, nc, ch) lines = Some (l', nc', ch') ->
  sublist l' l.
Proof.
  induction lines as [|line lines IH]; intros l l' nc nc' ch ch'; cbn [purge_lines].
  - intros [= <- <- <-]. reflexivity.
  - destruct (purge_line _ _ _ (l, nc, ch) line) as [[[l1 nc1] ch1]|] eqn:H1;
      [|discriminate].
    intros Hrest. specialize (IH _ _ _ _ _ _ Hrest).
    destruct (purge_line_step _ _ _ _ _ _ _ _ _ _ H1)
      as [(-> & _) | (key & it & _ & _ & _ & -> & _)]; [assumption|].
    etransitivity; [exact IH|apply dict_del_sublist].
Qed.

Lemma write_with_backup_other list_file old new path (fs : FS) :
  path <> list_file -> path <> list_file +:+ "-backup" ->
  write_with_backup list_file old new fs !! path = fs !! path.
Proof.
  intros H1 H2. unfold write_with_backup.
  rewrite lookup_insert_ne by congruence.
  rewrite lookup_insert_ne by congruence.
  rewrite lookup_delete_ne by congruence.
  destruct (fs !! (list_file +:+ "-backup")); [|reflexivity].
  apply lookup_delete_ne. congruence.
Qed.

Lemma purge_list_other (l l' : PList pattern) list_file path (fs fs' : FS) :
  purge_list parse_time l list_file lifetime_days now fs = Some (l', fs') ->
  path <> list_file -> path <> list_file +:+ "-backup" ->
  fs' !! path = fs !! path.
Proof.
  unfold purge_list. destruct (fs !! list_file) as [content|].
  - destruct (purge_lines _ _ _ _ _) as [[[l1 nc1] ch1]|]; [|discriminate].
    destruct ch1; intros [= <- <-] H1 H2; [|reflexivity].
    apply write_with_backup_other; assumption.
  - intros [= <- <-]. reflexivity.
Qed.

Lemma purge_list_sublist (l l' : PList pattern) list_file (fs fs' : FS) :
  purge_list parse_time l list_file lifetime_days now fs = Some (l', fs') ->
  sublist l' l.
Proof.
  unfold purge_list. destruct (fs !! list_file) as [content|].
  - destruct (purge_lines _ _ _ _ _) as [[[l1 nc1] ch1]|] eqn:Hl; [|discriminate].
    intros Hp. assert (l1 = l') by (destruct ch1; congruence). subst l1.
    apply (purge_lines_sublist _ _ _ _ _ _ _ Hl).
  - intros [= <- <-]. reflexivity.
Qed.

(** X12. A purge keeps the entries that survive in their order, and it
    writes to the [.dat] file of the list and to its backup only: the
    history file of the list, and every other file, stay as they are, so
    the history line of a purged pattern is still there afterwards. *)
Theorem purge_keeps_order_and_other_files (l l' : PList pattern) (list_file : string)
    (fs fs' : FS) :
  purge_list parse_time l list_file lifetime_days now fs = Some (l', fs') ->
  sublist l' l
  /\ fs' !! (list_file +:+ "-match") = fs !! (list_file +:+ "-match")
  /\ forall path, path <> list_file -> path <> list_file +:+ "-backup" ->
                  fs' !! path = fs !! path.
Proof.
  intros Hp. split; [|split].
  - apply (purge_list_sublist _ _ _ _ _ Hp).
  - apply (purge_list_other _ _ _ _ _ _ Hp).
    + apply match_name_differs.
    + intros Heq. apply (f_equal String.length) in Heq.
      rewrite !length_app in Heq. cbn [String.length] in Heq. lia.
  - intros path H1 H2. apply (purge_list_other _ _ _ _ _ _ Hp); assumption.
Qed.

Lemma purge_lines_None lines : forall (l : PList pattern) nc ch,
  dict_wf l ->
  (purge_lines parse_time now lifetime_days (l, nc, ch) lines = None
   <-> exists k it,
         In (Some k) (map line_key lines) /\ dict_get k l = Some it
         /\ parse_time (timestamp it) = None).
Proof.
  induction lines as [|line lines IH]; intros l nc ch Hwf; cbn [purge_lines map In].
  - split; [discriminate|]. intros (k & it & [] & _).
  - rewrite purge_line_cases.
    destruct (line_key line) as [key|] eqn:Hkey.
    2: { rewrite (IH _ _ _ Hwf). split.
         - intros (k & it & Hin & Hg & Hp). exists k, it. auto.
         - intros (k & it & [Hk|Hin] & Hg & Hp); [discriminate|]. exists k, it. auto. }
    destruct (dict_get key l) as [it0|] eqn:Hg0.
    2: { rewrite (IH _ _ _ Hwf). split.
         - intros (k & it & Hin & Hg & Hp). exists k, it. auto.
         - intros (k & it & [Hk|Hin] & Hg & Hp); [congruence|]. exists k, it. auto. }
    destruct (parse_time (timestamp it0)) as [t|] eqn:Hp0.
    2: { split; [|reflexivity]. intros _. exists key, it0. auto. }
    destruct (purgeable parse_time now lifetime_days it0).
    + rewrite (IH _ _ _ (dict_del_wf key l Hwf)). split.
      * intros (k & it & Hin & Hg & Hp).
        destruct (dict_get_del_Some key k it l Hwf Hg) as [_ Hg'].
        exists k, it. auto.
      * intros (k & it & [Hk|Hin] & Hg & Hp); [congruence|].
        exists k, it. split; [assumption|]. split; [|assumption].
        rewrite dict_get_del_other; [assumption|]. intros ->. congruence.
    + rewrite (IH _ _ _ Hwf). split.
      * intros (k & it & Hin & Hg & Hp). exists k, it. auto.
      * intros (k & it & [Hk|Hin] & Hg & Hp); [congruence|]. exists k, it. auto.
Qed.

(** X13. [purge_list] raises in one case only: a line of the [.dat]
    file names a pattern of the list whose stored timestamp does not
    parse as a date and time.  Whether that entry is permanent or recent
    makes no difference, the timestamp being parsed before either is
    looked at. *)
Theorem purge_raises_on_unreadable_timestamp (l : PList pattern) (list_file : string)
    (fs : FS) :
  dict_wf l ->
  (purge_list parse_time l list_file lifetime_days now fs = None
   <-> exists content k it,
         fs !! list_file = Some content
         /\ In (Some k) (map line_key (file_lines content))
         /\ dict_get k l = Some it /\ parse_time (timestamp it) = None).
Proof.
  intros Hwf. unfold purge_list. destruct (fs !! list_file) as [content|].
  - pose proof (purge_lines_None (file_lines content) l "" false Hwf) as Hnone.
    destruct (purge_lines _ _ _ _ _) as [[[l1 nc1] ch1]|].
    + split.
      * destruct ch1; discriminate.
      * intros (content' & k & it & [= <-] & Hrest).
        assert (Hfalse : Some (l1, nc1, ch1) = None) by (apply Hnone; eauto).
        discriminate.
    + split; [|reflexivity]. intros _.
      destruct (proj1 Hnone eq_refl) as (k & it & Hrest). exists content, k, it. auto.
  - split; [discriminate|]. intros (content & k & it & Hc & _). discriminate.
Qed.

End PurgeMore.

Lemma purge_raises_on_unreadable_timestamp_witness :
  purge_list example_parse_time
    [("abc", mkItem (PyRe.literal "abc") "2021-04-12 :" 1 true "no time sent")]
    "blocklist.dat" blocklist_lifetime_days Sample.late Sample.stale_files = None.
Proof.
  apply (purge_raises_on_unreadable_timestamp (pattern := list PyRe.piece)
           example_parse_time Sample.late blocklist_lifetime_days
           [("abc", mkItem (PyRe.literal "abc") "2021-04-12 :" 1 true "no time sent")]
           "blocklist.dat" Sample.stale_files).
  - repeat split.
  - exists ("# my block list" +:+ NL +:+ "abc;;telemarketer" +:+ NL
            +:+ "^Mom;p;family" +:+ NL), "abc",
           (mkItem (PyRe.literal "abc") "2021-04-12 :" 1 true "no time sent").
    split; [reflexivity|]. split; [|split; reflexivity].
    right. left. reflexivity.
Defined.

Lemma purge_keeps_order_and_other_files_witness :
  exists l' fs',
    purge_list example_parse_time Sample.stale_list2 "blocklist.dat"
      blocklist_lifetime_days Sample.late Sample.stale_files = Some (l', fs')
    /\ sublist l' Sample.stale_list2
    /\ fs' !! "blocklist.dat-match" = None.
Proof.
  destruct (purge_list_total example_parse_time Sample.stale_list2 "blocklist.dat"
              blocklist_lifetime_days Sample.late Sample.stale_files)
    as [[l' fs'] Hp].
  { repeat constructor; discriminate. }
  exists l', fs'. split; [exact Hp|].
  destruct (purge_keeps_order_and_other_files example_parse_time Sample.late
              blocklist_lifetime_days Sample.stale_list2 l' "blocklist.dat"
              Sample.stale_files fs' Hp) as (Hsub & Hmatch & _).
  split; [exact Hsub|].
  change (fs' !! ("blocklist.dat" +:+ "-match") = None). rewrite Hmatch. reflexivity.
Defined.

(** ** The main loop, step by step *)

Ltac paths_differ :=
  let E := fresh "E" in intros E; vm_compute in E; discriminate E.

Section MainFacts.
Context {pattern : Type} `{RegexLib pattern}.
Variable parse_time : string -> option Q.

(** The three steps of a pass. *)
Lemma main_pass_steps i (s s' : MainState pattern) :
  main_pass parse_time i s = Some s' ->
  exists s1 w2,
    purge_if_due parse_time i s = Some s1
    /\ (if reload_config i
        then reload_lists (reload_allow_at i) (reload_block_at i) (world s1) = Some w2
        else w2 = world s1)
    /\ (if snd (accumulate (fields s1) (line i))
        then exists w3,
               screen (screen_env i) w2 (fst (accumulate (fields s1) (line i))) = Some w3
               /\ s' = mkMainState w3 no_call (blocklist_purge_time s1)
        else s' = mkMainState w2 (fst (accumulate (fields s1) (line i)))
                    (blocklist_purge_time s1)).
Proof.
  unfold main_pass.
  destruct (purge_if_due parse_time i s) as [s1|]; [|discriminate].
  intros Hrest. exists s1.
  destruct (reload_config i).
  - destruct (reload_lists _ _ (world s1)) as [w2|]; [|discriminate].
    exists w2. split; [reflexivity|]. split; [reflexivity|].
    destruct (accumulate (fields s1) (line i)) as [c [|]]; cbn [fst snd].
    + destruct (screen (screen_env i) w2 c) as [w3|]; [|discriminate].
      exists w3. split; congruence.
    + congruence.
  - exists (world s1). split; [reflexivity|]. split; [reflexivity|].
    destruct (accumulate (fields s1) (line i)) as [c [|]]; cbn [fst snd].
    + destruct (screen (screen_env i) (world s1) c) as [w3|]; [|discriminate].
      exists w3. split; congruence.
    + congruence.
Qed.

(** The purge of a pass works on the block list and its two files. *)
Lemma purge_if_due_effect i (s s1 : MainState pattern) :
  purge_if_due parse_time i s = Some s1 ->
  allowlist (world s1) = allowlist (world s)
  /\ modem (world s1) = modem (world s)
  /\ fields s1 = fields s
  /\ sublist (blocklist (world s1)) (blocklist (world s))
  /\ forall path, path <> blocklist_file -> path <> blocklist_file +:+ "-backup" ->
                  files (world s1) !! path = files (world s) !! path.
Proof.
  unfold purge_if_due. destruct (Qlt_bool _ _).
  - destruct (purge_list _ _ _ _ _ _) as [[bl fs]|] eqn:Hp; [|discriminate].
    intros [= <-]. cbn [world allowlist blocklist modem files fields].
    pose proof (purge_list_sublist _ _ _ _ _ _ _ _ Hp) as Hsub.
    repeat split; try assumption.
    intros path P1 P2. apply (purge_list_other _ _ _ _ _ _ _ _ _ Hp); assumption.
  - intros [= <-]. repeat split; reflexivity.
Qed.

(** A reload writes the two history files and nothing else. *)
Lemma reload_lists_effect now_allow now_block (w w' : World pattern) :
  reload_lists now_allow now_block w = Some w' ->
  modem w' = modem w
  /\ files w' !! (allowlist_file +:+ "-match")
     = Some (String.concat "" (map match_line (allowlist w')))
  /\ files w' !! (blocklist_file +:+ "-match")
     = Some (String.concat "" (map match_line (blocklist w')))
  /\ forall path, path <> allowlist_file +:+ "-match" ->
                  path <> blocklist_file +:+ "-match" ->
                  files w' !! path = files w !! path.
Proof.
  unfold reload_lists.
  destruct (read_list (files w) now_allow allowlist_file) as [al|]; [|discriminate].
  destruct (read_list _ now_block blocklist_file) as [bl|]; [|discriminate].
  intros [= <-]. cbn [modem files allowlist blocklist]. unfold update_list_match.
  split; [reflexivity|]. split; [|split].
  - rewrite lookup_insert_ne by paths_differ. apply lookup_insert_eq.
  - apply lookup_insert_eq.
  - intros path H1 H2. rewrite !lookup_insert_ne by congruence. reflexivity.
Qed.

(** The four ways a screening ends. *)
Lemma screen_cases env (w w' : World pattern) c :
  screen env w c = Some w' ->
  let ts := make_timestamp (year env) c in
  let allow := match_list_both (allowlist w) (call_number c) (call_name c) ts in
  let block := match_list_both (blocklist w) (call_number c) (call_name c) ts in
  exists al bl fs m outcome,
    w' = mkWorld al bl (append_file calllog_file (log_line ts c outcome) fs) m
    /\ ((snd allow = true /\ al = fst allow /\ bl = blocklist w
         /\ fs = update_list_match al allowlist_file (files w)
         /\ m = modem w /\ outcome = "allow")
        \/ (snd allow = false /\ snd block = true /\ al = allowlist w /\ bl = fst block
            /\ fs = update_list_match bl blocklist_file (files w)
            /\ m = terminate_call (modem w) /\ outcome = "block")
        \/ (snd allow = false /\ snd block = false /\ al = allowlist w
            /\ bl = blocklist w /\ fs = files w /\ outcome = "no match"
            /\ exists star, wait_for_star (modem w) (star_t0 env) (star_obs env)
                            = Some (m, star))
        \/ (snd allow = false /\ snd block = false /\ al = allowlist w
            /\ call_number c <> ""
            /\ (exists compiled,
                  re_compile (call_number c) = Some compiled
                  /\ bl = dict_set (call_number c)
                            (mkItem compiled (added_at env) 0 false "added by user * key")
                            (blocklist w))
            /\ fs = append_file blocklist_file
                      (call_number c +:+ ";;added by user * key" +:+ NL) (files w)
            /\ outcome = "added to block by user * key"
            /\ wait_for_star (modem w) (star_t0 env) (star_obs env) = Some (m, true))).
Proof.
  cbv zeta.
  destruct (snd (match_list_both (allowlist w) (call_number c) (call_name c)
                   (make_timestamp (year env) c))) eqn:Ha.
  { rewrite (screen_allow _ _ _ Ha). intros [= <-].
    do 5 eexists. split; [reflexivity|]. left. repeat split. }
  destruct (snd (match_list_both (blocklist w) (call_number c) (call_name c)
                   (make_timestamp (year env) c))) eqn:Hb.
  { rewrite (screen_block _ _ _ Ha Hb). intros [= <-].
    do 5 eexists. split; [reflexivity|]. right. left. repeat split. }
  rewrite (screen_neither _ _ _ Ha Hb).
  destruct (wait_for_star _ _ _) as [[m star]|]; [|discriminate].
  destruct star.
  - unfold add_by_star.
    destruct (re_compile (call_number c)) as [compiled|] eqn:Hc.
    + destruct (truthy (call_number c)) eqn:Ht.
      * intros [= <-]. do 5 eexists. split; [reflexivity|]. right. right. right.
        repeat split; try reflexivity.
        -- apply truthy_true. assumption.
        -- exists compiled. split; reflexivity.
      * intros [= <-]. do 5 eexists. split; [reflexivity|]. right. right. left.
        repeat split. exists true. reflexivity.
    + intros [= <-]. do 5 eexists. split; [reflexivity|]. right. right. left.
      repeat split. exists true. reflexivity.
  - intros [= <-]. do 5 eexists. split; [reflexivity|]. right. right. left.
    repeat split. exists false. reflexivity.
Qed.

End MainFacts.

(** ** What the main loop never touches *)

Lemma sublist_In {A : Type} (l1 l2 : list A) (x : A) :
  sublist l1 l2 -> In x l1 -> In x l2.
Proof.
  induction 1 as [|y l1 l2 _ IH|y l1 l2 _ IH]; cbn [In]; tauto.
Qed.

Lemma log_text_same (fs fs' : FS) :
  fs' !! calllog_file = fs !! calllog_file -> log_text fs' = log_text fs.
Proof. unfold log_text. intros ->. reflexivity. Qed.

Lemma log_text_append text (fs : FS) :
  log_text (append_file calllog_file text fs) = log_text fs +:+ text.
Proof. unfold log_text. rewrite append_file_same. reflexivity. Qed.

Section LoopFacts.
Context {pattern : Type} `{RegexLib pattern}.
Variable parse_time : string -> option Q.

Lemma match_list_both_entries (l : PList pattern) number name ts :
  Forall2 (fun a b => fst a = fst b /\ same_entry (snd a) (snd b))
          (fst (match_list_both l number name ts)) l.
Proof.
  unfold match_list_both.
  pose proof (match_list_entries l number ts) as E1.
  pose proof (match_list_miss_unchanged l number ts) as M1.
  destruct (match_list l number ts) as [l1 [|]]; cbn [fst snd] in *; [assumption|].
  specialize (M1 eq_refl). subst l1. apply match_list_entries.
Qed.

Lemma dict_set_key_in key it (l : PList pattern) k :
  In k (map fst (dict_set key it l)) -> In k (map fst l) \/ k = key.
Proof.
  induction l as [|[k0 old] l IH]; cbn [dict_set map fst In].
  - intros [<-|[]]. auto.
  - destruct (String.eqb k0 key); cbn [map fst In]; [tauto|].
    intros [<-|Hin]; [auto|]. destruct (IH Hin); auto.
Qed.

(** The allow list on disk and its history file in a state. *)
Let allow_kept (fs0 : FS) (w : World pattern) : Prop :=
  files w !! allowlist_file = fs0 !! allowlist_file
  /\ files w !! (allowlist_file +:+ "-match")
     = Some (String.concat "" (map match_line (allowlist w))).

Lemma screen_allow_kept fs0 env (w w' : World pattern) c :
  allow_kept fs0 w -> screen env w c = Some w' -> allow_kept fs0 w'.
Proof.
  intros [Hdat Hmatch] Hs.
  destruct (screen_cases _ _ _ _ Hs) as (al & bl & fs & m & outcome & -> & Hcase).
  unfold allow_kept. cbn [files allowlist].
  rewrite !append_file_other by paths_differ.
  destruct Hcase as [(_ & -> & _ & -> & _)
                    |[(_ & _ & -> & _ & -> & _)
                     |[(_ & _ & -> & _ & -> & _)|(_ & _ & -> & _ & _ & -> & _)]]].
  - unfold update_list_match. rewrite lookup_insert_ne by paths_differ.
    split; [assumption|apply lookup_insert_eq].
  - rewrite !update_list_match_other by paths_differ. split; assumption.
  - split; assumption.
  - rewrite !append_file_other by paths_differ. split; assumption.
Qed.

Lemma main_pass_allow_kept fs0 i (s s' : MainState pattern) :
  allow_kept fs0 (world s) -> main_pass parse_time i s = Some s' ->
  allow_kept fs0 (world s').
Proof.
  intros [Hdat Hmatch] Hp.
  destruct (main_pass_steps _ _ _ _ Hp) as (s1 & w2 & Hpurge & Hreload & Hrest).
  destruct (purge_if_due_effect _ _ _ _ Hpurge) as (Hal & _ & _ & _ & Hfiles).
  assert (H1 : allow_kept fs0 (world s1)).
  { unfold allow_kept. rewrite !Hfiles by paths_differ. rewrite Hal. split; assumption. }
  assert (H2 : allow_kept fs0 w2).
  { destruct (reload_config i); [|subst w2; assumption].
    destruct (reload_lists_effect _ _ _ _ Hreload) as (_ & Ha & _ & Hother).
    unfold allow_kept. rewrite Hother by paths_differ.
    split; [apply H1|assumption]. }
  destruct (snd (accumulate (fields s1) (line i))).
  - destruct Hrest as (w3 & Hs & ->). cbn [world].
    apply (screen_allow_kept _ _ _ _ _ H2 Hs).
  - subst s'. assumption.
Qed.

(** X14. The program never writes to [allowlist.dat], and the history
    file of the allow list always holds the history of the allow list in
    memory, one line per entry: in every state that [main] reaches, the
    [.dat] file is as it was found and the [-match] file is what
    [update_list_match] writes for the list as it stands. *)
Theorem allow_list_file_and_history_are_kept (now_allow now_block : string) (fs : FS)
    (inputs : list PassInput) (s0 s : MainState pattern) :
  main_start now_allow now_block fs = Some s0 ->
  main_run parse_time inputs s0 = Some s ->
  files (world s) !! allowlist_file = fs !! allowlist_file
  /\ files (world s) !! (allowlist_file +:+ "-match")
     = Some (String.concat "" (map match_line (allowlist (world s)))).
Proof.
  intros H0 Hrun.
  assert (Hstart : allow_kept fs (world s0)).
  { unfold main_start in H0.
    destruct (reload_lists _ _ _) as [w|] eqn:Hr; [|discriminate].
    injection H0 as <-. cbn [world].
    destruct (reload_lists_effect _ _ _ _ Hr) as (_ & Ha & _ & Hother).
    unfold allow_kept. rewrite Hother by paths_differ. split; [reflexivity|assumption]. }
  clear H0. revert s0 Hstart Hrun.
  induction inputs as [|i inputs IH]; intros s0 Hstart; cbn [main_run].
  - intros [= <-]. exact Hstart.
  - destruct (main_pass parse_time i s0) as [s1|] eqn:H1; [|discriminate].
    apply IH. apply (main_pass_allow_kept _ _ _ _ Hstart H1).
Qed.

(** X15. Without a reload a pass adds no pattern to the allow list and
    takes none from it: its patterns, their order, flags and notes stay,
    whatever is purged or added by the star key.  The block list gains
    at most one pattern in a pass, the number of the call screened. *)
Theorem lists_change_only_by_reload_purge_and_star (i : PassInput)
    (s s' : MainState pattern) :
  reload_config i = false ->
  main_pass parse_time i s = Some s' ->
  Forall2 (fun a b => fst a = fst b /\ same_entry (snd a) (snd b))
          (allowlist (world s')) (allowlist (world s))
  /\ forall k, In k (map fst (blocklist (world s'))) ->
               In k (map fst (blocklist (world s)))
               \/ k = call_number (fst (accumulate (fields s) (line i))).
Proof.
  intros Hno Hp.
  destruct (main_pass_steps _ _ _ _ Hp) as (s1 & w2 & Hpurge & Hreload & Hrest).
  rewrite Hno in Hreload. subst w2.
  destruct (purge_if_due_effect _ _ _ _ Hpurge) as (Hal & _ & Hfields & Hsub & _).
  rewrite Hfields in Hrest.
  assert (Hkeys : forall k, In k (map fst (blocklist (world s1))) ->
                            In k (map fst (blocklist (world s)))).
  { intros k Hin. apply in_map_iff in Hin. destruct Hin as (e & <- & Hin).
    apply in_map. apply (sublist_In _ _ _ Hsub Hin). }
  destruct (snd (accumulate (fields s) (line i))).
  - destruct Hrest as (w3 & Hs & ->). cbn [world].
    destruct (screen_cases _ _ _ _ Hs) as (al & bl & fs & m & outcome & -> & Hcase).
    cbn [allowlist blocklist]. rewrite <- Hal.
    destruct Hcase as [(_ & -> & -> & _)
                      |[(_ & _ & -> & -> & _)
                       |[(_ & _ & -> & -> & _)
                        |(_ & _ & -> & _ & (compiled & _ & ->) & _)]]].
    + split; [apply match_list_both_entries|]. intros k Hin. left. auto.
    + split; [apply entries_refl|]. intros k Hin. left. apply Hkeys.
      rewrite (entries_keys _ _ (match_list_both_entries _ _ _ _)) in Hin. exact Hin.
    + split; [apply entries_refl|]. intros k Hin. left. auto.
    + split; [apply entries_refl|]. intros k Hin.
      destruct (dict_set_key_in _ _ _ _ Hin); auto.
  - subst s'. cbn [world]. rewrite Hal. split; [apply entries_refl|].
    intros k Hin. left. auto.
Qed.

(** The call log through one pass. *)
Lemma main_pass_log i (s s' : MainState pattern) :
  main_pass parse_time i s = Some s' ->
  match snd (feed (fields s) (line i)) with
  | Some r =>
      exists outcome,
        In outcome outcomes
        /\ log_text (files (world s'))
           = log_text (files (world s))
             +:+ log_line (make_timestamp (year (screen_env i)) r) r outcome
  | None => log_text (files (world s')) = log_text (files (world s))
  end
  /\ (snd (feed (fields s) (line i)) = None -> modem (world s') = modem (world s)).
Proof.
  intros Hp.
  destruct (main_pass_steps _ _ _ _ Hp) as (s1 & w2 & Hpurge & Hreload & Hrest).
  destruct (purge_if_due_effect _ _ _ _ Hpurge) as (_ & Hm1 & Hfields & _ & Hfiles).
  rewrite Hfields in Hrest.
  assert (H2 : log_text (files w2) = log_text (files (world s))
               /\ modem w2 = modem (world s)).
  { destruct (reload_config i).
    - destruct (reload_lists_effect _ _ _ _ Hreload) as (Hm & _ & _ & Hother).
      split; [|congruence]. apply log_text_same.
      rewrite Hother by paths_differ. apply Hfiles; paths_differ.
    - subst w2. split; [|assumption]. apply log_text_same. apply Hfiles; paths_differ. }
  destruct H2 as [Hlog Hmodem].
  unfold feed. destruct (accumulate (fields s) (line i)) as [c [|]]; cbn [fst snd] in *.
  - split; [|discriminate].
    destruct Hrest as (w3 & Hs & ->). cbn [world].
    destruct (screen_cases _ _ _ _ Hs) as (al & bl & fs & m & outcome & -> & Hcase).
    cbn [files]. rewrite log_text_append. exists outcome.
    destruct Hcase as [(_ & _ & _ & -> & _ & ->)
                      |[(_ & _ & _ & _ & -> & _ & ->)
                       |[(_ & _ & _ & _ & -> & -> & _)
                        |(_ & _ & _ & _ & _ & -> & -> & _)]]].
    + split; [left; reflexivity|]. f_equal. rewrite <- Hlog. apply log_text_same.
      apply update_list_match_other. paths_differ.
    + split; [right; left; reflexivity|]. f_equal. rewrite <- Hlog. apply log_text_same.
      apply update_list_match_other. paths_differ.
    + split; [right; right; left; reflexivity|]. f_equal. assumption.
    + split; [right; right; right; left; reflexivity|]. f_equal. rewrite <- Hlog.
      apply log_text_same. apply append_file_other. paths_differ.
  - subst s'. cbn [world]. split; [assumption|]. intros _. assumption.
Qed.

Lemma main_run_log (inputs : list PassInput)
    (s s' : MainState pattern) :
  main_run parse_time inputs s = Some s' ->
  exists entries,
    log_text (files (world s')) = log_text (files (world s)) +:+ String.concat "" entries
    /\ Forall2 (fun r entry =>
                  exists i outcome,
                    In i inputs /\ In outcome outcomes
                    /\ entry = log_line (make_timestamp (year (screen_env i)) r) r outcome)
               (snd (feed_lines (fields s) (map line inputs))) entries.
Proof.
  revert s. induction inputs as [|i inputs IH]; intros s; cbn [main_run map feed_lines].
  - intros [= <-]. exists []. split; [symmetry; apply append_nil_r|constructor].
  - destruct (main_pass parse_time i s) as [s1|] eqn:H1; [|discriminate].
    intros Hrun. destruct (IH _ Hrun) as (entries & Hlog & Hrel).
    assert (Hweak : Forall2 (fun r entry =>
                       exists i0 outcome,
                         In i0 (i :: inputs) /\ In outcome outcomes
                         /\ entry = log_line (make_timestamp (year (screen_env i0)) r) r
                                      outcome)
                      (snd (feed_lines (fields s1) (map line inputs))) entries).
    { clear -Hrel. induction Hrel as [|r e rs es (i0 & o & Hin & Ho & He) _ IHrel];
        constructor; [|assumption].
      exists i0, o. split; [right; assumption|]. split; assumption. }
    rewrite (main_pass_fields _ _ _ _ H1) in Hweak.
    destruct (main_pass_log _ _ _ H1) as [Hpass _].
    destruct (feed (fields s) (line i)) as [st' [r|]]; cbn [fst snd] in *.
    + destruct Hpass as (outcome & Ho & Hpass).
      destruct (feed_lines st' (map line inputs)) as [st'' rs]. cbn [snd] in *.
      exists (log_line (make_timestamp (year (screen_env i)) r) r outcome :: entries).
      split.
      * rewrite Hlog, Hpass, concat_cons, append_assoc. reflexivity.
      * constructor; [|assumption]. exists i, outcome.
        split; [left; reflexivity|]. split; [assumption|reflexivity].
    + exists entries. split; [congruence|assumption].
Qed.

(** X16. The call log is written by the screening of a completed Caller
    ID and by nothing else: over any number of passes the log grows by
    one line per record handed off, in the order of the records, each
    made of the timestamp, the number and the name of its record and of
    one of the four outcomes; purges, reloads and passes that complete
    no record leave it as it is. *)
Theorem call_log_gets_one_line_per_record (inputs : list PassInput)
    (s s' : MainState pattern) :
  main_run parse_time inputs s = Some s' ->
  exists entries,
    log_text (files (world s')) = log_text (files (world s)) +:+ String.concat "" entries
    /\ Forall2 (fun r entry =>
                  exists i outcome,
                    In i inputs /\ In outcome outcomes
                    /\ entry = log_line (make_timestamp (year (screen_env i)) r) r outcome)
               (snd (feed_lines (fields s) (map line inputs))) entries.
Proof. apply main_run_log. Qed.

(** X17. A pass that completes no record is silent: whatever it purges
    or reloads, nothing is sent to the modem and nothing is written to
    the call log. *)
Theorem pass_without_record_is_silent (i : PassInput) (s s' : MainState pattern) :
  snd (feed (fields s) (line i)) = None ->
  main_pass parse_time i s = Some s' ->
  modem (world s') = modem (world s)
  /\ log_text (files (world s')) = log_text (files (world s)).
Proof.
  intros Hnone Hp. destruct (main_pass_log _ _ _ Hp) as [Hlog Hmodem].
  rewrite Hnone in Hlog. split; [apply Hmodem; assumption|assumption].
Qed.

End LoopFacts.

(** The run of the examples: the program starts on [Sample.files0] and
    screens one call. *)
Lemma sample_run :
  exists s0 s1 s,
    Sample.started = Some s0
    /\ fields s0 = no_call
    /\ main_pass example_parse_time (Sample.pass "RING") s0 = Some s1
    /\ main_run example_parse_time Sample.call_passes s0 = Some s.
Proof.
  assert (Hb : match Sample.run_call with Some _ => true | None => false end = true)
    by (vm_compute; reflexivity).
  unfold Sample.run_call in Hb.
  destruct Sample.started as [s0|] eqn:H0; [|discriminate].
  destruct (main_run example_parse_time Sample.call_passes s0) as [s|] eqn:Hrun;
    [|discriminate].
  assert (Hf : fields s0 = no_call).
  { unfold Sample.started, main_start in H0.
    destruct (reload_lists _ _ _); [|discriminate]. injection H0 as <-. reflexivity. }
  pose proof Hrun as Hfirst. unfold Sample.call_passes in Hfirst.
  cbn [map main_run] in Hfirst.
  destruct (main_pass example_parse_time (Sample.pass "RING") s0) as [s1|] eqn:H1;
    [|discriminate].
  exists s0, s1, s. repeat split; assumption.
Qed.

Lemma allow_list_file_and_history_are_kept_witness :
  exists s0 s,
    Sample.started = Some s0
    /\ main_run example_parse_time Sample.call_passes s0 = Some s
    /\ files (world s) !! allowlist_file = Sample.files0 !! allowlist_file
    /\ files (world s) !! (allowlist_file +:+ "-match")
       = Some (String.concat "" (map match_line (allowlist (world s)))).
Proof.
  destruct sample_run as (s0 & s1 & s & H0 & _ & _ & Hrun).
  exists s0, s. split; [exact H0|]. split; [exact Hrun|].
  apply (allow_list_file_and_history_are_kept (pattern := list PyRe.piece)
           example_parse_time "2021-10-06 17:01" "2021-10-06 17:01" Sample.files0
           Sample.call_passes s0 s H0 Hrun).
Defined.

Lemma lists_change_only_by_reload_purge_and_star_witness :
  exists s0 s1,
    Sample.started = Some s0
    /\ main_pass example_parse_time (Sample.pass "RING") s0 = Some s1
    /\ map fst (allowlist (world s1)) = map fst (allowlist (world s0)).
Proof.
  destruct sample_run as (s0 & s1 & s & H0 & _ & H1 & _).
  exists s0, s1. split; [exact H0|]. split; [exact H1|].
  destruct (lists_change_only_by_reload_purge_and_star (pattern := list PyRe.piece)
              example_parse_time (Sample.pass "RING") s0 s1 eq_refl H1) as [Hal _].
  apply (entries_keys _ _ Hal).
Defined.

Lemma call_log_gets_one_line_per_record_witness :
  exists s0 s entries,
    Sample.started = Some s0
    /\ main_run example_parse_time Sample.call_passes s0 = Some s
    /\ log_text (files (world s)) = log_text (files (world s0)) +:+ String.concat "" entries
    /\ length entries = 1%nat.
Proof.
  destruct sample_run as (s0 & s1 & s & H0 & Hf & _ & Hrun).
  destruct (call_log_gets_one_line_per_record (pattern := list PyRe.piece)
              example_parse_time Sample.call_passes s0 s Hrun)
    as (entries & Hlog & Hrel).
  exists s0, s, entries. split; [exact H0|]. split; [exact Hrun|].
  split; [exact Hlog|].
  rewrite Hf in Hrel. apply Forall2_length in Hrel. rewrite <- Hrel. reflexivity.
Defined.

Lemma pass_without_record_is_silent_witness :
  exists s0 s1,
    Sample.started = Some s0
    /\ main_pass example_parse_time (Sample.pass "RING") s0 = Some s1
    /\ modem (world s1) = modem (world s0)
    /\ log_text (files (world s1)) = log_text (files (world s0)).
Proof.
  destruct sample_run as (s0 & s1 & s & H0 & Hf & H1 & _).
  exists s0, s1. split; [exact H0|]. split; [exact H1|].
  apply (pass_without_record_is_silent (pattern := list PyRe.piece)
           example_parse_time (Sample.pass "RING") s0 s1); [|exact H1].
  rewrite Hf. reflexivity.
Defined.

(** ** The call log, line by line *)

Lemma make_timestamp_has_char ch year c :
  ch <> "-"%char -> ch <> " "%char -> ch <> ":"%char ->
  has_char ch year = false -> has_char ch (call_date c) = false ->
  has_char ch (call_time c) = false ->
  has_char ch (make_timestamp year c) = false.
Proof.
  intros H1 H2 H3 Hy Hd Ht. unfold make_timestamp, slice.
  repeat rewrite has_char_app.
  rewrite Hy. repeat rewrite (has_char_substring _ _ _ _ Hd).
  repeat rewrite (has_char_substring _ _ _ _ Ht).
  cbn [has_char orb].
  replace (Ascii.eqb "-" ch) with false by (symmetry; apply Ascii.eqb_neq; congruence).
  replace (Ascii.eqb " " ch) with false by (symmetry; apply Ascii.eqb_neq; congruence).
  replace (Ascii.eqb ":" ch) with false by (symmetry; apply Ascii.eqb_neq; congruence).
  reflexivity.
Qed.

Lemma log_line_has_char ch ts c outcome :
  ch <> " "%char -> ch <> ":"%char ->
  has_char ch ts = false -> has_char ch (call_number c) = false ->
  has_char ch (call_name c) = false -> has_char ch outcome = false ->
  has_char ch (ts +:+ "  " +:+ space_fill (call_number c) 12
               +:+ space_fill (call_name c) 17 +:+ " : " +:+ outcome) = false.
Proof.
  intros H1 H2 Hts Hn Hm Ho. unfold space_fill. repeat rewrite has_char_app.
  rewrite Hts, Hn, Hm, Ho. repeat rewrite has_char_spaces by congruence.
  cbn [has_char orb].
  replace (Ascii.eqb " " ch) with false by (symmetry; apply Ascii.eqb_neq; congruence).
  replace (Ascii.eqb ":" ch) with false by (symmetry; apply Ascii.eqb_neq; congruence).
  reflexivity.
Qed.

(** The line written for a record whose fields hold no line end is one
    line. *)
Lemma log_line_is_a_line year c outcome :
  nl_free year -> clean_call c -> In outcome outcomes ->
  exists body, log_line (make_timestamp year c) c outcome = body +:+ NL /\ nl_free body.
Proof.
  intros [Y1 Y2] ([D1 D2] & [T1 T2] & [N1 N2] & [M1 M2]) Ho.
  assert (Hout : nl_free outcome).
  { destruct Ho as [<-|[<-|[<-|[<-|[]]]]]; split; reflexivity. }
  destruct Hout as [O1 O2].
  exists (make_timestamp year c +:+ "  " +:+ space_fill (call_number c) 12
          +:+ space_fill (call_name c) 17 +:+ " : " +:+ outcome).
  split; [unfold log_line; repeat rewrite append_assoc; reflexivity|].
  split; apply log_line_has_char; try discriminate; try assumption;
    apply make_timestamp_has_char; try discriminate; assumption.
Qed.

Lemma file_lines_appended_lines (entries : list string) : forall old : string,
  old = "" \/ (exists text, old = text +:+ NL) ->
  Forall (fun e => exists body, e = body +:+ NL /\ nl_free body) entries ->
  file_lines (old +:+ String.concat "" entries) = file_lines old ++ entries.
Proof.
  induction entries as [|e entries IH]; intros old Hold Hall.
  - cbn [String.concat]. rewrite append_nil_r, app_nil_r. reflexivity.
  - inversion Hall as [|? ? (body & -> & Hbody) Hrest]; subst.
    rewrite concat_cons, <- append_assoc, IH; [| |assumption].
    + rewrite (file_lines_appended old body Hold Hbody), <- app_assoc.
      reflexivity.
    + right. exists (old +:+ body). rewrite append_assoc. reflexivity.
Qed.

Section LogFacts.
Context {pattern : Type} `{RegexLib pattern}.
Variable parse_time : string -> option Q.

(** X18. Read back line by line, the call log has one new line per
    record handed off, after the lines it had: the lines that
    [Modem.read_line] gives hold no line end, so neither do the fields
    of a record, and the text written for it is exactly one line.  (The
    log must have ended with a line feed, or been empty, before.) *)
Theorem call_log_reads_back_one_line_per_record (inputs : list PassInput)
    (s s' : MainState pattern) :
  main_run parse_time inputs s = Some s' ->
  Forall (fun i => nl_free (line i) /\ nl_free (year (screen_env i))) inputs ->
  clean_call (fields s) ->
  log_text (files (world s)) = ""
  \/ (exists text, log_text (files (world s)) = text +:+ NL) ->
  exists entries,
    file_lines (log_text (files (world s')))
    = file_lines (log_text (files (world s))) ++ entries
    /\ Forall2 (fun r entry =>
                  exists i outcome,
                    In i inputs /\ In outcome outcomes
                    /\ entry = log_line (make_timestamp (year (screen_env i)) r) r outcome)
               (snd (feed_lines (fields s) (map line inputs))) entries.
Proof.
  intros Hrun Hin Hclean Hold.
  destruct (main_run_log _ _ _ _ Hrun) as (entries & Hlog & Hrel).
  exists entries. split; [|assumption].
  rewrite Hlog. apply file_lines_appended_lines; [assumption|].
  assert (Hlines : Forall nl_free (map line inputs)).
  { clear -Hin. induction Hin as [|i inputs [Hi _] _ IH]; constructor; assumption. }
  destruct (feed_lines_all4 nl_free nl_free_empty nl_free_strip_key
              (map line inputs) (fields s) Hclean Hlines) as [_ Hrecords].
  rewrite List.Forall_forall in Hin.
  clear -Hrel Hrecords Hin.
  induction Hrel as [|r e rs es (i & outcome & Hi & Ho & ->) _ IH]; [constructor|].
  inversion Hrecords as [|? ? Hr Hrs]; subst.
  constructor; [|apply IH; assumption].
  apply log_line_is_a_line; [apply (Hin i Hi)|exact Hr|assumption].
Qed.

End LogFacts.

Lemma call_log_reads_back_one_line_per_record_witness :
  exists s0 s entries,
    Sample.started = Some s0
    /\ main_run example_parse_time Sample.call_passes s0 = Some s
    /\ file_lines (log_text (files (world s)))
       = file_lines (log_text (files (world s0))) ++ entries
    /\ length entries = 1%nat.
Proof.
  destruct sample_run as (s0 & s1 & s & H0 & Hf & _ & Hrun).
  assert (Hlog0 : log_text (files (world s0)) = "").
  { unfold Sample.started, main_start in H0.
    destruct (reload_lists _ _ _) as [w|] eqn:Hr; [|discriminate].
    injection H0 as <-. cbn [world].
    destruct (reload_lists_effect _ _ _ _ Hr) as (_ & _ & _ & Hother).
    unfold log_text. rewrite Hother by paths_differ. reflexivity. }
  destruct (call_log_reads_back_one_line_per_record (pattern := list PyRe.piece)
              example_parse_time Sample.call_passes s0 s Hrun)
    as (entries & Hlines & Hrel).
  - repeat constructor.
  - rewrite Hf. repeat split.
  - left. exact Hlog0.
  - exists s0, s, entries. split; [exact H0|]. split; [exact Hrun|].
    split; [exact Hlines|].
    rewrite Hf in Hrel. apply Forall2_length in Hrel. rewrite <- Hrel. reflexivity.
Defined.

(** ** The commands of the star-key detector *)








(** ** Purging twice *)

Lemma lines_shaped_cons (x : string) (rest : list string) :
  whole_line x -> lines_shaped rest -> lines_shaped (x :: rest).
Proof. intros Hx Hrest. destruct rest; cbn [lines_shaped]; auto. Qed.

Lemma lines_shaped_head (c : ascii) (l : string) (ls : list string) :
  Ascii.eqb c LF = false -> Ascii.eqb c CR = false ->
  lines_shaped (l :: ls) -> lines_shaped (String c l :: ls).
Proof.
  intros Hl Hc.
  assert (Hw : whole_line l -> whole_line (String c l)).
  { intros (body & -> & [B1 B2]). exists (String c body). split; [reflexivity|].
    split; cbn [has_char]; [rewrite Hl|rewrite Hc]; assumption. }
  destruct ls as [|l2 ls]; cbn [lines_shaped].
  - intros [Hx|[Hne [B1 B2]]]; [left; auto|].
    right. split; [discriminate|].
    split; cbn [has_char]; [rewrite Hl|rewrite Hc]; assumption.
  - intros [Hx Hrest]. split; auto.
Qed.

Lemma whole_line_NL : whole_line NL.
Proof. exists "". split; [reflexivity|split; reflexivity]. Qed.

Lemma file_lines_shaped : forall n (content : string),
  (String.length content <= n)%nat -> lines_shaped (file_lines content).
Proof.
  induction n as [|n IH]; intros content Hlen.
  - destruct content; [exact I|cbn [String.length] in Hlen; lia].
  - destruct content as [|c s]; [exact I|]. cbn [String.length] in Hlen.
    destruct (Ascii.eqb c LF) eqn:Hl.
    { apply ascii_eqb_true in Hl. subst c. rewrite file_lines_lf.
      apply lines_shaped_cons; [apply whole_line_NL|apply IH; lia]. }
    destruct (Ascii.eqb c CR) eqn:Hc.
    + apply ascii_eqb_true in Hc. subst c. destruct s as [|c' s].
      * rewrite file_lines_cr_end. left. apply whole_line_NL.
      * cbn [String.length] in Hlen. destruct (Ascii.eqb c' LF) eqn:Hl'.
        -- apply ascii_eqb_true in Hl'. subst c'. rewrite file_lines_cr_lf.
           apply lines_shaped_cons; [apply whole_line_NL|apply IH; lia].
        -- rewrite (file_lines_cr _ _ Hl').
           apply lines_shaped_cons; [apply whole_line_NL|].
           apply IH. cbn [String.length]. lia.
    + rewrite (file_lines_other _ _ Hl Hc).
      pose proof (IH s ltac:(lia)) as Hs.
      destruct (file_lines s) as [|l ls].
      * right. split; [discriminate|].
        split; cbn [has_char]; [rewrite Hl|rewrite Hc]; reflexivity.
      * apply lines_shaped_head; assumption.
Qed.

Lemma file_lines_open (x : string) : open_line x -> file_lines x = [x].
Proof.
  intros [Hne [H1 H2]]. induction x as [|c x IH]; [contradiction|].
  cbn [has_char] in H1, H2.
  apply orb_false_elim in H1. apply orb_false_elim in H2.
  destruct H1 as [Hl H1]. destruct H2 as [Hc H2].
  rewrite (file_lines_other _ _ Hl Hc).
  destruct x as [|c' x]; [reflexivity|].
  rewrite IH by (discriminate || assumption). reflexivity.
Qed.

(** Lines of that shape are read back as they are. *)
Lemma file_lines_of_shaped (xs : list string) :
  lines_shaped xs -> file_lines (String.concat "" xs) = xs.
Proof.
  induction xs as [|x rest IH]; [reflexivity|].
  destruct rest as [|y rest].
  - cbn [lines_shaped String.concat]. intros [(body & -> & Hbody)|Hopen].
    + apply file_lines_line. assumption.
    + apply file_lines_open. assumption.
  - intros [(body & -> & Hbody) Hrest].
    rewrite concat_cons, append_assoc.
    change (NL +:+ String.concat "" (y :: rest))
      with (String LF (String.concat "" (y :: rest))).
    rewrite (file_lines_app_lf _ _ _ (Nat.le_refl _)), (file_lines_line _ Hbody).
    rewrite (IH Hrest). reflexivity.
Qed.

Lemma nl_free_app (a b : string) : nl_free a -> nl_free b -> nl_free (a +:+ b).
Proof.
  intros [A1 A2] [B1 B2]. split; rewrite has_char_app; [rewrite A1|rewrite A2]; assumption.
Qed.

(** A text put in front of a line leaves the shape of the lines. *)
Lemma lines_shaped_prefixed (lines outs : list string) :
  Forall2 (fun line out => out = line \/ exists pre, nl_free pre /\ out = pre +:+ line)
          lines outs ->
  lines_shaped lines -> lines_shaped outs.
Proof.
  assert (Hw : forall line out,
             (out = line \/ exists pre, nl_free pre /\ out = pre +:+ line) ->
             whole_line line -> whole_line out).
  { intros line out [->|(pre & Hpre & ->)] Hline; [assumption|].
    destruct Hline as (body & -> & Hbody). exists (pre +:+ body).
    split; [rewrite append_assoc; reflexivity|apply nl_free_app; assumption]. }
  assert (Ho : forall line out,
             (out = line \/ exists pre, nl_free pre /\ out = pre +:+ line) ->
             open_line line -> open_line out).
  { intros line out [->|(pre & Hpre & ->)] Hline; [assumption|].
    destruct Hline as [Hne Hfree]. split; [|apply nl_free_app; assumption].
    destruct pre; [assumption|discriminate]. }
  induction 1 as [|line out lines outs Hrel Hrest IH]; [auto|].
  destruct Hrest as [|line2 out2 lines outs Hrel2 Hrest].
  - cbn [lines_shaped]. intros [Hx|Hx]; [left|right]; eauto.
  - intros [Hx Hshape]. split; [eauto|]. apply IH. assumption.
Qed.

Section PurgeTwice.
Context {pattern : Type} `{RegexLib pattern}.
Variable parse_time : string -> option Q.
Variables (now : Q) (lifetime_days : Z).

Lemma commented_out_prefix (it : Item pattern) line :
  nl_free (timestamp it) ->
  startswith (commented_out it line) "#" = true
  /\ exists pre, nl_free pre /\ commented_out it line = pre +:+ line.
Proof.
  intros Hts. split; [reflexivity|].
  exists ("# last blocked on " +:+ timestamp it +:+ " count " +:+ py_str (count it) +:+ " #").
  split.
  - repeat apply nl_free_app; try assumption; try (split; reflexivity).
    split; apply py_str_no_char; reflexivity || discriminate.
  - unfold commented_out. repeat rewrite append_assoc. reflexivity.
Qed.

(** The lines a purge writes are lines that the same purge leaves as
    they are. *)
Lemma purge_lines_settled lines : forall (l l' : PList pattern) nc nc' ch ch',
  dict_wf l -> Forall (fun e => nl_free (timestamp (snd e))) l ->
  purge_lines parse_time now lifetime_days (l, nc, ch) lines = Some (l', nc', ch') ->
  exists outs,
    nc' = nc +:+ String.concat "" outs
    /\ Forall2 (fun line out => out = line \/ exists pre, nl_free pre /\ out = pre +:+ line)
               lines outs
    /\ forall nc2 ch2,
         purge_lines parse_time now lifetime_days (l', nc2, ch2) outs
         = Some (l', nc2 +:+ String.concat "" outs, ch2).
Proof.
  induction lines as [|line lines IH]; intros l l' nc nc' ch ch' Hwf Hts; cbn [purge_lines].
  - intros [= <- <- <-]. exists []. split; [symmetry; apply append_nil_r|].
    split; [constructor|]. intros nc2 ch2. cbn [purge_lines String.concat].
    rewrite append_nil_r. reflexivity.
  - destruct (purge_line _ _ _ (l, nc, ch) line) as [[[l1 nc1] ch1]|] eqn:H1;
      [|discriminate].
    intros Hrest. rewrite purge_line_cases in H1.
    assert (Hnext : forall out,
               dict_wf l1 -> Forall (fun e => nl_free (timestamp (snd e))) l1 ->
               nc1 = nc +:+ out ->
               (out = line \/ exists pre, nl_free pre /\ out = pre +:+ line) ->
               (forall nc2 ch2,
                  purge_line parse_time now lifetime_days (l', nc2, ch2) out
                  = Some (l', nc2 +:+ out, ch2)) ->
               exists outs,
                 nc' = nc +:+ String.concat "" outs
                 /\ Forall2 (fun line out =>
                               out = line \/ exists pre, nl_free pre /\ out = pre +:+ line)
                            (line :: lines) outs
                 /\ forall nc2 ch2,
                      purge_lines parse_time now lifetime_days (l', nc2, ch2) outs
                      = Some (l', nc2 +:+ String.concat "" outs, ch2)).
    { intros out Hwf1 Hts1 Hnc Hshape Hagain.
      destruct (IH _ _ _ _ _ _ Hwf1 Hts1 Hrest) as (outs & Hnc' & Hrel & Hsettled).
      exists (out :: outs). split; [|split].
      - rewrite Hnc', Hnc, concat_cons, append_assoc. reflexivity.
      - constructor; assumption.
      - intros nc2 ch2. cbn [purge_lines]. rewrite Hagain, Hsettled, concat_cons.
        rewrite append_assoc. reflexivity. }
    assert (Hwf1 : dict_wf l1).
    { destruct (line_key line) as [key|]; [|injection H1 as <- <- <-; assumption].
      destruct (dict_get key l) as [it|]; [|injection H1 as <- <- <-; assumption].
      destruct (parse_time (timestamp it)); [|discriminate].
      destruct (purgeable parse_time now lifetime_days it);
        injection H1 as <- <- <-; [apply dict_del_wf|]; assumption. }
    destruct (purge_lines_survivors _ _ _ _ _ _ _ _ _ _ Hwf1 Hrest) as [_ Hsurv].
    destruct (line_key line) as [key|] eqn:Hkey.
    2: { injection H1 as <- <- <-. apply (Hnext line); auto.
         intros nc2 ch2. rewrite purge_line_cases, Hkey. reflexivity. }
    destruct (dict_get key l) as [it|] eqn:Hg.
    2: { injection H1 as <- <- <-. apply (Hnext line); auto.
         intros nc2 ch2. rewrite purge_line_cases, Hkey.
         destruct (dict_get key l') as [it'|] eqn:Hg'; [|reflexivity].
         rewrite (Hsurv _ _ Hg') in Hg. discriminate. }
    destruct (parse_time (timestamp it)) as [t|] eqn:Hparse; [|discriminate].
    destruct (purgeable parse_time now lifetime_days it) eqn:Htaken;
      injection H1 as <- <- <-.
    + pose proof (dict_get_Forall _ _ _ _ Hts Hg) as Hit. cbn [snd] in Hit.
      destruct (commented_out_prefix it line Hit) as [Hhash Hpre].
      apply (Hnext (commented_out it line) Hwf1 (dict_del_Forall _ _ _ Hts) eq_refl
               (or_intror Hpre)).
      intros nc2 ch2. unfold purge_line. rewrite Hhash. reflexivity.
    + apply (Hnext line); auto.
      intros nc2 ch2. rewrite purge_line_cases, Hkey.
      destruct (dict_get key l') as [it'|] eqn:Hg'; [|reflexivity].
      rewrite (Hsurv _ _ Hg') in Hg. injection Hg as ->.
      rewrite Hparse, Htaken. reflexivity.
Qed.

(** X20. A purge leaves nothing for the next one: right after
    [purge_list] has returned, the same purge (same clock, same
    lifetime) on the list and the files it left takes no entry, writes
    no file and makes no new backup. *)
Theorem purge_again_changes_nothing (l l' : PList pattern) (list_file : string)
    (fs fs' : FS) :
  dict_wf l -> Forall (fun e => nl_free (timestamp (snd e))) l ->
  purge_list parse_time l list_file lifetime_days now fs = Some (l', fs') ->
  purge_list parse_time l' list_file lifetime_days now fs' = Some (l', fs').
Proof.
  intros Hwf Hts. unfold purge_list.
  destruct (fs !! list_file) as [content|] eqn:Hf.
  2: { intros [= <- <-]. rewrite Hf. reflexivity. }
  destruct (purge_lines _ _ _ _ (file_lines content)) as [[[l1 nc1] ch1]|] eqn:Hp;
    [|discriminate].
  destruct (purge_lines_settled _ _ _ _ _ _ _ Hwf Hts Hp) as (outs & Hnc & Hrel & Hagain).
  change ("" +:+ String.concat "" outs) with (String.concat "" outs) in Hnc.
  destruct ch1; intros [= <- <-].
  - rewrite write_with_backup_file. subst nc1.
    rewrite file_lines_of_shaped.
    2: { apply (lines_shaped_prefixed _ _ Hrel).
         apply (file_lines_shaped _ _ (Nat.le_refl _)). }
    rewrite (Hagain "" false). reflexivity.
  - rewrite Hf.
    destruct (purge_lines_text _ _ _ _ _ _ _ _ _ _ Hwf Hp)
      as (outs' & _ & _ & _ & [(_ & -> & _)|(Hc & _)]); [|discriminate].
    rewrite Hp. reflexivity.
Qed.

End PurgeTwice.

Lemma purge_again_changes_nothing_witness :
  exists l' fs',
    purge_list example_parse_time Sample.stale_list2 "blocklist.dat"
      blocklist_lifetime_days Sample.late Sample.stale_files = Some (l', fs')
    /\ purge_list example_parse_time l' "blocklist.dat"
         blocklist_lifetime_days Sample.late fs' = Some (l', fs').
Proof.
  destruct (purge_list_total example_parse_time Sample.stale_list2 "blocklist.dat"
              blocklist_lifetime_days Sample.late Sample.stale_files)
    as [[l' fs'] Hp].
  { repeat constructor; discriminate. }
  exists l', fs'. split; [exact Hp|].
  apply (purge_again_changes_nothing (pattern := list PyRe.piece) example_parse_time
           Sample.late blocklist_lifetime_days Sample.stale_list2 l' "blocklist.dat"
           Sample.stale_files fs'); [| |exact Hp].
  - repeat split.
  - repeat constructor.
Defined.

(** ** Stopping the program and starting it again *)

Lemma plain_empty : plain "".
Proof. repeat split. Qed.

Lemma plain_strip_key (line : string) : plain line -> plain (strip_key line).
Proof.
  intros [[H1 H2] H3]. repeat split; apply strip_key_has_char; assumption.
Qed.

Lemma make_timestamp_plain year c :
  plain year -> plain (call_date c) -> plain (call_time c) ->
  plain (make_timestamp year c).
Proof.
  intros [[Y1 Y2] Y3] [[D1 D2] D3] [[T1 T2] T3].
  repeat split; apply make_timestamp_has_char; try discriminate; assumption.
Qed.

Section Restart.
Context {pattern : Type} `{RegexLib pattern}.
Variable parse_time : string -> option Q.

#[local] Abbreviation akin :=
  (Forall2 (fun a b : string * Item pattern => fst a = fst b /\ same_entry (snd a) (snd b))).

(** The entries of [allowlist.dat] as a load at the time [now] gives
    them, before any history. *)
Let dat_entries (fs : FS) (now : string) : PList pattern :=
  match fs !! allowlist_file with
  | Some content => fold_left (read_dat_line now) (file_lines content) []
  | None => []
  end.

Lemma dat_entries_akin (fs fs' : FS) now now' :
  fs' !! allowlist_file = fs !! allowlist_file ->
  akin (dat_entries fs' now') (dat_entries fs now).
Proof.
  unfold dat_entries. intros ->.
  destruct (fs !! allowlist_file) as [content|]; [|constructor].
  pose proof (read_dat_lines_restarted now now' (file_lines content) []) as HD.
  cbn [map] in HD. rewrite HD. apply entries_restarted.
Qed.

Lemma read_list_akin (fs : FS) now (l : PList pattern) :
  read_list fs now allowlist_file = Some l -> akin l (dat_entries fs now).
Proof.
  unfold read_list, dat_entries.
  destruct (fs !! allowlist_file) as [content|].
  - destruct (fs !! (allowlist_file +:+ "-match")) as [history|].
    + apply read_match_lines_entries.
    + intros [= <-]. apply entries_refl.
  - intros [= <-]. constructor.
Qed.

(** What holds of the allow list and of the fields in every state. *)
Let allow_sound (fs0 : FS) (s : MainState pattern) : Prop :=
  (files (world s) !! allowlist_file = fs0 !! allowlist_file
   /\ files (world s) !! (allowlist_file +:+ "-match")
      = Some (String.concat "" (map match_line (allowlist (world s)))))
  /\ Forall clean_entry (allowlist (world s))
  /\ dict_wf (allowlist (world s))
  /\ akin (allowlist (world s)) (dat_entries fs0 "")
  /\ (plain (call_date (fields s)) /\ plain (call_time (fields s))
      /\ plain (call_number (fields s)) /\ plain (call_name (fields s))).

Lemma loaded_allow_sound (fs0 fs : FS) now (l : PList pattern) :
  fs !! allowlist_file = fs0 !! allowlist_file -> plain now ->
  read_list fs now allowlist_file = Some l ->
  Forall clean_entry l /\ dict_wf l /\ akin l (dat_entries fs0 "").
Proof.
  intros Hsame [Hnow Hsemi] Hr. split; [|split].
  - apply (read_list_clean _ _ _ _ Hnow Hsemi Hr).
  - apply (read_list_wf _ _ _ _ Hr).
  - apply (entries_trans _ (dat_entries fs now)); [apply read_list_akin; assumption|].
    apply dat_entries_akin. assumption.
Qed.

Lemma reload_lists_allow now_allow now_block (w w' : World pattern) :
  reload_lists now_allow now_block w = Some w' ->
  read_list (files w) now_allow allowlist_file = Some (allowlist w').
Proof.
  unfold reload_lists.
  destruct (read_list (files w) now_allow allowlist_file) as [al|]; [|discriminate].
  destruct (read_list _ now_block blocklist_file) as [bl|]; [|discriminate].
  intros [= <-]. reflexivity.
Qed.

Lemma match_list_both_clean (l : PList pattern) number name ts :
  plain ts -> Forall clean_entry l ->
  Forall clean_entry (fst (match_list_both l number name ts)).
Proof.
  intros [Hts Hsemi]. apply match_list_both_Forall.
  intros k it (Hk & _ & _). split; [assumption|]. split; assumption.
Qed.

Lemma main_pass_allow_sound fs0 i (s s' : MainState pattern) :
  plain (line i) -> plain (year (screen_env i)) -> plain (reload_allow_at i) ->
  allow_sound fs0 s -> main_pass parse_time i s = Some s' -> allow_sound fs0 s'.
Proof.
  intros Hline Hyear Hreload_at (Hkept & Hclean & Hwf & Hakin & Hfields) Hp.
  split; [apply (main_pass_allow_kept parse_time fs0 i s s' Hkept Hp)|].
  destruct (main_pass_steps _ _ _ _ Hp) as (s1 & w2 & Hpurge & Hreload & Hrest).
  destruct (purge_if_due_effect _ _ _ _ Hpurge) as (Hal & _ & Hf & _ & Hfiles).
  assert (H2 : Forall clean_entry (allowlist w2) /\ dict_wf (allowlist w2)
               /\ akin (allowlist w2) (dat_entries fs0 "")).
  { destruct (reload_config i).
    - apply (loaded_allow_sound fs0 (files (world s1)) (reload_allow_at i));
        [|assumption|apply (reload_lists_allow _ _ _ _ Hreload)].
      rewrite Hfiles by paths_differ. apply Hkept.
    - subst w2. rewrite Hal. auto. }
  destruct H2 as (Hclean2 & Hwf2 & Hakin2).
  rewrite Hf in Hrest.
  pose proof (accumulate_all4 plain plain_strip_key (fields s) (line i) Hfields Hline)
    as Hfields'.
  destruct (snd (accumulate (fields s) (line i))).
  - destruct Hrest as (w3 & Hs & ->). cbn [world fields].
    destruct (screen_cases _ _ _ _ Hs) as (al & bl & fs & m & outcome & -> & Hcase).
    cbn [allowlist].
    assert (Hlist : Forall clean_entry al /\ dict_wf al /\ akin al (dat_entries fs0 "")).
    { destruct Hcase as [(_ & -> & _)
                        |[(_ & _ & -> & _)|[(_ & _ & -> & _)|(_ & _ & -> & _)]]];
        try (split; [|split]; assumption).
      split; [|split].
      - apply match_list_both_clean; [|assumption].
        apply make_timestamp_plain; [assumption|apply Hfields'..].
      - apply match_list_both_wf. assumption.
      - apply (entries_trans _ (allowlist w2)); [apply match_list_both_entries|assumption]. }
    destruct Hlist as (L1 & L2 & L3).
    split; [assumption|]. split; [assumption|]. split; [assumption|].
    repeat split.
  - subst s'. cbn [world fields].
    split; [assumption|]. split; [assumption|]. split; [assumption|].
    exact Hfields'.
Qed.

(** X21. The history of the allow list survives a stop and a restart of
    the program at any moment: in every state that [main] reaches, a
    load of the allow list from the files as they stand returns, holds
    the patterns of the list in memory in the same order, and gives
    every entry whose pattern text has no semicolon as it is in memory,
    timestamp and count of matches included.  (The lines of the modem
    and the times read from the clock hold no line end and no
    semicolon; an entry whose pattern text holds a semicolon restarts
    with the time of the load and a count of zero.) *)
Theorem allow_history_survives_restart (now_allow now_block : string) (fs : FS)
    (inputs : list PassInput) (s0 s : MainState pattern) (now' : string) :
  main_start now_allow now_block fs = Some s0 ->
  main_run parse_time inputs s0 = Some s ->
  plain now_allow ->
  Forall (fun i => plain (line i) /\ plain (year (screen_env i))
                   /\ plain (reload_allow_at i)) inputs ->
  exists l',
    read_list (files (world s)) now' allowlist_file = Some l'
    /\ map fst l' = map fst (allowlist (world s))
    /\ forall key it,
         dict_get key (allowlist (world s)) = Some it ->
         dict_get key l' = Some (if has_char ";" key then restarted now' it else it).
Proof.
  intros H0 Hrun Hnow Hinputs.
  assert (Hstart : allow_sound fs s0).
  { unfold main_start in H0.
    destruct (reload_lists _ _ _) as [w|] eqn:Hr; [|discriminate].
    injection H0 as <-. unfold allow_sound. cbn [world fields].
    destruct (reload_lists_effect _ _ _ _ Hr) as (_ & Ha & _ & Hother).
    split; [split; [rewrite Hother by paths_differ; reflexivity|assumption]|].
    destruct (loaded_allow_sound fs fs now_allow _ eq_refl Hnow
                (reload_lists_allow _ _ _ _ Hr)) as (Hc & Hw & Hk).
    repeat split; try assumption. }
  assert (Hend : allow_sound fs s).
  { clear H0. revert s0 Hstart Hrun.
    induction Hinputs as [|i inputs (Hl & Hy & Hr) _ IH]; intros s0 Hstart; cbn [main_run].
    - intros [= <-]. exact Hstart.
    - destruct (main_pass parse_time i s0) as [s1|] eqn:H1; [|discriminate].
      apply IH. apply (main_pass_allow_sound fs i s0 s1 Hl Hy Hr Hstart H1). }
  destruct Hend as ((Hdat & Hmatch) & Hclean & Hwf & Hakin & _).
  assert (Hal : akin (allowlist (world s)) (dat_entries (files (world s)) now')).
  { apply (entries_trans _ (dat_entries fs "")); [assumption|].
    apply entries_sym. apply dat_entries_akin. assumption. }
  unfold read_list. unfold dat_entries in Hal.
  destruct (files (world s) !! allowlist_file) as [content|].
  - rewrite Hmatch.
    destruct (history_restored _ _ now' Hclean Hwf Hal (read_dat_lines_fresh now' _))
      as (Hread & Hkeys & Hget).
    eexists. split; [exact Hread|]. split; assumption.
  - destruct (allowlist (world s)); [|inversion Hal].
    exists []. repeat split. intros key it Hg. discriminate.
Qed.

End Restart.

Lemma allow_history_survives_restart_witness :
  exists s0 s l',
    Sample.started = Some s0
    /\ main_run example_parse_time Sample.call_passes s0 = Some s
    /\ read_list (files (world s)) "2021-10-06 17:02" allowlist_file = Some l'
    /\ map fst l' = map fst (allowlist (world s)).
Proof.
  destruct sample_run as (s0 & s1 & s & H0 & _ & _ & Hrun).
  destruct (allow_history_survives_restart (pattern := list PyRe.piece)
              example_parse_time "2021-10-06 17:01" "2021-10-06 17:01" Sample.files0
              Sample.call_passes s0 s "2021-10-06 17:02" H0 Hrun)
    as (l' & Hread & Hkeys & _).
  - repeat split.
  - repeat constructor.
  - exists s0, s, l'. repeat split; assumption.
Defined.

(** ** After the star key *)

Section StarThenBlock.
Context {pattern : Type} `{RegexLib pattern}.

(** X22. A caller added by the star key is blocked the next time: when
    a screening has added the number of a call to the block list, a
    later call from the same number that the allow list does not match
    is matched by the block list, the terminate-call commands are sent
    and the call is logged as [block], no star key being waited for.
    The number must match itself as a pattern, which a number made of
    digits does. *)
Theorem star_added_number_is_blocked_next_time (env : ScreenEnv) (w : World pattern)
    (c : CallerId) (compiled : pattern) (m : Modem) :
  snd (match_list_both (allowlist w) (call_number c) (call_name c)
         (make_timestamp (year env) c)) = false ->
  snd (match_list_both (blocklist w) (call_number c) (call_name c)
         (make_timestamp (year env) c)) = false ->
  wait_for_star (modem w) (star_t0 env) (star_obs env) = Some (m, true) ->
  call_number c <> "" -> re_compile (call_number c) = Some compiled ->
  re_match compiled (call_number c) = true ->
  exists w1,
    screen env w c = Some w1
    /\ forall env2 c2,
         call_number c2 = call_number c ->
         snd (match_list_both (allowlist w1) (call_number c2) (call_name c2)
                (make_timestamp (year env2) c2)) = false ->
         exists w2,
           screen env2 w1 c2 = Some w2
           /\ modem w2 = terminate_call (modem w1)
           /\ log_text (files w2)
              = log_text (files w1)
                +:+ log_line (make_timestamp (year env2) c2) c2 "block".
Proof.
  intros Ha Hb Hstar Hne Hc Hself.
  rewrite (screen_neither _ _ _ Ha Hb), Hstar.
  rewrite (add_by_star_added env c (blocklist w) (files w) compiled Hc Hne).
  eexists. split; [reflexivity|].
  intros env2 c2 Hsame Ha2. cbn [allowlist] in Ha2.
  set (w1 := mkWorld _ _ _ _).
  assert (Hb2 : snd (match_list_both (blocklist w1) (call_number c2) (call_name c2)
                       (make_timestamp (year env2) c2)) = true).
  { unfold match_list_both.
    destruct (match_list (blocklist w1) (call_number c2) (make_timestamp (year env2) c2))
      as [l1 hit] eqn:Hm.
    assert (Hhit : hit = true).
    { change hit with (snd (l1, hit)). rewrite <- Hm. apply match_list_hit_iff.
      exists (call_number c), (mkItem compiled (added_at env) 0 false "added by user * key").
      split; [|rewrite Hsame; exact Hself].
      apply dict_get_in. apply dict_get_set_same. }
    subst hit. reflexivity. }
  rewrite (screen_block env2 w1 c2 Ha2 Hb2).
  eexists. split; [reflexivity|]. cbn [modem files]. split; [reflexivity|].
  rewrite log_text_append. f_equal. apply log_text_same.
  apply update_list_match_other. paths_differ.
Qed.

End StarThenBlock.

Lemma star_added_number_is_blocked_next_time_witness :
  exists w1,
    screen Sample.env_star Sample.empty_world Sample.call_new = Some w1
    /\ forall env2 c2,
         call_number c2 = call_number Sample.call_new ->
         snd (match_list_both (allowlist w1) (call_number c2) (call_name c2)
                (make_timestamp (year env2) c2)) = false ->
         exists w2,
           screen env2 w1 c2 = Some w2
           /\ modem w2 = terminate_call (modem w1)
           /\ log_text (files w2)
              = log_text (files w1)
                +:+ log_line (make_timestamp (year env2) c2) c2 "block".
Proof.
  destruct (wait_for_star (modem Sample.empty_world) (star_t0 Sample.env_star)
              (star_obs Sample.env_star)) as [[m star]|] eqn:Hw;
    [|exfalso; vm_compute in Hw; discriminate Hw].
  assert (Hstar : star = true) by (vm_compute in Hw; congruence).
  subst star.
  apply (star_added_number_is_blocked_next_time (pattern := list PyRe.piece)
           Sample.env_star Sample.empty_world Sample.call_new
           (PyRe.literal "8005550100") m);
    [reflexivity|reflexivity|exact Hw|discriminate|reflexivity|reflexivity].
Defined.
